(** * Lamport mutual exclusion and Byzantine OM(m) agreement

    A shallow embedding of the Python sources of the repository

    - [combined_assignments.py]                          (module [Combined*])
    - [Assignment-1-Lamport-Mutex/lamport_node.py]       (module [LamportNodePy])
    - [Assignment-1-Lamport-Mutex/code/node.py]          (module [NodePy])
    - [Assignment-2-Byzantine-Agreement/byzantine_node.py]   (module [ByzantineNodePy])
    - [Assignment-2-Byzantine-Agreement/code/lieutenant.py]  (module [LieutenantPy])

    Python [int] is [Z], Python [str] is [string], a [dict] is an association
    list kept in insertion order (iteration order of a [dict] is observable in
    [Counter.most_common] and in [dict.values()]), a [set] of ints is a
    duplicate-free list.  Every node object is a record; a method becomes a
    function from the record to the updated record together with the RPC
    calls it issues. *)

From Stdlib Require Import ZArith List String Ascii Bool Lia DecimalString Sorted.
Import ListNotations.
Open Scope string_scope.
Open Scope list_scope.
Open Scope Z_scope.

(* ================================================================== *)
(** ** Python primitives used by the sources *)

Module Py.

(** [str(i)] for an int. *)
Definition str (z : Z) : string := NilZero.string_of_int (Z.to_int z).

(** [sep.join(l)]. *)
Fixpoint join (sep : string) (l : list string) : string :=
  match l with
  | [] => EmptyString
  | s :: t =>
      match t with
      | [] => s
      | _ :: _ => (s ++ sep ++ join sep t)%string
      end
  end.

(** [range(n)] and [range(a, b)]. *)
Definition range (n : Z) : list Z := map Z.of_nat (seq 0 (Z.to_nat n)).

Definition range2 (a b : Z) : list Z :=
  map (fun k => a + Z.of_nat k) (seq 0 (Z.to_nat (b - a))).

(** [x in l] for a list (or a set) of ints. *)
Definition mem (x : Z) (l : list Z) : bool := existsb (Z.eqb x) l.

(** [len(l)]. *)
Definition len {A : Type} (l : list A) : Z := Z.of_nat (List.length l).

(** [l[0]]: raises [IndexError] (here [None]) on the empty list. *)
Definition index0 {A : Type} (l : list A) : option A :=
  match l with
  | [] => None
  | x :: _ => Some x
  end.

(** [s.add(x)] on a set of ints. *)
Definition set_add (x : Z) (s : list Z) : list Z :=
  if mem x s then s else s ++ [x].

(** Comparison of [(int, int)] tuples: lexicographic. *)
Definition tuple_ltb (a b : Z * Z) : bool :=
  (fst a <? fst b) || ((fst a =? fst b) && (snd a <? snd b)).

Definition tuple_eqb (a b : Z * Z) : bool :=
  (fst a =? fst b) && (snd a =? snd b).

(** [list.sort()] / [sorted(l)]: a stable sort.  The elements are inserted
    from left to right, each one behind the elements not greater than it. *)
Section Sort.
Context {A : Type} (ltb : A -> A -> bool).

Fixpoint insert (x : A) (l : list A) : list A :=
  match l with
  | [] => [x]
  | y :: t => if ltb x y then x :: y :: t else y :: insert x t
  end.

Definition sort (l : list A) : list A :=
  fold_left (fun acc x => insert x acc) l [].

End Sort.

(** A [dict] in insertion order. *)
Section Dict.
Context {K V : Type} (eqb : K -> K -> bool).

Fixpoint get (d : list (K * V)) (k : K) : option V :=
  match d with
  | [] => None
  | (k', v) :: t => if eqb k k' then Some v else get t k
  end.

(** [k in d]. *)
Definition contains (d : list (K * V)) (k : K) : bool :=
  match get d k with
  | Some _ => true
  | None => false
  end.

(** [d[k] = v]: an existing key keeps its position. *)
Fixpoint set (d : list (K * V)) (k : K) (v : V) : list (K * V) :=
  match d with
  | [] => [(k, v)]
  | (k', v') :: t => if eqb k k' then (k', v) :: t else (k', v') :: set t k v
  end.

(** [d.get(k, default)]. *)
Definition get_default (d : list (K * V)) (k : K) (default : V) : V :=
  match get d k with
  | Some v => v
  | None => default
  end.

(** [d.values()]. *)
Definition values (d : list (K * V)) : list V := map snd d.

End Dict.

(** [Counter(values)]: counts in order of first occurrence. *)
Fixpoint counter_add (c : list (string * Z)) (x : string) : list (string * Z) :=
  match c with
  | [] => [(x, 1)]
  | (y, n) :: t =>
      if String.eqb x y then (y, n + 1) :: t else (y, n) :: counter_add t x
  end.

Definition Counter (vals : list string) : list (string * Z) :=
  fold_left counter_add vals [].

(** [max(items, key=count)]: the first item of maximal count. *)
Fixpoint max_by_count (best : string * Z) (l : list (string * Z)) : string * Z :=
  match l with
  | [] => best
  | x :: t => max_by_count (if snd best <? snd x then x else best) t
  end.

(** [c.most_common(1)], which is [heapq.nlargest(1, c.items(), key=count)]. *)
Definition most_common1 (c : list (string * Z)) : list (string * Z) :=
  match c with
  | [] => []
  | x :: t => [max_by_count x t]
  end.

(** Equality of lists of ints (tuples of ints used as dict keys). *)
Fixpoint list_eqb (a b : list Z) : bool :=
  match a, b with
  | [], [] => true
  | x :: a', y :: b' => (x =? y) && list_eqb a' b'
  | _, _ => false
  end.

End Py.

(** The two order values. *)
Definition ATTACK : string := "ATTACK".
Definition RETREAT : string := "RETREAT".

(** The three node states of the mutex protocol. *)
Inductive NodeState : Type := RELEASED | WANTED | HELD.

Definition NodeState_eqb (a b : NodeState) : bool :=
  match a, b with
  | RELEASED, RELEASED | WANTED, WANTED | HELD, HELD => true
  | _, _ => false
  end.

(** A request queue is sorted when each entry is not greater than its
    successor in the order on [(timestamp, node id)] tuples. *)
Fixpoint sortedb (q : list (Z * Z)) : bool :=
  match q with
  | [] => true
  | a :: t =>
      match t with
      | [] => true
      | b :: _ => negb (Py.tuple_ltb b a) && sortedb t
      end
  end.

(** Messages of the mutex protocol, as sent to a peer. *)
Inductive MutexMsg : Type :=
| MsgRequest (timestamp sender : Z)
| MsgRelease (sender : Z)
| MsgReleaseAt (timestamp sender : Z).

(* ================================================================== *)
(** ** [combined_assignments.py], class [LamportNode] *)

Module CombinedLamport.

Record LamportNode : Type := mkNode {
  id : Z;
  total_nodes : Z;
  clock : Z;
  request_queue : list (Z * Z);
  replies_received : list Z;
  state : NodeState
}.

(** [LamportNode.__init__]. *)
Definition init (node_id total : Z) : LamportNode :=
  mkNode node_id total 0 [] [] RELEASED.

Definition set_clock (n : LamportNode) (c : Z) : LamportNode :=
  mkNode (id n) (total_nodes n) c (request_queue n) (replies_received n) (state n).

Definition set_queue (n : LamportNode) (q : list (Z * Z)) : LamportNode :=
  mkNode (id n) (total_nodes n) (clock n) q (replies_received n) (state n).

Definition set_replies (n : LamportNode) (r : list Z) : LamportNode :=
  mkNode (id n) (total_nodes n) (clock n) (request_queue n) r (state n).

Definition set_state (n : LamportNode) (s : NodeState) : LamportNode :=
  mkNode (id n) (total_nodes n) (clock n) (request_queue n) (replies_received n) s.

(** [if received_clock:] is false for [None] and for [0]. *)
Definition truthy (received_clock : option Z) : bool :=
  match received_clock with
  | Some t => negb (t =? 0)
  | None => false
  end.

Definition _tick_clock (n : LamportNode) (received_clock : option Z) : LamportNode :=
  match received_clock with
  | Some t =>
      if truthy received_clock
      then set_clock n (Z.max (clock n) t + 1)
      else set_clock n (clock n + 1)
  | None => set_clock n (clock n + 1)
  end.

(** RPC handler [receive_request(timestamp, sender_id)]; returns ["REPLY"]. *)
Definition receive_request (n : LamportNode) (timestamp sender_id : Z)
  : LamportNode * string :=
  let n1 := _tick_clock n (Some timestamp) in
  let n2 := set_queue n1 (request_queue n1 ++ [(timestamp, sender_id)]) in
  let n3 := set_queue n2 (Py.sort Py.tuple_ltb (request_queue n2)) in
  (n3, "REPLY").

(** RPC handler [receive_release(sender_id)]; returns ["OK"]. *)
Definition receive_release (n : LamportNode) (sender_id : Z)
  : LamportNode * string :=
  let n1 := _tick_clock n None in
  let n2 := set_queue n1
              (filter (fun req => negb (snd req =? sender_id)) (request_queue n1)) in
  (n2, "OK").

(** The calls [_broadcast(method, *args)] attempts: one per other node. *)
Definition _broadcast (n : LamportNode) (msg : MutexMsg) : list (Z * MutexMsg) :=
  map (fun i => (i, msg))
      (filter (fun i => negb (i =? id n)) (Py.range (total_nodes n))).

(** [_broadcast('request', ...)] got an answer from node [i]:
    [self.replies_received.add(i)]. *)
Definition reply_received (n : LamportNode) (i : Z) : LamportNode :=
  set_replies n (Py.set_add i (replies_received n)).

(** [request_cs] up to the start of its polling loop.  The result holds the
    node, the local [request_timestamp] when the call goes on to poll
    ([None] when the guard returned), and the calls of the broadcast. *)
Definition request_cs_prologue (n : LamportNode)
  : LamportNode * option Z * list (Z * MutexMsg) :=
  if negb (NodeState_eqb (state n) RELEASED) then (n, None, [])
  else
    let n1 := set_state n WANTED in
    let n2 := _tick_clock n1 None in
    let request_timestamp := clock n2 in
    let n3 := set_queue n2 (request_queue n2 ++ [(request_timestamp, id n2)]) in
    let n4 := set_queue n3 (Py.sort Py.tuple_ltb (request_queue n3)) in
    let n5 := set_replies n4 [] in
    (n5, Some request_timestamp,
     _broadcast n5 (MsgRequest request_timestamp (id n5))).

(** The test of one iteration of the [while True] loop of [request_cs]. *)
Definition may_enter (n : LamportNode) : bool :=
  (Py.len (replies_received n) =? total_nodes n - 1) &&
  match request_queue n with
  | [] => false
  | head :: _ => snd head =? id n
  end.

(** [enter_cs] up to its [time.sleep]. *)
Definition enter_cs (n : LamportNode) : LamportNode := set_state n HELD.

(** [release_cs]. *)
Definition release_cs (n : LamportNode) : LamportNode * list (Z * MutexMsg) :=
  let n1 := set_state n RELEASED in
  let n2 := set_queue n1
              (filter (fun req => negb (snd req =? id n1)) (request_queue n1)) in
  (n2, _broadcast n2 (MsgRelease (id n2))).

(** Where the thread that runs [request_cs] stands. *)
Inductive Pc : Type :=
| Idle
| Polling (request_timestamp : Z)
| Working.

Record Proc : Type := mkProc { node : LamportNode; pc : Pc }.

Inductive Event : Type :=
| CallRequestCS
| Poll
| WorkDone
| RecvRequest (timestamp sender_id : Z)
| RecvRelease (sender_id : Z)
| ReplyArrived (i : Z).

(** One atomic step of a node; the second component lists the calls sent. *)
Definition step (p : Proc) (e : Event) : Proc * list (Z * MutexMsg) :=
  match e with
  | CallRequestCS =>
      match request_cs_prologue (node p) with
      | (n', Some ts, out) => (mkProc n' (Polling ts), out)
      | (n', None, out) => (mkProc n' (pc p), out)
      end
  | Poll =>
      match pc p with
      | Polling _ =>
          if may_enter (node p) then (mkProc (enter_cs (node p)) Working, [])
          else (p, [])
      | _ => (p, [])
      end
  | WorkDone =>
      match pc p with
      | Working =>
          let (n', out) := release_cs (node p) in (mkProc n' Idle, out)
      | _ => (p, [])
      end
  | RecvRequest ts s => (mkProc (fst (receive_request (node p) ts s)) (pc p), [])
  | RecvRelease s => (mkProc (fst (receive_release (node p) s)) (pc p), [])
  | ReplyArrived i =>
      if Py.mem i (Py.range (total_nodes (node p))) && negb (i =? id (node p))
      then (mkProc (reply_received (node p) i) (pc p), [])
      else (p, [])
  end.

Definition run (p : Proc) (es : list Event) : Proc :=
  fold_left (fun q e => fst (step q e)) es p.

Definition start (node_id total : Z) : Proc := mkProc (init node_id total) Idle.

(** Peers send requests under their own id, never under the receiver's. *)
Definition honest (self : Z) (e : Event) : bool :=
  match e with
  | RecvRequest _ s => negb (s =? self)
  | _ => true
  end.

End CombinedLamport.

(* ================================================================== *)
(** ** [Assignment-1-Lamport-Mutex/lamport_node.py] *)

Module LamportNodePy.

Record LamportNode : Type := mkNode {
  node_id : Z;
  total_nodes : Z;
  logical_clock : Z;
  request_queue : list (Z * Z);
  replies_received : list Z;
  state : NodeState
}.

Definition init (nid total : Z) : LamportNode :=
  mkNode nid total 0 [] [] RELEASED.

Definition set_clock (n : LamportNode) (c : Z) : LamportNode :=
  mkNode (node_id n) (total_nodes n) c (request_queue n) (replies_received n) (state n).

Definition set_queue (n : LamportNode) (q : list (Z * Z)) : LamportNode :=
  mkNode (node_id n) (total_nodes n) (logical_clock n) q (replies_received n) (state n).

Definition set_replies (n : LamportNode) (r : list Z) : LamportNode :=
  mkNode (node_id n) (total_nodes n) (logical_clock n) (request_queue n) r (state n).

Definition set_state (n : LamportNode) (s : NodeState) : LamportNode :=
  mkNode (node_id n) (total_nodes n) (logical_clock n) (request_queue n)
         (replies_received n) s.

Definition _tick_clock (n : LamportNode) : LamportNode :=
  set_clock n (logical_clock n + 1).

(** RPC handler [receive_request(timestamp, requester_id)]; returns the clock. *)
Definition receive_request (n : LamportNode) (timestamp requester_id : Z)
  : LamportNode * Z :=
  let n1 := set_clock n (Z.max (logical_clock n) timestamp + 1) in
  let n2 := set_queue n1 (request_queue n1 ++ [(timestamp, requester_id)]) in
  let n3 := set_queue n2 (Py.sort Py.tuple_ltb (request_queue n2)) in
  let n4 := _tick_clock n3 in
  (n4, logical_clock n4).

(** RPC handler [receive_release(timestamp, releaser_id)]; returns [True]. *)
Definition receive_release (n : LamportNode) (timestamp releaser_id : Z)
  : LamportNode * bool :=
  let n1 := set_clock n (Z.max (logical_clock n) timestamp + 1) in
  let n2 := set_queue n1
              (filter (fun req => negb (snd req =? releaser_id)) (request_queue n1)) in
  (n2, true).

Definition others (n : LamportNode) : list Z :=
  filter (fun i => negb (i =? node_id n)) (Py.range (total_nodes n)).

(** [request_cs]: the calls are those of the [_send_request] threads. *)
Definition request_cs (n : LamportNode) : LamportNode * list (Z * MutexMsg) :=
  let n1 := set_state n WANTED in
  let n2 := _tick_clock n1 in
  let my_request := (logical_clock n2, node_id n2) in
  let n3 := set_queue n2 (request_queue n2 ++ [my_request]) in
  let n4 := set_queue n3 (Py.sort Py.tuple_ltb (request_queue n3)) in
  (n4, map (fun i => (i, MsgRequest (fst my_request) (snd my_request))) (others n4)).

(** [_send_request] got its answer from [target_node_id]. *)
Definition reply_received (n : LamportNode) (target_node_id : Z) : LamportNode :=
  set_replies n (Py.set_add target_node_id (replies_received n)).

(** [release_cs]: the calls are those of the [_send_release] threads. *)
Definition release_cs (n : LamportNode) : LamportNode * list (Z * MutexMsg) :=
  let n1 := set_state n RELEASED in
  let n2 := _tick_clock n1 in
  let n3 := set_queue n2
              (filter (fun req => negb (snd req =? node_id n2)) (request_queue n2)) in
  (n3, map (fun i => (i, MsgReleaseAt (logical_clock n3) (node_id n3))) (others n3)).

(** The entry test of [main_loop], made when the state is [WANTED]. *)
Definition may_enter (n : LamportNode) : bool :=
  let all_replies_in := Py.len (replies_received n) =? total_nodes n - 1 in
  let is_head_of_queue :=
    match request_queue n with
    | [] => false
    | head :: _ => snd head =? node_id n
    end in
  all_replies_in && is_head_of_queue.

(** Where the thread that runs [main_loop] stands: in the loop, or asleep
    inside the critical section. *)
Inductive Pc : Type := Looping | Working.

Record Proc : Type := mkProc { node : LamportNode; pc : Pc }.

Inductive Event : Type :=
| MaybeRequest (coin : bool)
| CheckEnter
| WorkDone
| RecvRequest (timestamp requester_id : Z)
| RecvRelease (timestamp releaser_id : Z)
| ReplyArrived (i : Z).

Definition step (p : Proc) (e : Event) : Proc * list (Z * MutexMsg) :=
  match e with
  | MaybeRequest coin =>
      match pc p with
      | Looping =>
          if NodeState_eqb (state (node p)) RELEASED && coin
          then let (n', out) := request_cs (node p) in (mkProc n' Looping, out)
          else (p, [])
      | Working => (p, [])
      end
  | CheckEnter =>
      match pc p with
      | Looping =>
          if NodeState_eqb (state (node p)) WANTED && may_enter (node p)
          then (mkProc (set_state (node p) HELD) Working, [])
          else (p, [])
      | Working => (p, [])
      end
  | WorkDone =>
      match pc p with
      | Working =>
          let (n', out) := release_cs (set_replies (node p) []) in
          (mkProc n' Looping, out)
      | Looping => (p, [])
      end
  | RecvRequest ts r => (mkProc (fst (receive_request (node p) ts r)) (pc p), [])
  | RecvRelease ts r => (mkProc (fst (receive_release (node p) ts r)) (pc p), [])
  | ReplyArrived i =>
      if Py.mem i (others (node p))
      then (mkProc (reply_received (node p) i) (pc p), [])
      else (p, [])
  end.

Definition run (p : Proc) (es : list Event) : Proc :=
  fold_left (fun q e => fst (step q e)) es p.

Definition start (nid total : Z) : Proc := mkProc (init nid total) Looping.

Definition honest (self : Z) (e : Event) : bool :=
  match e with
  | RecvRequest _ s => negb (s =? self)
  | _ => true
  end.

End LamportNodePy.

(* ================================================================== *)
(** ** [Assignment-1-Lamport-Mutex/code/node.py] *)

Module NodePy.

Record LamportNode : Type := mkNode {
  id : Z;
  nodes : list (Z * (string * Z));   (* id -> (host, port) *)
  clock : Z;
  request_queue : list (Z * Z);
  ack_count : Z
}.

(** [LamportNode.__init__] on the node entries of the configuration file;
    [None] stands for the [ValueError] raised for an unknown id. *)
Definition init (node_id : Z) (cfg_nodes : list (Z * (string * Z)))
  : option LamportNode :=
  let nodes := fold_left (fun d n => Py.set Z.eqb d (fst n) (snd n)) cfg_nodes [] in
  if Py.contains Z.eqb nodes node_id
  then Some (mkNode node_id nodes 0 [] 0)
  else None.

Definition set_clock (n : LamportNode) (c : Z) : LamportNode :=
  mkNode (id n) (nodes n) c (request_queue n) (ack_count n).

Definition set_queue (n : LamportNode) (q : list (Z * Z)) : LamportNode :=
  mkNode (id n) (nodes n) (clock n) q (ack_count n).

Definition set_ack_count (n : LamportNode) (a : Z) : LamportNode :=
  mkNode (id n) (nodes n) (clock n) (request_queue n) a.

(** RPC handler [receive_request(ts, node_id)]; returns [True]. *)
Definition receive_request (n : LamportNode) (ts node_id : Z) : LamportNode * bool :=
  let n1 := set_clock n (Z.max (clock n) ts + 1) in
  let n2 := set_queue n1 (request_queue n1 ++ [(ts, node_id)]) in
  let n3 := set_queue n2 (Py.sort Py.tuple_ltb (request_queue n2)) in
  (n3, true).

(** RPC handler [receive_release(node_id)]; returns [True]. *)
Definition receive_release (n : LamportNode) (node_id : Z) : LamportNode * bool :=
  let n1 := set_clock n (clock n + 1) in
  let n2 := set_queue n1
              (filter (fun r => negb (snd r =? node_id)) (request_queue n1)) in
  (n2, true).

Definition peers (n : LamportNode) : list Z :=
  filter (fun nid => negb (nid =? id n)) (map fst (nodes n)).

(** [broadcast_request(ts)]: the calls are synchronous; [up nid] tells
    whether the call to [nid] returns (otherwise the exception is printed
    and the loop goes on).  Returns whether every peer acknowledged. *)
Definition broadcast_request (n : LamportNode) (ts : Z) (up : Z -> bool)
  : LamportNode * bool * list (Z * MutexMsg) :=
  let n0 := set_ack_count n 0 in
  let n1 := fold_left
              (fun m nid => if up nid then set_ack_count m (ack_count m + 1) else m)
              (peers n0) n0 in
  let total_needed := Py.len (nodes n1) - 1 in
  let got := ack_count n1 in
  (n1, total_needed <=? got, map (fun nid => (nid, MsgRequest ts (id n1))) (peers n1)).

Definition broadcast_release (n : LamportNode) : list (Z * MutexMsg) :=
  map (fun nid => (nid, MsgRelease (id n))) (peers n).

(** [request_critical_section] up to its waiting loop: the node, the local
    [ts], the local [ok], and the calls made. *)
Definition request_prologue (n : LamportNode) (up : Z -> bool)
  : LamportNode * Z * bool * list (Z * MutexMsg) :=
  let n1 := set_clock n (clock n + 1) in
  let ts := clock n1 in
  let n2 := set_queue n1 (request_queue n1 ++ [(ts, id n1)]) in
  let n3 := set_queue n2 (Py.sort Py.tuple_ltb (request_queue n2)) in
  match broadcast_request n3 ts up with
  | (n4, ok, out) => (n4, ts, ok, out)
  end.

(** The test of the waiting loop: [head == (ts, self.id)]. *)
Definition at_head (n : LamportNode) (ts : Z) : bool :=
  match request_queue n with
  | [] => false
  | head :: _ => Py.tuple_eqb head (ts, id n)
  end.

(** The end of [request_critical_section], after the critical section. *)
Definition request_epilogue (n : LamportNode) : LamportNode * list (Z * MutexMsg) :=
  let n1 := set_queue n
              (filter (fun r => negb (snd r =? id n)) (request_queue n)) in
  (n1, broadcast_release n1).

(** Where the thread that serves the command line stands. *)
Inductive Pc : Type :=
| Idle
| Waiting (ts : Z) (ok : bool)
| InCriticalSection (ts : Z).

Record Proc : Type := mkProc { node : LamportNode; pc : Pc }.

Inductive Event : Type :=
| CallRequest (up : Z -> bool)
| Poll
| WorkDone
| RecvRequest (ts node_id : Z)
| RecvRelease (node_id : Z).

Definition step (p : Proc) (e : Event) : Proc * list (Z * MutexMsg) :=
  match e with
  | CallRequest up =>
      match pc p with
      | Idle =>
          match request_prologue (node p) up with
          | (n', ts, ok, out) => (mkProc n' (Waiting ts ok), out)
          end
      | _ => (p, [])
      end
  | Poll =>
      match pc p with
      | Waiting ts _ =>
          if at_head (node p) ts then (mkProc (node p) (InCriticalSection ts), [])
          else (p, [])
      | _ => (p, [])
      end
  | WorkDone =>
      match pc p with
      | InCriticalSection _ =>
          let (n', out) := request_epilogue (node p) in (mkProc n' Idle, out)
      | _ => (p, [])
      end
  | RecvRequest ts s => (mkProc (fst (receive_request (node p) ts s)) (pc p), [])
  | RecvRelease s => (mkProc (fst (receive_release (node p) s)) (pc p), [])
  end.

Definition run (p : Proc) (es : list Event) : Proc :=
  fold_left (fun q e => fst (step q e)) es p.

Definition start (n : LamportNode) : Proc := mkProc n Idle.

Definition in_critical_section (p : Proc) : bool :=
  match pc p with
  | InCriticalSection _ => true
  | _ => false
  end.

End NodePy.

(* ================================================================== *)
(** ** [combined_assignments.py], class [ByzantineNode] and
       [run_byzantine_simulation] *)

Module CombinedByzantine.

Record ByzantineNode : Type := mkNode {
  id : Z;
  total_nodes : Z;
  is_traitor : bool;
  messages : list (string * list string);   (* defaultdict(list) *)
  final_decision : option string
}.

(** [ByzantineNode.__init__]. *)
Definition init (node_id total : Z) (traitor : bool) : ByzantineNode :=
  mkNode node_id total traitor [] None.

Definition set_messages (n : ByzantineNode) (ms : list (string * list string))
  : ByzantineNode :=
  mkNode (id n) (total_nodes n) (is_traitor n) ms (final_decision n).

Definition set_final_decision (n : ByzantineNode) (d : option string) : ByzantineNode :=
  mkNode (id n) (total_nodes n) (is_traitor n) (messages n) d.

(** [_majority(values)]. *)
Definition _majority (values : list string) : string :=
  match values with
  | [] => RETREAT
  | _ :: _ =>
      let counts := Py.Counter values in
      match Py.most_common1 counts with
      | mc :: _ => fst mc
      | [] => RETREAT
      end
  end.

(** ["->".join(map(str, path))]. *)
Definition path_str (path : list Z) : string := Py.join "->" (map Py.str path).

(** RPC handler [receive_message(commander_id_path, order)]; returns ["OK"]. *)
Definition receive_message (n : ByzantineNode) (commander_id_path : list Z)
  (order : string) : ByzantineNode * string :=
  let k := path_str commander_id_path in
  let old := Py.get_default String.eqb (messages n) k [] in
  (set_messages n (Py.set String.eqb (messages n) k (old ++ [order])), "OK").

(** The value a traitor substitutes: ["RETREAT" if o == "ATTACK" else "ATTACK"]. *)
Definition flip (order : string) : string :=
  if String.eqb order ATTACK then RETREAT else ATTACK.

(** The order [execute_om] hands to lieutenant [lt_id]. *)
Definition current_order (n : ByzantineNode) (order_to_send : string) (lt_id : Z)
  : string :=
  if is_traitor n && (lt_id mod 2 =? 0) then flip order_to_send else order_to_send.

(** The calls [execute_om(m, commander_id_path, order_to_send)] makes, in
    order: destination, path and order of each [receive_message]. *)
Definition execute_om (n : ByzantineNode) (m : Z) (commander_id_path : list Z)
  (order_to_send : string) : list (Z * (list Z * string)) :=
  let lieutenants :=
    filter (fun i => negb (Py.mem i commander_id_path)) (Py.range (total_nodes n)) in
  map (fun lt_id => (lt_id, (commander_id_path, current_order n order_to_send lt_id)))
      lieutenants.

(** Monadic plumbing for Python exceptions ([None] is an uncaught one). *)
Definition bind {A B : Type} (x : option A) (k : A -> option B) : option B :=
  match x with
  | Some a => k a
  | None => None
  end.

Fixpoint mapM {A B : Type} (g : A -> option B) (l : list A) : option (list B) :=
  match l with
  | [] => Some []
  | a :: t => bind (g a) (fun b => bind (mapM g t) (fun bs => Some (b :: bs)))
  end.

(** [self.messages.get(key, ["RETREAT"])[0]]. *)
Definition first_stored (n : ByzantineNode) (key : string) : option string :=
  Py.index0 (Py.get_default String.eqb (messages n) key [RETREAT]).

(** The list [all_values] that [decide] builds when [m != 0]. *)
Definition all_values (n : ByzantineNode) (commander_id : Z) : option (list string) :=
  bind (first_stored n (Py.str commander_id)) (fun v_commander =>
  let other_lieutenants :=
    filter (fun i => negb (i =? id n) && negb (i =? commander_id))
           (Py.range (total_nodes n)) in
  bind (mapM (fun lt_id =>
                first_stored n (Py.str commander_id ++ "->" ++ Py.str lt_id)%string)
             other_lieutenants) (fun relayed =>
  Some (v_commander :: relayed))).

(** [decide(m, commander_id)]. *)
Definition decide (n : ByzantineNode) (m commander_id : Z) : option ByzantineNode :=
  if id n =? commander_id then Some n
  else if m =? 0 then
    bind (first_stored n (Py.str commander_id)) (fun v =>
    Some (set_final_decision n (Some v)))
  else
    bind (all_values n commander_id) (fun vs =>
    Some (set_final_decision n (Some (_majority vs)))).

(** *** The simulation *)

Fixpoint update_at {A : Type} (l : list A) (i : nat) (g : A -> A) : list A :=
  match l, i with
  | [], _ => []
  | x :: t, O => g x :: t
  | x :: t, S j => x :: update_at t j g
  end.

(** One attempted call: sender, destination, path, order. *)
Definition Call : Type := (Z * Z * list Z * string)%type.

Record Net : Type := mkNet {
  nodes : list ByzantineNode;
  sent : list Call
}.

(** What becomes of one attempted call, given the number of calls attempted
    before it, its sender, its destination and the order it carries: [None]
    when the handler does not run (connection refused, arguments not
    marshalled, fault: [execute_om] swallows the exception), [Some o] when
    the server of the destination runs [receive_message] on the path, a list
    of ints that arrives as sent, and on [o], the order as XML-RPC hands it
    over.  Every call has a fate of its own: the same pair of nodes is
    called again in later rounds.  The result of the call is not used. *)
Definition Link : Type := nat -> Z -> Z -> string -> option string.

(** One call of [execute_om]: [proxy.receive_message(commander_id_path,
    current_order)] inside [try ... except Exception: pass]. *)
Definition deliver (link : Link) (sender : Z) (net : Net)
  (call : Z * (list Z * string)) : Net :=
  let '(lt_id, (path, order)) := call in
  mkNet (match link (List.length (sent net)) sender lt_id order with
         | Some arrived =>
             update_at (nodes net) (Z.to_nat lt_id)
                       (fun n => fst (receive_message n path arrived))
         | None => nodes net
         end)
        (sent net ++ [(sender, lt_id, path, order)]).

(** [path[:-1]] and [path[-1]]. *)
Definition init_of (path : list Z) : list Z := removelast path.

Definition last_of (path : list Z) : option Z :=
  Py.index0 (rev path).

(** The body of [for path in current_paths]. *)
Definition visit_path (link : Link) (total m i : Z) (commander_order : string)
  (st : Net * list (list Z)) (path : list Z) : option (Net * list (list Z)) :=
  let '(net, path_history) := st in
  bind (last_of path) (fun current_commander_id =>
  bind (if 1 <? Py.len path
        then match find (fun n => id n =? current_commander_id) (nodes net) with
             | Some current_commander_node =>
                 first_stored current_commander_node (path_str (init_of path))
             | None => Some commander_order
             end
        else Some commander_order) (fun order_to_send =>
  bind (nth_error (nodes net) (Z.to_nat current_commander_id)) (fun commander_node =>
  let net' := fold_left (deliver link (id commander_node))
                        (execute_om commander_node (m - i) path order_to_send) net in
  let path_history' :=
    if 0 <? m - i
    then path_history ++
         map (fun lt_id => path ++ [lt_id])
             (filter (fun n => negb (Py.mem n path)) (Py.range total))
    else path_history in
  Some (net', path_history')))).

Fixpoint foldM {A B : Type} (g : A -> B -> option A) (l : list B) (a : A) : option A :=
  match l with
  | [] => Some a
  | b :: t => bind (g a b) (foldM g t)
  end.

(** The body of [for i in range(m + 1)]. *)
Definition round (link : Link) (total m : Z) (commander_order : string)
  (st : Net * list (list Z)) (i : Z) : option (Net * list (list Z)) :=
  let current_paths := snd st in
  foldM (visit_path link total m i commander_order) current_paths st.

Record Outcome : Type := mkOutcome {
  error_logged : bool;
  final : Net
}.

(** [traitor_ids = {total_nodes - 1 - i for i in range(num_traitors)}]. *)
Definition traitor_ids (total_nodes num_traitors : Z) : list Z :=
  map (fun i => total_nodes - 1 - i) (Py.range num_traitors).

(** [run_byzantine_simulation(total_nodes, num_traitors, commander_order)],
    with every RPC server started; [None] is an uncaught exception. *)
Definition run_byzantine_simulation (link : Link)
  (total_nodes num_traitors : Z) (commander_order : string) : option Outcome :=
  if total_nodes <=? 3 * num_traitors then Some (mkOutcome true (mkNet [] []))
  else
    let ns := map (fun i => init i total_nodes
                              (Py.mem i (traitor_ids total_nodes num_traitors)))
                  (Py.range total_nodes) in
    let commander_id := 0 in
    let m := num_traitors in
    bind (foldM (round link total_nodes m commander_order) (Py.range (m + 1))
                (mkNet ns [], [[commander_id]])) (fun st =>
    bind (mapM (fun n => if negb (id n =? commander_id)
                         then decide n m commander_id else Some n)
               (nodes (fst st))) (fun decided =>
    Some (mkOutcome false (mkNet decided (sent (fst st)))))).

(** The decision of node [i] in an outcome. *)
Definition decision_of (o : option Outcome) (i : Z) : option string :=
  match o with
  | Some out =>
      match find (fun n => id n =? i) (nodes (final out)) with
      | Some n => final_decision n
      | None => None
      end
  | None => None
  end.

(** Every call arrives, with the order it carries. *)
Definition reliable : Link := fun _ _ _ order => Some order.

End CombinedByzantine.

(* ================================================================== *)
(** ** [Assignment-2-Byzantine-Agreement/byzantine_node.py] *)

Module ByzantineNodePy.

Record Lieutenant : Type := mkLieutenant {
  node_id : Z;
  total_nodes : Z;
  is_traitor : bool;
  messages : list (list Z * list string);   (* tuple(sorted(path)) -> orders *)
  final_decision : option string
}.

(** [Lieutenant.__init__], as the [__main__] block calls it: no check on
    [total_nodes]. *)
Definition init (nid total : Z) (traitor : bool) : Lieutenant :=
  mkLieutenant nid total traitor [] None.

Definition set_messages (n : Lieutenant) (ms : list (list Z * list string))
  : Lieutenant :=
  mkLieutenant (node_id n) (total_nodes n) (is_traitor n) ms (final_decision n).

Definition set_final_decision (n : Lieutenant) (d : option string) : Lieutenant :=
  mkLieutenant (node_id n) (total_nodes n) (is_traitor n) (messages n) d.

(** One forwarded call [receive_order(self.node_id, order, path)] to
    [target_id]. *)
Record Forward : Type := mkForward {
  target_id : Z;
  fw_commander_id : Z;
  fw_order : string;
  fw_path : list Z
}.

(** The recursion depth fixed in [receive_order]: [m = 1]. *)
Definition m : Z := 1.

(** RPC handler [receive_order(commander_id, order, path)]; returns [True]
    and starts one [_forward_order] thread per forwarded call. *)
Definition receive_order (n : Lieutenant) (commander_id : Z) (order : string)
  (path : list Z) : Lieutenant * bool * list Forward :=
  let order :=
    if is_traitor n
    then (if String.eqb order ATTACK then RETREAT else ATTACK)
    else order in
  let path_key := Py.sort Z.ltb path in
  let ms1 :=
    if negb (Py.contains Py.list_eqb (messages n) path_key)
    then Py.set Py.list_eqb (messages n) path_key []
    else messages n in
  let ms2 :=
    Py.set Py.list_eqb ms1 path_key
           (Py.get_default Py.list_eqb ms1 path_key [] ++ [order]) in
  let n' := set_messages n ms2 in
  if Py.len path <=? m
  then
    let new_path := path ++ [node_id n'] in
    let lieutenants_to_forward :=
      filter (fun i => negb (Py.mem i new_path)) (Py.range2 1 (total_nodes n')) in
    (n', true,
     map (fun lt_id => mkForward lt_id (node_id n') order new_path)
         lieutenants_to_forward)
  else (n', true, []).

(** The list [values_to_consider] of [decide]; [None] is an [IndexError]. *)
Fixpoint relayed_values (items : list (list Z * list string)) : option (list string) :=
  match items with
  | [] => Some []
  | (path, msg_list) :: t =>
      if Py.len path =? 2
      then match Py.index0 msg_list, relayed_values t with
           | Some v, Some vs => Some (v :: vs)
           | _, _ => None
           end
      else relayed_values t
  end.

(** [decide()]; [None] is an uncaught exception. *)
Definition decide (n : Lieutenant) : option Lieutenant :=
  let commander_path := Py.sort Z.ltb [0] in
  match Py.get Py.list_eqb (messages n) commander_path with
  | None => Some (set_final_decision n (Some RETREAT))
  | Some direct =>
      match Py.index0 direct, relayed_values (messages n) with
      | Some v, Some vs =>
          let values_to_consider := v :: vs in
          match Py.most_common1 (Py.Counter values_to_consider) with
          | mc :: _ => Some (set_final_decision n (Some (fst mc)))
          | [] => None
          end
      | _, _ => None
      end
  end.

End ByzantineNodePy.

(* ================================================================== *)
(** ** [Assignment-2-Byzantine-Agreement/code/lieutenant.py] *)

Module LieutenantPy.

(** An element of a path tuple: the marker ['C'] or a lieutenant id. *)
Inductive Elem : Type :=
| C
| Id (i : Z).

Definition Elem_eqb (a b : Elem) : bool :=
  match a, b with
  | C, C => true
  | Id i, Id j => i =? j
  | _, _ => false
  end.

Fixpoint key_eqb (a b : list Elem) : bool :=
  match a, b with
  | [], [] => true
  | x :: a', y :: b' => Elem_eqb x y && key_eqb a' b'
  | _, _ => false
  end.

Record Lieutenant : Type := mkLieutenant {
  id : Z;
  lieuts : list (Z * (string * Z * bool));   (* id -> (host, port, byzantine) *)
  byzantine : bool;
  f : Z;
  msgs : list (list Elem * string)           (* path tuple -> value *)
}.

(** [Lieutenant.__init__] on the lieutenant entries and the optional ['f']
    of the configuration; [None] is the [ValueError] for an unknown id. *)
Definition init (node_id : Z) (cfg_lieutenants : list (Z * (string * Z * bool)))
  (cfg_f : option Z) : option Lieutenant :=
  let lieuts :=
    fold_left (fun d l => Py.set Z.eqb d (fst l) (snd l)) cfg_lieutenants [] in
  match Py.get Z.eqb lieuts node_id with
  | Some (_, _, byz) =>
      Some (mkLieutenant node_id lieuts byz
                         (match cfg_f with Some v => v | None => 1 end) [])
  | None => None
  end.

Definition set_msgs (n : Lieutenant) (ms : list (list Elem * string)) : Lieutenant :=
  mkLieutenant (id n) (lieuts n) (byzantine n) (f n) ms.

(** [_maybe_corrupt(val)]. *)
Definition _maybe_corrupt (n : Lieutenant) (val : string) : string :=
  if negb (byzantine n) then val
  else if String.eqb val "ATTACK" then "RETREAT"
  else if String.eqb val "RETREAT" then "ATTACK"
  else (val ++ "_BYZ")%string.

(** One call [receive_message(forward_val, new_path)] to lieutenant [dest]. *)
Record Forward : Type := mkForward {
  dest : Z;
  fw_value : string;
  fw_path : list Z
}.

(** [_forward_message(value, path)]. *)
Definition _forward_message (n : Lieutenant) (value : string) (path : list Z)
  : list Forward :=
  let new_path := path ++ [id n] in
  map (fun lid => mkForward lid (_maybe_corrupt n value) new_path)
      (filter (fun lid => negb (lid =? id n) && negb (Py.mem lid path))
              (map fst (lieuts n))).

(** [_om_recursive(value, path, m)]. *)
Definition _om_recursive (n : Lieutenant) (value : string) (path : list Z) (m : Z)
  : list Forward :=
  if m <=? 0 then []
  else
    let new_path := path ++ [id n] in
    map (fun lid => mkForward lid (_maybe_corrupt n value) new_path)
        (filter (fun lid => negb ((lid =? id n) || Py.mem lid path))
                (map fst (lieuts n))).

(** RPC handler [receive_initial_order(order)]; returns [True]. *)
Definition receive_initial_order (n : Lieutenant) (order : string)
  : Lieutenant * bool * list Forward :=
  let n' := set_msgs n (Py.set key_eqb (msgs n) [C; Id (id n)] order) in
  (n', true, _om_recursive n' order [] (f n')).

(** RPC handler [receive_message(value, path)]; returns [True]. *)
Definition receive_message (n : Lieutenant) (value : string) (path : list Z)
  : Lieutenant * bool * list Forward :=
  let path_t := map Id path in
  if negb (Py.contains key_eqb (msgs n) path_t)
  then
    let n' := set_msgs n (Py.set key_eqb (msgs n) path_t value) in
    if Py.len path <? f n'
    then (n', true, _forward_message n' value path)
    else (n', true, [])
  else (n, true, []).

(** [decide()]: the outer [None] is an uncaught exception, the inner one
    the value [None] that the method returns when nothing was received.
    [time.sleep(2 + self.f)] comes first and raises [ValueError] on a
    negative length. *)
Definition decide (n : Lieutenant) : option (option string) :=
  if 2 + f n <? 0 then None
  else
    let values := Py.values (msgs n) in
    match values with
    | [] => Some None
    | _ :: _ =>
        match Py.most_common1 (Py.Counter values) with
        | (decision, count) :: _ => Some (Some decision)
        | [] => None
        end
    end.

End LieutenantPy.

(* ================================================================== *)
(** ** Notions used in the statements *)

(** The order on requests, as a relation. *)
Definition tuple_le (a b : Z * Z) : Prop := Py.tuple_ltb b a = false.

(** The number of entries of a queue that carry the id [self]. *)
Definition own_count (q : list (Z * Z)) (self : Z) : nat :=
  List.length (filter (fun r => snd r =? self) q).

(** What holds of [combined_assignments.py] along the runs with honest
    peers: the thread polls only while the node is [WANTED], a [RELEASED]
    node has no request of its own queued, and never more than one is. *)
Definition combined_inv (self total : Z) (p : CombinedLamport.Proc) : Prop :=
  CombinedLamport.id (CombinedLamport.node p) = self /\
  CombinedLamport.total_nodes (CombinedLamport.node p) = total /\
  (forall ts, CombinedLamport.pc p = CombinedLamport.Polling ts ->
              CombinedLamport.state (CombinedLamport.node p) = WANTED) /\
  (CombinedLamport.state (CombinedLamport.node p) = RELEASED ->
   own_count (CombinedLamport.request_queue (CombinedLamport.node p)) self = 0%nat) /\
  (own_count (CombinedLamport.request_queue (CombinedLamport.node p)) self <= 1)%nat.

(** The same for [lamport_node.py], whose loop tests the state itself. *)
Definition lamport_node_inv (self total : Z) (p : LamportNodePy.Proc) : Prop :=
  LamportNodePy.node_id (LamportNodePy.node p) = self /\
  LamportNodePy.total_nodes (LamportNodePy.node p) = total /\
  (LamportNodePy.state (LamportNodePy.node p) = RELEASED ->
   own_count (LamportNodePy.request_queue (LamportNodePy.node p)) self = 0%nat) /\
  (own_count (LamportNodePy.request_queue (LamportNodePy.node p)) self <= 1)%nat.

(** A configuration of two nodes, used for [node.py]. *)
Definition two_nodes : list (Z * (string * Z)) :=
  [(1, ("localhost", 8001)); (2, ("localhost", 8002))].

(** Node 1 of [two_nodes] after its request, node 2 being unreachable. *)
Definition node1_alone : NodePy.Proc :=
  match NodePy.init 1 two_nodes with
  | Some n => NodePy.run (NodePy.start n) [NodePy.CallRequest (fun _ => false)]
  | None => NodePy.mkProc (NodePy.mkNode 1 [] 0 [] 0) NodePy.Idle
  end.

(** A run of five nodes and one traitor (node 4) in which the relay from
    node 1 to node 2 is lost. *)
Definition relay_1_to_2_lost : CombinedByzantine.Link :=
  fun _ sender dest order =>
    if (sender =? 1) && (dest =? 2) then None else Some order.

(** Three lieutenants, the third one Byzantine, for [lieutenant.py]. *)
Definition three_lieutenants : list (Z * (string * Z * bool)) :=
  [(1, ("localhost", 9001, false)); (2, ("localhost", 9002, false));
   (3, ("localhost", 9003, true))].

(** The inversion ATTACK <-> RETREAT. *)
Definition opposite (v : string) : string :=
  if String.eqb v ATTACK then RETREAT
  else if String.eqb v RETREAT then ATTACK
  else v.

(** How often [v] occurs in a list of values. *)
Definition occurrences (v : string) (l : list string) : Z :=
  Py.len (filter (String.eqb v) l).

Arguments Py.sort : simpl never.
Arguments own_count : simpl never.

From Stdlib Require Import Permutation.
From Stdlib Require DecimalPos DecimalZ.

(* ================================================================== *)
(** ** Several nodes of [combined_assignments.py] and the calls between them

    Each node runs the thread of [request_cs], the thread of a
    [_broadcast], and its RPC server.  A call made by a broadcast is served
    by the callee at some later moment, and its answer reaches the caller
    at some later moment again; the caller records the reply then.  With
    more than two nodes a broadcast makes its calls one after the other;
    here they are all pending at once. *)

Module CombinedSystem.

Record Sys : Type := mkSys {
  procs : list CombinedLamport.Proc;
  calls : list (Z * Z * MutexMsg);   (* caller, callee, message: made, not served *)
  answers : list (Z * Z)             (* caller, callee: served, answer on its way *)
}.

(** [run_lamport_node] for every id below [total]. *)
Definition start (total : Z) : Sys :=
  mkSys (map (fun i => CombinedLamport.start i total) (Py.range total)) [] [].

(** What the thread of [request_cs] of a node does by itself. *)
Inductive Local : Type := Request | PollOnce | Leave.

Definition local_event (l : Local) : CombinedLamport.Event :=
  match l with
  | Request => CombinedLamport.CallRequestCS
  | PollOnce => CombinedLamport.Poll
  | Leave => CombinedLamport.WorkDone
  end.

(** The handler a message is addressed to. *)
Definition handler_event (msg : MutexMsg) : CombinedLamport.Event :=
  match msg with
  | MsgRequest ts s => CombinedLamport.RecvRequest ts s
  | MsgRelease s => CombinedLamport.RecvRelease s
  | MsgReleaseAt _ s => CombinedLamport.RecvRelease s
  end.

Definition is_request (msg : MutexMsg) : bool :=
  match msg with
  | MsgRequest _ _ => true
  | _ => false
  end.

Inductive Action : Type :=
| Do (i : Z) (l : Local)     (* node [i] takes a step of its own thread *)
| Serve (k : nat)            (* the [k]-th pending call is handled *)
| Answer (k : nat).          (* the [k]-th pending answer is recorded *)

Fixpoint set_nth {A : Type} (l : list A) (i : nat) (g : A -> A) : list A :=
  match l, i with
  | [], _ => []
  | x :: t, O => g x :: t
  | x :: t, S j => x :: set_nth t j g
  end.

Fixpoint drop_nth {A : Type} (l : list A) (i : nat) : list A :=
  match l, i with
  | [], _ => []
  | _ :: t, O => t
  | x :: t, S j => x :: drop_nth t j
  end.

Definition at_node (s : Sys) (i : Z) (e : CombinedLamport.Event) : list CombinedLamport.Proc :=
  set_nth (procs s) (Z.to_nat i) (fun p => fst (CombinedLamport.step p e)).

Definition step (s : Sys) (a : Action) : Sys :=
  match a with
  | Do i l =>
      match nth_error (procs s) (Z.to_nat i) with
      | Some p =>
          let out := snd (CombinedLamport.step p (local_event l)) in
          mkSys (at_node s i (local_event l))
                (calls s ++ map (fun c => (i, fst c, snd c)) out)
                (answers s)
      | None => s
      end
  | Serve k =>
      match nth_error (calls s) k with
      | Some (caller, callee, msg) =>
          mkSys (at_node s callee (handler_event msg))
                (drop_nth (calls s) k)
                (if is_request msg then answers s ++ [(caller, callee)] else answers s)
      | None => s
      end
  | Answer k =>
      match nth_error (answers s) k with
      | Some (caller, callee) =>
          mkSys (at_node s caller (CombinedLamport.ReplyArrived callee))
                (calls s)
                (drop_nth (answers s) k)
      | None => s
      end
  end.

Definition run (s : Sys) (sched : list Action) : Sys := fold_left step sched s.

Definition states (s : Sys) : list NodeState :=
  map (fun p => CombinedLamport.state (CombinedLamport.node p)) (procs s).

(** The number of nodes that are in the critical section. *)
Definition held (s : Sys) : Z :=
  Py.len (filter (fun st => NodeState_eqb st HELD) (states s)).

End CombinedSystem.

(* ================================================================== *)
(** ** Further notions used in the statements *)

(** The successor of a state on the cycle RELEASED, WANTED, HELD. *)
Definition next_state (s : NodeState) : NodeState :=
  match s with
  | RELEASED => WANTED
  | WANTED => HELD
  | HELD => RELEASED
  end.

(** An event other than the arrival of the release of node [s]. *)
Definition not_release_of (s : Z) (e : CombinedLamport.Event) : bool :=
  match e with
  | CombinedLamport.RecvRelease s' => negb (s' =? s)
  | _ => true
  end.

(** What a node of [combined_assignments.py] keeps while the request
    [(t, s)] of a peer is queued ahead of every request of its own: it is
    not in the critical section and its thread is not inside [enter_cs]. *)
Definition waits_behind (self t s : Z) (p : CombinedLamport.Proc) : Prop :=
  CombinedLamport.id (CombinedLamport.node p) = self /\
  In (t, s) (CombinedLamport.request_queue (CombinedLamport.node p)) /\
  sortedb (CombinedLamport.request_queue (CombinedLamport.node p)) = true /\
  t <= CombinedLamport.clock (CombinedLamport.node p) /\
  (forall o, In o (CombinedLamport.request_queue (CombinedLamport.node p)) ->
             snd o = self -> t < fst o) /\
  CombinedLamport.state (CombinedLamport.node p) <> HELD /\
  CombinedLamport.pc p <> CombinedLamport.Working.

(** The replies recorded by a node come from its peers, each once. *)
Definition replies_ok (self total : Z) (replies : list Z) : Prop :=
  NoDup replies /\
  forall i, In i replies -> 0 <= i < total /\ i <> self.

(** Where the thread of [request_cs] stands fixes the state of the node. *)
Definition combined_control (p : CombinedLamport.Proc) : Prop :=
  match CombinedLamport.pc p with
  | CombinedLamport.Idle => True
  | CombinedLamport.Polling _ => CombinedLamport.state (CombinedLamport.node p) = WANTED
  | CombinedLamport.Working => CombinedLamport.state (CombinedLamport.node p) = HELD
  end.

(** In [lamport_node.py] the thread is inside the critical section only
    while the node is HELD. *)
Definition lamport_node_control (p : LamportNodePy.Proc) : Prop :=
  LamportNodePy.pc p = LamportNodePy.Working ->
  LamportNodePy.state (LamportNodePy.node p) = HELD.

(** The count a counter holds for [v]. *)
Definition count_in (c : list (string * Z)) (v : string) : Z :=
  match Py.get String.eqb c v with
  | Some k => k
  | None => 0
  end.

(** The calls of [receive_message] a node of [combined_assignments.py]
    serves, one after the other: each a path and an order. *)
Definition combined_deliveries (n : CombinedByzantine.ByzantineNode)
  (ds : list (list Z * string)) : CombinedByzantine.ByzantineNode :=
  fold_left (fun n d => fst (CombinedByzantine.receive_message n (fst d) (snd d))) ds n.

(** The calls of [receive_order] a lieutenant of [byzantine_node.py]
    serves: each a commander id, an order and a path. *)
Definition byzantine_node_deliveries (n : ByzantineNodePy.Lieutenant)
  (ds : list (Z * string * list Z)) : ByzantineNodePy.Lieutenant :=
  fold_left (fun n d => fst (fst (ByzantineNodePy.receive_order
                                    n (fst (fst d)) (snd (fst d)) (snd d)))) ds n.

(** The calls of [receive_message] a lieutenant of [code/lieutenant.py]
    serves: each a value and a path. *)
Definition lieutenant_deliveries (n : LieutenantPy.Lieutenant)
  (ds : list (string * list Z)) : LieutenantPy.Lieutenant :=
  fold_left (fun n d => fst (fst (LieutenantPy.receive_message n (fst d) (snd d)))) ds n.

(** Every list of a store holds a value. *)
Definition lists_nonempty {K : Type} (d : list (K * list string)) : Prop :=
  Forall (fun kv => snd kv <> []) d.

(** The nodes of a simulation of [total] nodes with [m] traitors: node [i]
    at index [i], knowing [total], with its traitor flag, its stored lists
    all non-empty. *)
Definition sim_nodes_ok (total m : Z) (ns : list CombinedByzantine.ByzantineNode) : Prop :=
  map (fun n => (CombinedByzantine.id n, CombinedByzantine.total_nodes n,
                 CombinedByzantine.is_traitor n)) ns
  = map (fun i => (i, total, Py.mem i (CombinedByzantine.traitor_ids total m)))
        (Py.range total) /\
  Forall (fun n => lists_nonempty (CombinedByzantine.messages n)) ns.

(** A path of the simulation: not empty, over ids below [total]. *)
Definition sim_path_ok (total : Z) (path : list Z) : Prop :=
  path <> [] /\ forall x, In x path -> 0 <= x < total.

(** The invariant of the two loops of [run_byzantine_simulation]. *)
Definition sim_state_ok (total m : Z) (st : CombinedByzantine.Net * list (list Z)) : Prop :=
  sim_nodes_ok total m (CombinedByzantine.nodes (fst st)) /\
  Forall (sim_path_ok total) (snd st).

(** The dict comprehension [{e['id']: ... for e in cfg}] of the two
    constructors that read a configuration. *)
Definition table_of {V : Type} (cfg : list (Z * V)) : list (Z * V) :=
  fold_left (fun d e => Py.set Z.eqb d (fst e) (snd e)) cfg [].

(** A string in which the character [>] does not occur. *)
Fixpoint no_gt (s : string) : bool :=
  match s with
  | EmptyString => true
  | String c t => negb (Ascii.eqb c ">") && no_gt t
  end.

(** The value the lieutenant [k] of the simulation hands to node [j] when
    it relays [v]: inverted when [k] is a traitor and [j] is even. *)
Definition relayed_by (total m k j : Z) (v : string) : string :=
  if Py.mem k (CombinedByzantine.traitor_ids total m) && (j mod 2 =? 0)
  then CombinedByzantine.flip v else v.

(** The orders in play when the commander orders [o]: [o] itself and the
    two values a traitor substitutes. *)
Definition in_play (o v : string) : Prop := v = o \/ v = ATTACK \/ v = RETREAT.

(** A call that arrives hands over the orders in play unchanged. *)
Definition carries_unchanged (link : CombinedByzantine.Link) (o : string) : Prop :=
  forall k s d v v', in_play o v -> link k s d v = Some v' -> v' = v.

(** No call fails, and each hands over the orders in play unchanged. *)
Definition always_arrives (link : CombinedByzantine.Link) (o : string) : Prop :=
  forall k s d v, in_play o v -> link k s d v = Some v.

(** Every value in the store of the node is an order in play. *)
Definition stores_within (o : string) (n : CombinedByzantine.ByzantineNode) : Prop :=
  Forall (fun kv => Forall (in_play o) (snd kv)) (CombinedByzantine.messages n).

(** What the simulation only ever stores at a node for the commander
    order [o]: [o] itself under the commander's key, and under the key of
    the path through lieutenant [k] the value [k] hands to that node. *)
Definition stores_only (total m : Z) (o : string) (n : CombinedByzantine.ByzantineNode)
  : Prop :=
  (forall l, Py.get String.eqb (CombinedByzantine.messages n)
                    (CombinedByzantine.path_str [0]) = Some l ->
             Forall (eq o) l) /\
  (forall k l, k <> 0 ->
               Py.get String.eqb (CombinedByzantine.messages n)
                      (CombinedByzantine.path_str [0; k]) = Some l ->
               Forall (eq (relayed_by total m k (CombinedByzantine.id n) o)) l).

(** Node [j] holds a list under [key]. *)
Definition has_key (ns : list CombinedByzantine.ByzantineNode) (j : Z) (key : string)
  : Prop :=
  exists n, nth_error ns (Z.to_nat j) = Some n /\
            Py.get String.eqb (CombinedByzantine.messages n) key <> None.

(** The calls of [execute_om] for [path] have reached every node that is
    not on the path. *)
Definition delivered (total : Z) (ns : list CombinedByzantine.ByzantineNode)
  (path : list Z) : Prop :=
  forall lt_id, 0 <= lt_id < total -> ~ In lt_id path ->
                has_key ns lt_id (CombinedByzantine.path_str path).

(** From one state of the simulation loop to a later one: no key is lost
    at any node and no path leaves the history. *)
Definition sim_grows (a a' : CombinedByzantine.Net * list (list Z)) : Prop :=
  (forall j key, has_key (CombinedByzantine.nodes (fst a)) j key ->
                 has_key (CombinedByzantine.nodes (fst a')) j key) /\
  incl (snd a) (snd a').

(** The loop invariant when no call is lost: the stores hold only orders
    in play and only what they should, and once a longer path is in the
    history the commander's order has reached every lieutenant. *)
Definition sim_valid_ok (total m : Z) (o : string)
  (st : CombinedByzantine.Net * list (list Z)) : Prop :=
  sim_state_ok total m st /\
  Forall (stores_within o) (CombinedByzantine.nodes (fst st)) /\
  Forall (stores_only total m o) (CombinedByzantine.nodes (fst st)) /\
  ((exists p, In p (snd st) /\ p <> [0]) ->
   delivered total (CombinedByzantine.nodes (fst st)) [0]).

(** What visiting [path] in round [i] leaves behind when no call is lost. *)
Definition visited (total m i : Z) (path : list Z)
  (st : CombinedByzantine.Net * list (list Z)) : Prop :=
  delivered total (CombinedByzantine.nodes (fst st)) path /\
  (0 < m - i -> forall lt_id, 0 <= lt_id < total -> ~ In lt_id path ->
                              In (path ++ [lt_id]) (snd st)).

(** A path of the history: over ids below [total], from the commander,
    without a repeated node, of at most [bound] nodes. *)
Definition sim_path_fresh (total bound : Z) (p : list Z) : Prop :=
  sim_path_ok total p /\ hd_error p = Some 0 /\ NoDup p /\ Py.len p <= bound.

(** An attempted call of the simulation: its path leads from the commander
    to the sender without a repeated node, is no longer than [m + 1], and
    the destination is a node that is not on it. *)
Definition call_ok (total m : Z) (c : CombinedByzantine.Call) : Prop :=
  let '(sender, lt_id, path, _) := c in
  hd_error path = Some 0 /\ NoDup path /\
  CombinedByzantine.last_of path = Some sender /\ Py.len path <= m + 1 /\
  ~ In lt_id path /\ 0 <= lt_id < total.

(** Only the first attempted call fails: the call of the commander to
    node 1 is lost in round 0 and arrives when it is repeated in round 1. *)
Definition first_call_lost : CombinedByzantine.Link :=
  fun k _ _ order => if Nat.eqb k 0 then None else Some order.

(* ================================================================== *)
(** * Properties *)

(** ** The order on requests and [list.sort()] *)

Section TupleOrder.

Lemma tuple_ltb_spec (a b : Z * Z) :
  Py.tuple_ltb a b = true <->
  fst a < fst b \/ (fst a = fst b /\ snd a < snd b).
Proof.
  unfold Py.tuple_ltb.
  rewrite orb_true_iff, andb_true_iff, !Z.ltb_lt, Z.eqb_eq. tauto.
Qed.

Lemma tuple_le_spec (a b : Z * Z) :
  tuple_le a b <-> fst a < fst b \/ (fst a = fst b /\ snd a <= snd b).
Proof.
  unfold tuple_le. rewrite <- not_true_iff_false, tuple_ltb_spec. lia.
Qed.

Lemma tuple_le_trans (a b c : Z * Z) : tuple_le a b -> tuple_le b c -> tuple_le a c.
Proof. rewrite !tuple_le_spec. lia. Qed.

Lemma tuple_ltb_le (a b : Z * Z) : Py.tuple_ltb a b = true -> tuple_le a b.
Proof. rewrite tuple_ltb_spec, tuple_le_spec. lia. Qed.

Lemma sortedb_cons (a : Z * Z) (q : list (Z * Z)) :
  sortedb (a :: q) = true <->
  sortedb q = true /\ match q with [] => True | b :: _ => tuple_le a b end.
Proof.
  destruct q as [|b q]; cbn [sortedb].
  - tauto.
  - rewrite andb_true_iff, negb_true_iff. unfold tuple_le. tauto.
Qed.

Lemma sortedb_tail (a : Z * Z) (q : list (Z * Z)) :
  sortedb (a :: q) = true -> sortedb q = true.
Proof. intros H. apply sortedb_cons in H. tauto. Qed.

Lemma sortedb_all_ge (a : Z * Z) (q : list (Z * Z)) :
  sortedb (a :: q) = true -> Forall (tuple_le a) q.
Proof.
  revert a. induction q as [|b q IH]; intros a H; constructor.
  - apply sortedb_cons in H. tauto.
  - apply sortedb_cons in H. destruct H as [Hq Hab].
    specialize (IH b Hq).
    eapply Forall_impl; [|exact IH].
    intros c Hbc. eapply tuple_le_trans; eauto.
Qed.

Lemma insert_sorted (x : Z * Z) (q : list (Z * Z)) :
  sortedb q = true -> sortedb (Py.insert Py.tuple_ltb x q) = true.
Proof.
  induction q as [|y q IH]; intros Hq; cbn [Py.insert].
  - reflexivity.
  - destruct (Py.tuple_ltb x y) eqn:Hxy.
    + apply sortedb_cons. split; [exact Hq | now apply tuple_ltb_le].
    + apply sortedb_cons in Hq. destruct Hq as [Hq Hhd].
      apply sortedb_cons. split; [now apply IH|].
      destruct q as [|z q]; cbn [Py.insert].
      * exact Hxy.
      * destruct (Py.tuple_ltb x z); [exact Hxy | exact Hhd].
Qed.

Lemma fold_insert_sorted (l acc : list (Z * Z)) :
  sortedb acc = true ->
  sortedb (fold_left (fun a x => Py.insert Py.tuple_ltb x a) l acc) = true.
Proof.
  revert acc. induction l as [|x l IH]; intros acc Hacc; cbn [fold_left].
  - exact Hacc.
  - apply IH, insert_sorted, Hacc.
Qed.

(** [l.sort()] leaves any list sorted. *)
Lemma sort_sorted (l : list (Z * Z)) : sortedb (Py.sort Py.tuple_ltb l) = true.
Proof. unfold Py.sort. now apply fold_insert_sorted. Qed.

(** A list comprehension with a condition keeps a sorted list sorted. *)
Lemma filter_sorted (keep : Z * Z -> bool) (q : list (Z * Z)) :
  sortedb q = true -> sortedb (filter keep q) = true.
Proof.
  induction q as [|a q IH]; intros Hq; cbn [filter].
  - reflexivity.
  - pose proof (sortedb_all_ge _ _ Hq) as Hge.
    pose proof (IH (sortedb_tail _ _ Hq)) as Hf.
    destruct (keep a); [|exact Hf].
    apply sortedb_cons. split; [exact Hf|].
    destruct (filter keep q) as [|b r] eqn:E; [exact I|].
    assert (Hin : In b (filter keep q)) by (rewrite E; now left).
    apply filter_In in Hin. destruct Hin as [Hin _].
    rewrite Forall_forall in Hge. now apply Hge.
Qed.

(** [sortedb] is the library's [StronglySorted] for the order on requests. *)
Lemma sortedb_StronglySorted (q : list (Z * Z)) :
  sortedb q = true <-> StronglySorted tuple_le q.
Proof.
  split.
  - induction q as [|a q IH]; intros H; constructor.
    + apply IH. now apply sortedb_tail in H.
    + now apply sortedb_all_ge.
  - induction 1 as [|a q Hq IH Hall]; [reflexivity|].
    apply sortedb_cons. split; [exact IH|].
    destruct q as [|b q]; [exact I|]. now inversion Hall.
Qed.

End TupleOrder.

(** ** Sortedness of the request queue along every run *)

Arguments Py.sort : simpl never.

Lemma combined_step_sorted (p : CombinedLamport.Proc) (e : CombinedLamport.Event) :
  sortedb (CombinedLamport.request_queue (CombinedLamport.node p)) = true ->
  sortedb (CombinedLamport.request_queue
             (CombinedLamport.node (fst (CombinedLamport.step p e)))) = true.
Proof.
  intros H. destruct p as [n c].
  destruct e; cbn [CombinedLamport.step CombinedLamport.node CombinedLamport.pc] in *.
  - unfold CombinedLamport.request_cs_prologue.
    destruct (negb (NodeState_eqb (CombinedLamport.state n) RELEASED)); cbn.
    + exact H.
    + apply sort_sorted.
  - destruct c; cbn; auto.
    destruct (CombinedLamport.may_enter n); cbn; auto.
  - destruct c; cbn; auto using filter_sorted.
  - cbn. apply sort_sorted.
  - cbn. now apply filter_sorted.
  - destruct (_ && _); cbn; auto.
Qed.

Lemma combined_run_sorted (es : list CombinedLamport.Event) (p : CombinedLamport.Proc) :
  sortedb (CombinedLamport.request_queue (CombinedLamport.node p)) = true ->
  sortedb (CombinedLamport.request_queue
             (CombinedLamport.node (CombinedLamport.run p es))) = true.
Proof.
  revert p. induction es as [|e es IH]; intros p H; cbn.
  - exact H.
  - apply IH, combined_step_sorted, H.
Qed.

Lemma lamport_node_step_sorted (p : LamportNodePy.Proc) (e : LamportNodePy.Event) :
  sortedb (LamportNodePy.request_queue (LamportNodePy.node p)) = true ->
  sortedb (LamportNodePy.request_queue
             (LamportNodePy.node (fst (LamportNodePy.step p e)))) = true.
Proof.
  intros H. destruct p as [n c].
  destruct e; cbn [LamportNodePy.step LamportNodePy.node LamportNodePy.pc] in *.
  - destruct c; cbn; auto.
    destruct (_ && _); cbn; auto using sort_sorted.
  - destruct c; cbn; auto.
    destruct (_ && _); cbn; auto.
  - destruct c; cbn; auto using filter_sorted.
  - cbn. apply sort_sorted.
  - cbn. now apply filter_sorted.
  - destruct (Py.mem _ _); cbn; auto.
Qed.

Lemma lamport_node_run_sorted (es : list LamportNodePy.Event) (p : LamportNodePy.Proc) :
  sortedb (LamportNodePy.request_queue (LamportNodePy.node p)) = true ->
  sortedb (LamportNodePy.request_queue
             (LamportNodePy.node (LamportNodePy.run p es))) = true.
Proof.
  revert p. induction es as [|e es IH]; intros p H; cbn.
  - exact H.
  - apply IH, lamport_node_step_sorted, H.
Qed.

Lemma node_broadcast_request_queue (n : NodePy.LamportNode) (ts : Z) (up : Z -> bool) :
  NodePy.request_queue (fst (fst (NodePy.broadcast_request n ts up))) =
  NodePy.request_queue n.
Proof.
  unfold NodePy.broadcast_request. cbn [fst].
  set (g := fun m nid => if up nid then _ else m).
  assert (G : forall l m, NodePy.request_queue (fold_left g l m) = NodePy.request_queue m).
  { induction l as [|x l IH]; intros m; cbn [fold_left]; [reflexivity|].
    rewrite IH. unfold g. destruct (up x); reflexivity. }
  now rewrite G.
Qed.

Lemma node_step_sorted (p : NodePy.Proc) (e : NodePy.Event) :
  sortedb (NodePy.request_queue (NodePy.node p)) = true ->
  sortedb (NodePy.request_queue (NodePy.node (fst (NodePy.step p e)))) = true.
Proof.
  intros H. destruct p as [n c].
  destruct e; cbn [NodePy.step NodePy.node NodePy.pc] in *.
  - destruct c; cbn [fst NodePy.node]; auto.
    unfold NodePy.request_prologue.
    match goal with
    | |- context [NodePy.broadcast_request ?a ?b ?c] =>
        pose proof (node_broadcast_request_queue a b c) as E;
        destruct (NodePy.broadcast_request a b c) as [[n4 ok] out]
    end.
    cbn [fst NodePy.node] in *. rewrite E. cbn. apply sort_sorted.
  - destruct c; cbn; auto.
    destruct (NodePy.at_head n ts); cbn; auto.
  - destruct c; cbn; auto using filter_sorted.
  - cbn. apply sort_sorted.
  - cbn. now apply filter_sorted.
Qed.

Lemma node_run_sorted (es : list NodePy.Event) (p : NodePy.Proc) :
  sortedb (NodePy.request_queue (NodePy.node p)) = true ->
  sortedb (NodePy.request_queue (NodePy.node (NodePy.run p es))) = true.
Proof.
  revert p. induction es as [|e es IH]; intros p H; cbn.
  - exact H.
  - apply IH, node_step_sorted, H.
Qed.

(** [NodePy.init] yields the node with clock 0 and an empty queue. *)
Lemma node_init_fresh (nid : Z) (cfg : list (Z * (string * Z))) (n : NodePy.LamportNode) :
  NodePy.init nid cfg = Some n ->
  n = NodePy.mkNode nid (NodePy.nodes n) 0 [] 0.
Proof.
  unfold NodePy.init. destruct (Py.contains _ _ _); [|discriminate].
  intros E. injection E as <-. reflexivity.
Qed.

(** C6: along any sequence of the mutex operations (the local request and
    release, the handlers for a peer's request and release, and the polling
    and reply events between them), started from a freshly constructed node,
    the request queue is sorted by (timestamp, node id) after every step, in
    each of the three implementations. *)
Theorem C6_request_queue_always_sorted :
  (forall (nid total : Z) (es : list CombinedLamport.Event),
      sortedb (CombinedLamport.request_queue
                 (CombinedLamport.node
                    (CombinedLamport.run (CombinedLamport.start nid total) es))) = true)
  /\
  (forall (nid total : Z) (es : list LamportNodePy.Event),
      sortedb (LamportNodePy.request_queue
                 (LamportNodePy.node
                    (LamportNodePy.run (LamportNodePy.start nid total) es))) = true)
  /\
  (forall (nid : Z) (table : list (Z * (string * Z))) (es : list NodePy.Event),
      sortedb (NodePy.request_queue
                 (NodePy.node
                    (NodePy.run (NodePy.start (NodePy.mkNode nid table 0 [] 0)) es)))
      = true).
Proof.
  split; [|split].
  - intros. now apply combined_run_sorted.
  - intros. now apply lamport_node_run_sorted.
  - intros. now apply node_run_sorted.
Qed.

(** ** Entries of a queue that carry a given node id *)

Lemma own_count_insert (self : Z) (x : Z * Z) (q : list (Z * Z)) :
  own_count (Py.insert Py.tuple_ltb x q) self = own_count (x :: q) self.
Proof.
  unfold own_count. induction q as [|y q IH]; cbn [Py.insert]; [reflexivity|].
  destruct (Py.tuple_ltb x y); [reflexivity|].
  cbn [filter] in *. destruct (snd y =? self), (snd x =? self);
    cbn [List.length] in *; lia.
Qed.

Lemma own_count_app (self : Z) (q r : list (Z * Z)) :
  own_count (q ++ r) self = (own_count q self + own_count r self)%nat.
Proof. unfold own_count. now rewrite filter_app, length_app. Qed.

Lemma own_count_sort (self : Z) (q : list (Z * Z)) :
  own_count (Py.sort Py.tuple_ltb q) self = own_count q self.
Proof.
  unfold Py.sort.
  assert (G : forall l acc,
             own_count (fold_left (fun a x => Py.insert Py.tuple_ltb x a) l acc) self
             = (own_count acc self + own_count l self)%nat).
  { induction l as [|x l IH]; intros acc; cbn [fold_left].
    - unfold own_count at 3. cbn. lia.
    - rewrite IH, own_count_insert.
      change (x :: acc) with ([x] ++ acc). change (x :: l) with ([x] ++ l).
      rewrite !own_count_app. lia. }
  rewrite G. reflexivity.
Qed.

Lemma own_count_remove_self (self : Z) (q : list (Z * Z)) :
  own_count (filter (fun r => negb (snd r =? self)) q) self = 0%nat.
Proof.
  unfold own_count. induction q as [|y q IH]; cbn [filter]; [reflexivity|].
  destruct (snd y =? self) eqn:E; cbn [negb filter]; [exact IH|].
  rewrite E. exact IH.
Qed.

Lemma own_count_filter_le (self : Z) (keep : Z * Z -> bool) (q : list (Z * Z)) :
  (own_count (filter keep q) self <= own_count q self)%nat.
Proof.
  unfold own_count. induction q as [|y q IH]; cbn [filter]; [lia|].
  destruct (keep y); cbn [filter]; destruct (snd y =? self); cbn [List.length]; lia.
Qed.

Lemma own_count_other (self ts s : Z) :
  (s =? self) = false -> own_count [(ts, s)] self = 0%nat.
Proof. intros E. unfold own_count. cbn. now rewrite E. Qed.

Lemma own_count_self (self ts : Z) : own_count [(ts, self)] self = 1%nat.
Proof. unfold own_count. cbn. now rewrite Z.eqb_refl. Qed.

(** When at most one entry carries [self] and the head does, no later entry
    does: the head is the node's one request. *)
Lemma own_head_unique (self : Z) (head : Z * Z) (rest : list (Z * Z)) :
  (own_count (head :: rest) self <= 1)%nat ->
  (snd head =? self) = true ->
  forall r, In r rest -> snd r <> self.
Proof.
  unfold own_count. cbn [filter]. intros Hc Hh. rewrite Hh in Hc. cbn in Hc.
  intros r Hin Hr.
  assert (Hf : In r (filter (fun r => snd r =? self) rest)).
  { apply filter_In. split; [exact Hin|]. now apply Z.eqb_eq. }
  destruct (filter (fun r => snd r =? self) rest); [contradiction|].
  cbn in Hc. lia.
Qed.


(** ** Entering the critical section *)

Arguments own_count : simpl never.

Lemma combined_inv_start (self total : Z) :
  combined_inv self total (CombinedLamport.start self total).
Proof.
  unfold combined_inv, own_count. cbn. repeat split; auto; discriminate.
Qed.

Lemma combined_inv_step (self total : Z) (p : CombinedLamport.Proc)
  (e : CombinedLamport.Event) :
  CombinedLamport.honest self e = true ->
  combined_inv self total p -> combined_inv self total (fst (CombinedLamport.step p e)).
Proof.
  intros He (Hid & Htot & Hpc & Hrel & Hle).
  destruct p as [[i t ck q r s] c]. cbn in Hid, Htot, Hpc, Hrel, Hle. subst i t.
  unfold combined_inv.
  destruct e; cbn [CombinedLamport.step CombinedLamport.node CombinedLamport.pc].
  - unfold CombinedLamport.request_cs_prologue. cbn.
    destruct s; cbn.
    + rewrite own_count_sort, own_count_app, own_count_self, (Hrel eq_refl).
      repeat split; auto; try discriminate; lia.
    + repeat split; auto.
    + repeat split; auto.
  - destruct c; cbn; auto.
    destruct (CombinedLamport.may_enter _); cbn; repeat split; auto; discriminate.
  - destruct c; cbn; auto.
    rewrite own_count_remove_self. repeat split; auto; discriminate.
  - cbn in He. apply negb_true_iff in He.
    cbn. rewrite own_count_sort, own_count_app, (own_count_other _ _ _ He), Nat.add_0_r.
    destruct (negb (timestamp =? 0)); cbn; repeat split; auto.
  - cbn. pose proof (own_count_filter_le self (fun req => negb (snd req =? sender_id)) q).
    repeat split; auto; try lia. intros E. specialize (Hrel E). lia.
  - destruct (_ && _); cbn; repeat split; auto.
Qed.

Lemma combined_inv_run (self total : Z) (es : list CombinedLamport.Event)
  (p : CombinedLamport.Proc) :
  forallb (CombinedLamport.honest self) es = true ->
  combined_inv self total p -> combined_inv self total (CombinedLamport.run p es).
Proof.
  revert p. induction es as [|e es IH]; intros p Hes Hp; cbn in *; [exact Hp|].
  apply andb_true_iff in Hes. destruct Hes as [He Hes].
  apply IH; [exact Hes|]. now apply combined_inv_step.
Qed.

(** The only step of [combined_assignments.py] that reaches [HELD]. *)
Lemma combined_enter (self total : Z) (p : CombinedLamport.Proc)
  (e : CombinedLamport.Event) :
  combined_inv self total p ->
  CombinedLamport.state (CombinedLamport.node p) <> HELD ->
  CombinedLamport.state (CombinedLamport.node (fst (CombinedLamport.step p e))) = HELD ->
  CombinedLamport.state (CombinedLamport.node p) = WANTED /\
  Py.len (CombinedLamport.replies_received (CombinedLamport.node p)) = total - 1 /\
  exists ts rest,
    CombinedLamport.request_queue (CombinedLamport.node p) = (ts, self) :: rest /\
    forall r, In r rest -> snd r <> self.
Proof.
  intros (Hid & Htot & Hpc & Hrel & Hle) Hnot Hheld.
  destruct p as [[i t ck q r s] c]. cbn in Hid, Htot, Hpc, Hrel, Hle, Hnot. subst i t.
  destruct e; cbn [CombinedLamport.step CombinedLamport.node CombinedLamport.pc] in Hheld.
  - unfold CombinedLamport.request_cs_prologue in Hheld. cbn in Hheld.
    destruct s; cbn in Hheld; congruence.
  - destruct c; cbn in Hheld; try contradiction.
    destruct (CombinedLamport.may_enter _) eqn:E; cbn in Hheld; try contradiction.
    unfold CombinedLamport.may_enter in E. cbn in E.
    apply andb_true_iff in E. destruct E as [Hacks Hhead].
    split; [now apply (Hpc request_timestamp)|]. cbn.
    split; [now apply Z.eqb_eq|].
    destruct q as [|[ts s'] rest]; [discriminate|].
    cbn in Hhead. pose proof Hhead as Hs. apply Z.eqb_eq in Hs. subst s'.
    exists ts, rest. split; [reflexivity|].
    now apply (own_head_unique self (ts, self) rest).
  - destruct c; cbn in Hheld; try contradiction. discriminate.
  - cbn in Hheld. destruct (negb (timestamp =? 0)); cbn in Hheld; contradiction.
  - cbn in Hheld. contradiction.
  - destruct (_ && _); cbn in Hheld; contradiction.
Qed.

Lemma lamport_node_inv_start (self total : Z) :
  lamport_node_inv self total (LamportNodePy.start self total).
Proof.
  unfold lamport_node_inv, own_count. cbn. repeat split; auto.
Qed.

Lemma lamport_node_inv_step (self total : Z) (p : LamportNodePy.Proc)
  (e : LamportNodePy.Event) :
  LamportNodePy.honest self e = true ->
  lamport_node_inv self total p ->
  lamport_node_inv self total (fst (LamportNodePy.step p e)).
Proof.
  intros He (Hid & Htot & Hrel & Hle).
  destruct p as [[i t ck q r s] c]. cbn in Hid, Htot, Hrel, Hle. subst i t.
  unfold lamport_node_inv.
  destruct e; cbn [LamportNodePy.step LamportNodePy.node LamportNodePy.pc].
  - destruct c; cbn; auto.
    destruct s, coin; cbn; auto.
    rewrite own_count_sort, own_count_app, own_count_self, (Hrel eq_refl).
    repeat split; auto; try discriminate; lia.
  - destruct c; cbn; auto.
    destruct (_ && _); cbn; repeat split; auto; discriminate.
  - destruct c; cbn; auto.
    rewrite own_count_remove_self. repeat split; auto.
  - cbn in He. apply negb_true_iff in He.
    cbn. rewrite own_count_sort, own_count_app, (own_count_other _ _ _ He), Nat.add_0_r.
    repeat split; auto.
  - cbn. pose proof (own_count_filter_le self (fun req => negb (snd req =? releaser_id)) q).
    repeat split; auto; try lia. intros E. specialize (Hrel E). lia.
  - destruct (Py.mem _ _); cbn; repeat split; auto.
Qed.

Lemma lamport_node_inv_run (self total : Z) (es : list LamportNodePy.Event)
  (p : LamportNodePy.Proc) :
  forallb (LamportNodePy.honest self) es = true ->
  lamport_node_inv self total p -> lamport_node_inv self total (LamportNodePy.run p es).
Proof.
  revert p. induction es as [|e es IH]; intros p Hes Hp; cbn in *; [exact Hp|].
  apply andb_true_iff in Hes. destruct Hes as [He Hes].
  apply IH; [exact Hes|]. now apply lamport_node_inv_step.
Qed.

(** The only step of [lamport_node.py] that reaches [HELD]. *)
Lemma lamport_node_enter (self total : Z) (p : LamportNodePy.Proc)
  (e : LamportNodePy.Event) :
  lamport_node_inv self total p ->
  LamportNodePy.state (LamportNodePy.node p) <> HELD ->
  LamportNodePy.state (LamportNodePy.node (fst (LamportNodePy.step p e))) = HELD ->
  LamportNodePy.state (LamportNodePy.node p) = WANTED /\
  Py.len (LamportNodePy.replies_received (LamportNodePy.node p)) = total - 1 /\
  exists ts rest,
    LamportNodePy.request_queue (LamportNodePy.node p) = (ts, self) :: rest /\
    forall r, In r rest -> snd r <> self.
Proof.
  intros (Hid & Htot & Hrel & Hle) Hnot Hheld.
  destruct p as [[i t ck q r s] c]. cbn in Hid, Htot, Hrel, Hle, Hnot. subst i t.
  destruct e; cbn [LamportNodePy.step LamportNodePy.node LamportNodePy.pc] in Hheld.
  - destruct c; cbn in Hheld; try contradiction.
    destruct s, coin; cbn in Hheld; congruence.
  - destruct c; cbn in Hheld; try contradiction.
    destruct (NodeState_eqb s WANTED) eqn:Es; cbn in Hheld; try contradiction.
    destruct (LamportNodePy.may_enter _) eqn:E; cbn in Hheld; try contradiction.
    unfold LamportNodePy.may_enter in E. cbn in E.
    apply andb_true_iff in E. destruct E as [Hacks Hhead].
    cbn. split; [destruct s; cbn in Es; congruence|].
    split; [now apply Z.eqb_eq|].
    destruct q as [|[ts s'] rest]; [discriminate|].
    cbn in Hhead. pose proof Hhead as Hs. apply Z.eqb_eq in Hs. subst s'.
    exists ts, rest. split; [reflexivity|].
    now apply (own_head_unique self (ts, self) rest).
  - destruct c; cbn in Hheld; try contradiction. discriminate.
  - cbn in Hheld. contradiction.
  - cbn in Hheld. contradiction.
  - destruct (Py.mem _ _); cbn in Hheld; contradiction.
Qed.

Lemma tuple_eqb_eq (a b : Z * Z) : Py.tuple_eqb a b = true -> a = b.
Proof.
  destruct a, b. unfold Py.tuple_eqb. cbn.
  rewrite andb_true_iff, !Z.eqb_eq. intros [-> ->]. reflexivity.
Qed.

(** The only step of [node.py] that enters the critical section is the
    test of the waiting loop, and it looks at the head of the queue only. *)
Lemma node_enter (p : NodePy.Proc) (e : NodePy.Event) :
  NodePy.in_critical_section p = false ->
  NodePy.in_critical_section (fst (NodePy.step p e)) = true ->
  exists ts ok rest,
    NodePy.pc p = NodePy.Waiting ts ok /\
    NodePy.request_queue (NodePy.node p) = (ts, NodePy.id (NodePy.node p)) :: rest.
Proof.
  destruct p as [n c]. unfold NodePy.in_critical_section.
  destruct e; cbn [NodePy.step NodePy.pc NodePy.node].
  - destruct c; cbn; congruence.
  - destruct c; cbn; try congruence.
    destruct (NodePy.at_head n ts) eqn:E; cbn; try congruence.
    intros _ _. unfold NodePy.at_head in E.
    destruct (NodePy.request_queue n) as [|head rest]; [discriminate|].
    apply tuple_eqb_eq in E. subst head. now exists ts, ok, rest.
  - destruct c; cbn; congruence.
  - cbn. destruct c; congruence.
  - cbn. destruct c; congruence.
Qed.

(** C3, as stated, fails for [node.py]: node 1 of two nodes, whose call to
    node 2 failed, has no acknowledgement (one is needed) and still enters
    the critical section at the next test of its waiting loop. *)
Lemma C3_node_py_enters_without_acks :
  ~ (NodePy.in_critical_section node1_alone = false ->
     NodePy.in_critical_section (fst (NodePy.step node1_alone NodePy.Poll)) = true ->
     NodePy.ack_count (NodePy.node node1_alone)
     = Py.len (NodePy.nodes (NodePy.node node1_alone)) - 1).
Proof.
  intros H. specialize (H eq_refl eq_refl). vm_compute in H. discriminate.
Qed.

(** C3 (amended): in [combined_assignments.py] and in [lamport_node.py],
    along any run in which the peers send requests under their own ids, a
    step takes the node into [HELD] only from a state where it is [WANTED],
    holds replies from all [total - 1] peers, and the head of its queue is
    its own request, the only entry with its id.  In [code/node.py] the
    entry into the critical section is taken by the waiting loop as soon as
    the head of the queue is the node's own request [(ts, id)]; the number
    of acknowledgements is not part of that test. *)
Theorem C3_held_only_when_wanted_acked_and_head :
  (forall (self total : Z) (es : list CombinedLamport.Event) (e : CombinedLamport.Event),
      forallb (CombinedLamport.honest self) es = true ->
      CombinedLamport.state
        (CombinedLamport.node
           (CombinedLamport.run (CombinedLamport.start self total) es)) <> HELD ->
      CombinedLamport.state
        (CombinedLamport.node
           (fst (CombinedLamport.step
                   (CombinedLamport.run (CombinedLamport.start self total) es) e)))
      = HELD ->
      let n := CombinedLamport.node
                 (CombinedLamport.run (CombinedLamport.start self total) es) in
      CombinedLamport.state n = WANTED /\
      Py.len (CombinedLamport.replies_received n) = total - 1 /\
      exists ts rest,
        CombinedLamport.request_queue n = (ts, self) :: rest /\
        forall r, In r rest -> snd r <> self)
  /\
  (forall (self total : Z) (es : list LamportNodePy.Event) (e : LamportNodePy.Event),
      forallb (LamportNodePy.honest self) es = true ->
      LamportNodePy.state
        (LamportNodePy.node
           (LamportNodePy.run (LamportNodePy.start self total) es)) <> HELD ->
      LamportNodePy.state
        (LamportNodePy.node
           (fst (LamportNodePy.step
                   (LamportNodePy.run (LamportNodePy.start self total) es) e)))
      = HELD ->
      let n := LamportNodePy.node
                 (LamportNodePy.run (LamportNodePy.start self total) es) in
      LamportNodePy.state n = WANTED /\
      Py.len (LamportNodePy.replies_received n) = total - 1 /\
      exists ts rest,
        LamportNodePy.request_queue n = (ts, self) :: rest /\
        forall r, In r rest -> snd r <> self)
  /\
  (forall (p : NodePy.Proc) (e : NodePy.Event),
      NodePy.in_critical_section p = false ->
      NodePy.in_critical_section (fst (NodePy.step p e)) = true ->
      exists ts ok rest,
        NodePy.pc p = NodePy.Waiting ts ok /\
        NodePy.request_queue (NodePy.node p) = (ts, NodePy.id (NodePy.node p)) :: rest).
Proof.
  split; [|split].
  - intros self total es e Hes Hnot Hheld n.
    eapply combined_enter; eauto.
    apply combined_inv_run; [exact Hes | apply combined_inv_start].
  - intros self total es e Hes Hnot Hheld n.
    eapply lamport_node_enter; eauto.
    apply lamport_node_inv_run; [exact Hes | apply lamport_node_inv_start].
  - exact node_enter.
Qed.

(** The theorem at work: node 0 of two nodes requests, the reply of node 1
    arrives, and the next test enters; node 1 of [two_nodes] enters alone. *)
Lemma C3_witness :
  (let n := CombinedLamport.node
              (CombinedLamport.run (CombinedLamport.start 0 2)
                 [CombinedLamport.CallRequestCS; CombinedLamport.ReplyArrived 1]) in
   CombinedLamport.state n = WANTED /\
   Py.len (CombinedLamport.replies_received n) = 2 - 1 /\
   exists ts rest,
     CombinedLamport.request_queue n = (ts, 0) :: rest /\
     forall r, In r rest -> snd r <> 0)
  /\
  (let n := LamportNodePy.node
              (LamportNodePy.run (LamportNodePy.start 0 2)
                 [LamportNodePy.MaybeRequest true; LamportNodePy.ReplyArrived 1]) in
   LamportNodePy.state n = WANTED /\
   Py.len (LamportNodePy.replies_received n) = 2 - 1 /\
   exists ts rest,
     LamportNodePy.request_queue n = (ts, 0) :: rest /\
     forall r, In r rest -> snd r <> 0)
  /\
  (exists ts ok rest,
      NodePy.pc node1_alone = NodePy.Waiting ts ok /\
      NodePy.request_queue (NodePy.node node1_alone)
      = (ts, NodePy.id (NodePy.node node1_alone)) :: rest).
Proof.
  split; [|split].
  - apply (proj1 C3_held_only_when_wanted_acked_and_head 0 2
             [CombinedLamport.CallRequestCS; CombinedLamport.ReplyArrived 1]
             CombinedLamport.Poll).
    + reflexivity.
    + vm_compute. discriminate.
    + vm_compute. reflexivity.
  - apply (proj1 (proj2 C3_held_only_when_wanted_acked_and_head) 0 2
             [LamportNodePy.MaybeRequest true; LamportNodePy.ReplyArrived 1]
             LamportNodePy.CheckEnter).
    + reflexivity.
    + vm_compute. discriminate.
    + vm_compute. reflexivity.
  - apply (proj2 (proj2 C3_held_only_when_wanted_acked_and_head) node1_alone NodePy.Poll).
    + reflexivity.
    + reflexivity.
Defined.

(** ** The clock after a request is received *)

(** C5, as stated, fails for [lamport_node.py]: a fresh node (clock 0) that
    receives a request stamped 5 ends the handler with clock 7, because the
    handler ticks once more for the reply it sends. *)
Lemma C5_lamport_node_py_ticks_twice :
  LamportNodePy.logical_clock
    (fst (LamportNodePy.receive_request (LamportNodePy.init 1 3) 5 2))
  <> Z.max (LamportNodePy.logical_clock (LamportNodePy.init 1 3)) 5 + 1.
Proof. vm_compute. discriminate. Qed.

(** C5 (amended): after [receive_request] with timestamp [t] on a node
    whose clock is [c], the clock is [max(c, t) + 1] in [code/node.py], and
    in [combined_assignments.py] as well whenever [c >= 0] (as every clock
    is) or [t <> 0]; in [lamport_node.py] the handler also ticks for its
    reply and the clock is [max(c, t) + 2]. *)
Theorem C5_clock_after_receive_request (t sender : Z) :
  (forall n : NodePy.LamportNode,
      NodePy.clock (fst (NodePy.receive_request n t sender))
      = Z.max (NodePy.clock n) t + 1)
  /\
  (forall n : CombinedLamport.LamportNode,
      0 <= CombinedLamport.clock n \/ t <> 0 ->
      CombinedLamport.clock (fst (CombinedLamport.receive_request n t sender))
      = Z.max (CombinedLamport.clock n) t + 1)
  /\
  (forall n : LamportNodePy.LamportNode,
      LamportNodePy.logical_clock (fst (LamportNodePy.receive_request n t sender))
      = Z.max (LamportNodePy.logical_clock n) t + 2).
Proof.
  split; [|split].
  - intros n. reflexivity.
  - intros n H. cbn. destruct (t =? 0) eqn:E; cbn.
    + apply Z.eqb_eq in E. lia.
    + reflexivity.
  - intros n. cbn. lia.
Qed.

Lemma C5_witness :
  CombinedLamport.clock
    (fst (CombinedLamport.receive_request (CombinedLamport.init 0 3) 5 2))
  = Z.max (CombinedLamport.clock (CombinedLamport.init 0 3)) 5 + 1.
Proof.
  apply (proj1 (proj2 (C5_clock_after_receive_request 5 2))).
  left. cbn. lia.
Defined.

(** ** [request_cs] outside [RELEASED] *)

(** C10: when the state of the node is not [RELEASED], [request_cs] of
    [combined_assignments.py] returns at its guard: the node (state, clock,
    queue, replies) and the control of its thread are exactly as before and
    no call is sent to any peer. *)
Theorem C10_request_cs_rejected_outside_released (p : CombinedLamport.Proc) :
  CombinedLamport.state (CombinedLamport.node p) <> RELEASED ->
  CombinedLamport.request_cs_prologue (CombinedLamport.node p)
  = (CombinedLamport.node p, None, []) /\
  CombinedLamport.step p CombinedLamport.CallRequestCS = (p, []).
Proof.
  intros H. destruct p as [n c].
  cbn [CombinedLamport.step CombinedLamport.node CombinedLamport.pc] in *.
  unfold CombinedLamport.request_cs_prologue.
  destruct (CombinedLamport.state n) eqn:E; cbn; [congruence | auto | auto].
Qed.

(** A node that is already [WANTED] (it has requested once) and a second
    call of [request_cs]. *)
Lemma C10_witness :
  let p := CombinedLamport.run (CombinedLamport.start 0 3)
             [CombinedLamport.CallRequestCS] in
  CombinedLamport.request_cs_prologue (CombinedLamport.node p)
  = (CombinedLamport.node p, None, []) /\
  CombinedLamport.step p CombinedLamport.CallRequestCS = (p, []).
Proof.
  apply C10_request_cs_rejected_outside_released. vm_compute. discriminate.
Defined.

(* ================================================================== *)
(** ** The Byzantine simulation *)

(** C1: in the simulation with four nodes and one traitor, the traitor set
    is exactly node 3, and with the commander (node 0) ordering ATTACK the
    two loyal lieutenants, nodes 1 and 2, both end with the final decision
    ATTACK set by [decide]. *)
Theorem C1_loyal_lieutenants_decide_attack :
  CombinedByzantine.traitor_ids 4 1 = [3] /\
  CombinedByzantine.decision_of
    (CombinedByzantine.run_byzantine_simulation CombinedByzantine.reliable 4 1 ATTACK) 1
  = Some ATTACK /\
  CombinedByzantine.decision_of
    (CombinedByzantine.run_byzantine_simulation CombinedByzantine.reliable 4 1 ATTACK) 2
  = Some ATTACK.
Proof. vm_compute. repeat split. Qed.

(** The stores the two loyal lieutenants decide on in that run: the
    traitor passed ATTACK on to node 1 and RETREAT to node 2. *)
Lemma simulation_4_1_values :
  match CombinedByzantine.run_byzantine_simulation CombinedByzantine.reliable 4 1 ATTACK with
  | Some out =>
      map (fun n => (CombinedByzantine.id n, CombinedByzantine.is_traitor n,
                     CombinedByzantine.all_values n 0))
          (CombinedByzantine.nodes (CombinedByzantine.final out))
      = [(0, false, Some [RETREAT; RETREAT; RETREAT; RETREAT]);
         (1, false, Some [ATTACK; ATTACK; ATTACK]);
         (2, false, Some [ATTACK; ATTACK; RETREAT]);
         (3, true, Some [ATTACK; ATTACK; ATTACK])]
  | None => False
  end.
Proof. vm_compute. reflexivity. Qed.

(** ** The majority vote and its ties *)

(** C7 (the code at the failing input): [decide] does vote over the direct
    value and one relayed value per other lieutenant, but on a tie
    [_majority] returns the value counted first.  In the run above node 2
    collects ATTACK, RETREAT, ATTACK, RETREAT and decides ATTACK. *)
Theorem C7_tie_goes_to_first_value :
  CombinedByzantine._majority [ATTACK; RETREAT; ATTACK; RETREAT] = ATTACK /\
  CombinedByzantine._majority [ATTACK; RETREAT] = ATTACK /\
  match CombinedByzantine.run_byzantine_simulation relay_1_to_2_lost 5 1 ATTACK with
  | Some out =>
      match find (fun n => CombinedByzantine.id n =? 2)
                 (CombinedByzantine.nodes (CombinedByzantine.final out)) with
      | Some n =>
          CombinedByzantine.all_values n 0 = Some [ATTACK; RETREAT; ATTACK; RETREAT] /\
          CombinedByzantine.final_decision n = Some ATTACK
      | None => False
      end
  | None => False
  end.
Proof. vm_compute. repeat split. Qed.

(** *** Ties in general *)

Lemma occurrences_nonneg (v : string) (l : list string) : 0 <= occurrences v l.
Proof. unfold occurrences, Py.len. lia. Qed.

Lemma occurrences_cons (v w : string) (l : list string) :
  occurrences v (w :: l) = (if String.eqb v w then 1 else 0) + occurrences v l.
Proof.
  unfold occurrences, Py.len. cbn [filter].
  destruct (String.eqb v w); cbn [List.length]; lia.
Qed.

Ltac same_counts :=
  repeat match goal with
         | |- _ :: _ = _ :: _ => f_equal
         | |- (_, _) = (_, _) => f_equal
         end;
  try reflexivity; try lia.

(** The counter of a list over two values, once both have been seen. *)
Lemma counter_two_seen (x y : string) (l : list string) (a b : Z) :
  x <> y -> Forall (fun v => v = x \/ v = y) l ->
  fold_left Py.counter_add l [(x, a); (y, b)]
  = [(x, a + occurrences x l); (y, b + occurrences y l)].
Proof.
  intros Hxy.
  assert (Exy : String.eqb x y = false) by (now apply String.eqb_neq).
  assert (Eyx : String.eqb y x = false) by (apply String.eqb_neq; congruence).
  revert a b. induction l as [|v l IH]; intros a b H; cbn [fold_left].
  - unfold occurrences, Py.len. cbn. now rewrite !Z.add_0_r.
  - inversion H as [|? ? Hv Hl]; subst.
    rewrite !occurrences_cons. destruct Hv as [-> | ->]; cbn [Py.counter_add];
      rewrite ?String.eqb_refl, ?Exy, ?Eyx, (IH _ _ Hl).
    + same_counts.
    + same_counts.
Qed.

(** The counter of a list over two values that starts with [x]. *)
Lemma counter_two_first (x y : string) (l : list string) (a : Z) :
  x <> y -> Forall (fun v => v = x \/ v = y) l ->
  fold_left Py.counter_add l [(x, a)]
  = if occurrences y l =? 0
    then [(x, a + occurrences x l)]
    else [(x, a + occurrences x l); (y, occurrences y l)].
Proof.
  intros Hxy.
  assert (Exy : String.eqb x y = false) by (now apply String.eqb_neq).
  assert (Eyx : String.eqb y x = false) by (apply String.eqb_neq; congruence).
  revert a. induction l as [|v l IH]; intros a H; cbn [fold_left].
  - unfold occurrences, Py.len. cbn. now rewrite Z.add_0_r.
  - inversion H as [|? ? Hv Hl]; subst.
    rewrite !occurrences_cons. destruct Hv as [-> | ->]; cbn [Py.counter_add];
      rewrite ?String.eqb_refl, ?Exy, ?Eyx.
    + rewrite (IH _ Hl), Z.add_0_l.
      destruct (occurrences y l =? 0); same_counts.
    + rewrite (counter_two_seen x y l a 1 Hxy Hl).
      pose proof (occurrences_nonneg y l).
      destruct (1 + occurrences y l =? 0) eqn:E; [apply Z.eqb_eq in E; lia|].
      same_counts.
Qed.

(** On a tie between two values [_majority] returns the one the list
    starts with: in [decide], the value received from the commander. *)
Lemma majority_tie_first (x y : string) (l : list string) :
  x <> y -> Forall (fun v => v = x \/ v = y) l ->
  occurrences x (x :: l) = occurrences y (x :: l) ->
  CombinedByzantine._majority (x :: l) = x.
Proof.
  intros Hxy Hl Htie. unfold CombinedByzantine._majority, Py.Counter.
  cbn [fold_left Py.counter_add]. rewrite (counter_two_first x y l 1 Hxy Hl).
  rewrite !occurrences_cons, String.eqb_refl in Htie.
  assert (Hyx : String.eqb y x = false) by (apply String.eqb_neq; congruence).
  rewrite Hyx in Htie.
  destruct (occurrences y l =? 0); cbn [Py.most_common1 Py.max_by_count fst snd];
    [reflexivity|].
  destruct (_ <? _) eqn:E; [apply Z.ltb_lt in E; lia | reflexivity].
Qed.

(** With ATTACK first, a tie between ATTACK and RETREAT yields ATTACK. *)
Lemma majority_tie_attack (l : list string) :
  Forall (fun v => v = ATTACK \/ v = RETREAT) l ->
  occurrences ATTACK (ATTACK :: l) = occurrences RETREAT (ATTACK :: l) ->
  CombinedByzantine._majority (ATTACK :: l) = ATTACK.
Proof. apply majority_tie_first. discriminate. Qed.

Lemma majority_tie_attack_example :
  CombinedByzantine._majority [ATTACK; RETREAT; RETREAT; ATTACK] = ATTACK.
Proof.
  apply (majority_tie_attack [RETREAT; RETREAT; ATTACK]).
  - repeat (apply Forall_cons; [first [left; reflexivity | right; reflexivity]|]).
    apply Forall_nil.
  - reflexivity.
Qed.

(** ** Deciding on an empty store *)

Lemma counter_all_same (x : string) (l : list string) (k : Z) :
  Forall (eq x) l ->
  fold_left Py.counter_add l [(x, k)] = [(x, k + Py.len l)].
Proof.
  unfold Py.len. revert k. induction l as [|y l IH]; intros k H; cbn [fold_left].
  - cbn. f_equal. f_equal. lia.
  - inversion H as [|? ? Hy Hl]; subst y.
    cbn [Py.counter_add]. rewrite String.eqb_refl, (IH _ Hl).
    f_equal. f_equal. cbn [List.length]. lia.
Qed.

(** A vote in which every value is [x] returns [x]. *)
Lemma majority_unanimous (x : string) (l : list string) :
  Forall (eq x) l -> CombinedByzantine._majority (x :: l) = x.
Proof.
  intros H. unfold CombinedByzantine._majority, Py.Counter.
  cbn [fold_left Py.counter_add]. now rewrite (counter_all_same x l 1 H).
Qed.







(** ** Dictionary facts *)

Section DictFacts.
Context {K V : Type} (eqb : K -> K -> bool).
Hypothesis eqb_refl : forall k, eqb k k = true.

Lemma get_set_same (d : list (K * V)) (k : K) (v : V) :
  Py.get eqb (Py.set eqb d k v) k = Some v.
Proof.
  induction d as [|[k' v'] d IH]; cbn [Py.set Py.get].
  - now rewrite eqb_refl.
  - destruct (eqb k k') eqn:E; cbn [Py.get]; rewrite E; [reflexivity | exact IH].
Qed.

Lemma contains_set_same (d : list (K * V)) (k : K) (v : V) :
  Py.contains eqb (Py.set eqb d k v) k = true.
Proof. unfold Py.contains. now rewrite get_set_same. Qed.

Lemma set_not_empty (d : list (K * V)) (k : K) (v : V) : Py.set eqb d k v <> [].
Proof.
  destruct d as [|[k' v'] d]; cbn [Py.set]; [discriminate|].
  destruct (eqb k k'); discriminate.
Qed.

End DictFacts.

Lemma list_eqb_refl (l : list Z) : Py.list_eqb l l = true.
Proof. induction l as [|x l IH]; cbn; [reflexivity|]. now rewrite Z.eqb_refl. Qed.

Lemma key_eqb_refl (k : list LieutenantPy.Elem) : LieutenantPy.key_eqb k k = true.
Proof.
  induction k as [|x k IH]; cbn; [reflexivity|].
  rewrite IH, andb_true_r. destruct x; cbn; [reflexivity | apply Z.eqb_refl].
Qed.

(** ** The bound N > 3m *)

(** C8, as stated, fails for [byzantine_node.py]: with three nodes and its
    fixed [m = 1] (so that N <= 3m) nothing is rejected; lieutenant 1 stores
    the order it receives and forwards it to lieutenant 2. *)
Lemma C8_byzantine_node_py_runs_unchecked :
  ~ (3 <= 3 * ByzantineNodePy.m ->
     ByzantineNodePy.messages
       (fst (fst (ByzantineNodePy.receive_order
                    (ByzantineNodePy.init 1 3 false) 0 ATTACK [0]))) = [] /\
     snd (ByzantineNodePy.receive_order
            (ByzantineNodePy.init 1 3 false) 0 ATTACK [0]) = []).
Proof.
  intros H. assert (H3 : 3 <= 3 * ByzantineNodePy.m) by (vm_compute; discriminate).
  destruct (H H3) as [Hs _]. vm_compute in Hs. discriminate.
Qed.

(** C8 (amended): [run_byzantine_simulation] of [combined_assignments.py]
    rejects every configuration with [total_nodes <= 3 * num_traitors]: it
    logs the error and returns before a node is constructed or a message is
    sent.  The handlers of [byzantine_node.py] and [code/lieutenant.py]
    make no such test: they store what arrives whatever the number of
    nodes. *)
Theorem C8_simulation_rejects_small_configurations
  (link : CombinedByzantine.Link) (total_nodes num_traitors : Z)
  (commander_order : string) :
  total_nodes <= 3 * num_traitors ->
  CombinedByzantine.run_byzantine_simulation link total_nodes num_traitors commander_order
  = Some (CombinedByzantine.mkOutcome true (CombinedByzantine.mkNet [] []))
  /\
  (forall (n : ByzantineNodePy.Lieutenant) (commander_id : Z) (order : string)
          (path : list Z),
      ByzantineNodePy.messages
        (fst (fst (ByzantineNodePy.receive_order n commander_id order path))) <> [])
  /\
  (forall (n : LieutenantPy.Lieutenant) (value : string) (path : list Z),
      LieutenantPy.msgs n = [] ->
      LieutenantPy.msgs (fst (fst (LieutenantPy.receive_message n value path)))
      = [(map LieutenantPy.Id path, value)]).
Proof.
  intros H. split; [|split].
  - unfold CombinedByzantine.run_byzantine_simulation.
    apply Z.leb_le in H. now rewrite H.
  - intros n commander_id order path. unfold ByzantineNodePy.receive_order.
    destruct (Py.len path <=? ByzantineNodePy.m); cbn [fst ByzantineNodePy.messages
      ByzantineNodePy.set_messages]; apply set_not_empty.
  - intros n value path E. unfold LieutenantPy.receive_message, Py.contains.
    rewrite E. cbn [Py.get negb].
    destruct (Py.len path <? _); reflexivity.
Qed.

Lemma C8_witness :
  CombinedByzantine.run_byzantine_simulation CombinedByzantine.reliable 3 1 ATTACK
  = Some (CombinedByzantine.mkOutcome true (CombinedByzantine.mkNet [] [])).
Proof.
  apply (C8_simulation_rejects_small_configurations CombinedByzantine.reliable 3 1 ATTACK).
  lia.
Defined.

(** ** Duplicate relays *)

(** C9, as stated, fails for [byzantine_node.py]: the same relay delivered
    twice leaves two entries under the path's key, so the store after two
    arrivals differs from the store after one. *)
Lemma C9_byzantine_node_py_appends_duplicates :
  ~ (ByzantineNodePy.messages
       (fst (fst (ByzantineNodePy.receive_order
                    (fst (fst (ByzantineNodePy.receive_order
                                 (ByzantineNodePy.init 1 4 false) 0 ATTACK [0])))
                    0 ATTACK [0])))
     = ByzantineNodePy.messages
         (fst (fst (ByzantineNodePy.receive_order
                      (ByzantineNodePy.init 1 4 false) 0 ATTACK [0])))).
Proof. vm_compute. discriminate. Qed.

Lemma index0_app {A : Type} (l r : list A) : l <> [] -> Py.index0 (l ++ r) = Py.index0 l.
Proof. destruct l; [congruence | reflexivity]. Qed.

(** C9 (amended): in [code/lieutenant.py] the first value stored for a path
    wins: a later [receive_message] for a stored path changes nothing and
    forwards nothing, and delivering the same message twice leaves the same
    store as delivering it once.  In [byzantine_node.py] every arrival is
    appended to the list kept under the path's key, so the store grows with
    each duplicate; the first element of that list, the one [decide] reads,
    stays the first value received. *)
Theorem C9_duplicate_relay :
  (forall (n : LieutenantPy.Lieutenant) (value : string) (path : list Z),
      Py.contains LieutenantPy.key_eqb (LieutenantPy.msgs n) (map LieutenantPy.Id path)
      = true ->
      LieutenantPy.receive_message n value path = (n, true, []))
  /\
  (forall (n : LieutenantPy.Lieutenant) (value : string) (path : list Z),
      fst (fst (LieutenantPy.receive_message
                  (fst (fst (LieutenantPy.receive_message n value path))) value path))
      = fst (fst (LieutenantPy.receive_message n value path)))
  /\
  (forall (n : ByzantineNodePy.Lieutenant) (commander_id : Z) (order : string)
          (path : list Z) (stored : list string),
      Py.get Py.list_eqb (ByzantineNodePy.messages n) (Py.sort Z.ltb path) = Some stored ->
      exists later,
        Py.get Py.list_eqb
               (ByzantineNodePy.messages
                  (fst (fst (ByzantineNodePy.receive_order n commander_id order path))))
               (Py.sort Z.ltb path)
        = Some (stored ++ [later]) /\
        (stored <> [] -> Py.index0 (stored ++ [later]) = Py.index0 stored)).
Proof.
  split; [|split].
  - intros n value path H. unfold LieutenantPy.receive_message. now rewrite H.
  - intros n value path. unfold LieutenantPy.receive_message at 2 3.
    destruct (Py.contains _ (LieutenantPy.msgs n) _) eqn:E; cbn [negb].
    + cbn [fst]. unfold LieutenantPy.receive_message. now rewrite E.
    + assert (E' : Py.contains LieutenantPy.key_eqb
                     (LieutenantPy.msgs
                        (LieutenantPy.set_msgs n
                           (Py.set LieutenantPy.key_eqb (LieutenantPy.msgs n)
                                   (map LieutenantPy.Id path) value)))
                     (map LieutenantPy.Id path) = true)
        by (cbn [LieutenantPy.msgs LieutenantPy.set_msgs];
            apply contains_set_same, key_eqb_refl).
      destruct (Py.len path <? _); cbn [fst];
        unfold LieutenantPy.receive_message; now rewrite E'.
  - intros n commander_id order path stored H.
    unfold ByzantineNodePy.receive_order.
    assert (Hc : Py.contains Py.list_eqb (ByzantineNodePy.messages n)
                   (Py.sort Z.ltb path) = true)
      by (unfold Py.contains; now rewrite H).
    rewrite Hc. cbn [negb].
    eexists.
    destruct (Py.len path <=? ByzantineNodePy.m);
      cbn [fst ByzantineNodePy.messages ByzantineNodePy.set_messages];
      (split; [rewrite (get_set_same _ list_eqb_refl); unfold Py.get_default;
               rewrite H; reflexivity
              | apply index0_app]).
Qed.

Lemma C9_witness :
  LieutenantPy.receive_message
    (LieutenantPy.mkLieutenant 1 three_lieutenants false 1
       [([LieutenantPy.Id 2], ATTACK)]) RETREAT [2]
  = (LieutenantPy.mkLieutenant 1 three_lieutenants false 1
       [([LieutenantPy.Id 2], ATTACK)], true, []).
Proof.
  apply (proj1 C9_duplicate_relay). reflexivity.
Defined.

(** ** What a traitor forwards and what it stores *)

(** C2, as stated, fails for [combined_assignments.py]: the traitor node 3
    of four, relaying ATTACK along the path 0, 3, does not send the
    inversion to every peer: node 1 is sent ATTACK itself. *)
Lemma C2_combined_traitor_spares_odd_peers :
  ~ Forall (fun call => snd (snd call) = opposite ATTACK)
           (CombinedByzantine.execute_om (CombinedByzantine.init 3 4 true) 0 [0; 3] ATTACK).
Proof.
  vm_compute. intros H. inversion H as [|? ? Hhd _]. discriminate Hhd.
Qed.

Lemma maybe_corrupt_opposite (n : LieutenantPy.Lieutenant) (v : string) :
  LieutenantPy.byzantine n = true -> v = ATTACK \/ v = RETREAT ->
  LieutenantPy._maybe_corrupt n v = opposite v.
Proof.
  intros Hb [-> | ->]; unfold LieutenantPy._maybe_corrupt; rewrite Hb; reflexivity.
Qed.

Lemma flip_opposite (v : string) :
  v = ATTACK \/ v = RETREAT -> CombinedByzantine.flip v = opposite v.
Proof. intros [-> | ->]; reflexivity. Qed.

(** C2 (amended): for a received value that is ATTACK or RETREAT,
    - a Byzantine lieutenant of [code/lieutenant.py] stores the value it
      received, unmodified, under the path's key, and every value it
      forwards is the inversion;
    - a traitor in [execute_om] of [combined_assignments.py] sends the
      inversion to the peers with an even id and the value itself to the
      peers with an odd id, and [receive_message] stores what arrives as it
      is;
    - a traitor lieutenant of [byzantine_node.py] forwards the inversion to
      every peer it forwards to. *)
Theorem C2_traitor_forwarding (v : string) :
  v = ATTACK \/ v = RETREAT ->
  (forall (n : LieutenantPy.Lieutenant) (path : list Z),
      LieutenantPy.byzantine n = true ->
      Py.contains LieutenantPy.key_eqb (LieutenantPy.msgs n) (map LieutenantPy.Id path)
      = false ->
      Py.get LieutenantPy.key_eqb
             (LieutenantPy.msgs (fst (fst (LieutenantPy.receive_message n v path))))
             (map LieutenantPy.Id path) = Some v /\
      Forall (fun fw => LieutenantPy.fw_value fw = opposite v)
             (snd (LieutenantPy.receive_message n v path)))
  /\
  (forall n : LieutenantPy.Lieutenant,
      LieutenantPy.byzantine n = true ->
      Py.get LieutenantPy.key_eqb
             (LieutenantPy.msgs (fst (fst (LieutenantPy.receive_initial_order n v))))
             [LieutenantPy.C; LieutenantPy.Id (LieutenantPy.id n)] = Some v /\
      Forall (fun fw => LieutenantPy.fw_value fw = opposite v)
             (snd (LieutenantPy.receive_initial_order n v)))
  /\
  (forall (n : CombinedByzantine.ByzantineNode) (m : Z) (path : list Z)
          (call : Z * (list Z * string)),
      CombinedByzantine.is_traitor n = true ->
      In call (CombinedByzantine.execute_om n m path v) ->
      snd (snd call) = if fst call mod 2 =? 0 then opposite v else v)
  /\
  (forall (n : CombinedByzantine.ByzantineNode) (path : list Z),
      Py.get String.eqb
             (CombinedByzantine.messages (fst (CombinedByzantine.receive_message n path v)))
             (CombinedByzantine.path_str path)
      = Some (Py.get_default String.eqb (CombinedByzantine.messages n)
                             (CombinedByzantine.path_str path) [] ++ [v]))
  /\
  (forall (n : ByzantineNodePy.Lieutenant) (commander_id : Z) (path : list Z),
      ByzantineNodePy.is_traitor n = true ->
      Forall (fun fw => ByzantineNodePy.fw_order fw = opposite v)
             (snd (ByzantineNodePy.receive_order n commander_id v path))).
Proof.
  intros Hv. repeat apply conj.
  - intros n path Hb Hc. unfold LieutenantPy.receive_message. rewrite Hc. cbn [negb].
    destruct (Py.len path <? _); cbn [fst snd LieutenantPy.msgs LieutenantPy.set_msgs];
      (split; [apply get_set_same, key_eqb_refl|]); [|constructor].
    unfold LieutenantPy._forward_message. apply Forall_forall.
    intros fw Hin. apply in_map_iff in Hin. destruct Hin as (lid & <- & _).
    cbn [LieutenantPy.fw_value]. now apply maybe_corrupt_opposite.
  - intros n Hb. unfold LieutenantPy.receive_initial_order.
    cbn [fst snd LieutenantPy.msgs LieutenantPy.set_msgs LieutenantPy.id].
    split; [apply get_set_same, key_eqb_refl|].
    unfold LieutenantPy._om_recursive. destruct (_ <=? 0); [constructor|].
    apply Forall_forall.
    intros fw Hin. apply in_map_iff in Hin. destruct Hin as (lid & <- & _).
    cbn [LieutenantPy.fw_value]. now apply maybe_corrupt_opposite.
  - intros n m path call Ht Hin. unfold CombinedByzantine.execute_om in Hin.
    apply in_map_iff in Hin. destruct Hin as (lt_id & <- & _).
    cbn [fst snd]. unfold CombinedByzantine.current_order. rewrite Ht. cbn [andb].
    destruct (lt_id mod 2 =? 0); [now apply flip_opposite | reflexivity].
  - intros n path. unfold CombinedByzantine.receive_message.
    cbn [fst CombinedByzantine.messages CombinedByzantine.set_messages].
    apply get_set_same, String.eqb_refl.
  - intros n commander_id path Ht. unfold ByzantineNodePy.receive_order. rewrite Ht.
    destruct (Py.len path <=? ByzantineNodePy.m); cbn [snd]; [|constructor].
    apply Forall_forall.
    intros fw Hin. apply in_map_iff in Hin. destruct Hin as (lt_id & <- & _).
    cbn [ByzantineNodePy.fw_order]. now apply flip_opposite.
Qed.

(** The theorem at ATTACK: the Byzantine lieutenant 3 of [three_lieutenants]
    stores ATTACK for the path 1 and forwards RETREAT to lieutenant 2. *)
Lemma C2_witness :
  let n := LieutenantPy.mkLieutenant 3 three_lieutenants true 2 [] in
  Py.get LieutenantPy.key_eqb
         (LieutenantPy.msgs (fst (fst (LieutenantPy.receive_message n ATTACK [1]))))
         [LieutenantPy.Id 1] = Some ATTACK /\
  Forall (fun fw => LieutenantPy.fw_value fw = RETREAT)
         (snd (LieutenantPy.receive_message n ATTACK [1])).
Proof.
  apply (proj1 (C2_traitor_forwarding ATTACK (or_introl eq_refl))
               (LieutenantPy.mkLieutenant 3 three_lieutenants true 2 []) [1]);
    reflexivity.
Defined.

(* ================================================================== *)
(** * Further properties of the mutex nodes *)

(** ** The logical clock *)

Lemma combined_tick_grows (n : CombinedLamport.LamportNode) (r : option Z) :
  CombinedLamport.clock n < CombinedLamport.clock (CombinedLamport._tick_clock n r).
Proof.
  unfold CombinedLamport._tick_clock. destruct r as [t|]; cbn; [|lia].
  destruct (t =? 0); cbn; lia.
Qed.

Lemma combined_step_clock (p : CombinedLamport.Proc) (e : CombinedLamport.Event) :
  CombinedLamport.clock (CombinedLamport.node p)
  <= CombinedLamport.clock (CombinedLamport.node (fst (CombinedLamport.step p e))).
Proof.
  destruct p as [n c].
  destruct e; cbn [CombinedLamport.step CombinedLamport.node CombinedLamport.pc].
  - unfold CombinedLamport.request_cs_prologue.
    destruct (negb _); cbn; lia.
  - destruct c; cbn; try lia. destruct (CombinedLamport.may_enter n); cbn; lia.
  - destruct c; cbn; lia.
  - cbn [CombinedLamport.receive_request fst CombinedLamport.node].
    pose proof (combined_tick_grows n (Some timestamp)). cbn in *. lia.
  - cbn. lia.
  - destruct (_ && _); cbn; lia.
Qed.

Lemma combined_run_clock (es : list CombinedLamport.Event) (p : CombinedLamport.Proc) :
  CombinedLamport.clock (CombinedLamport.node p)
  <= CombinedLamport.clock (CombinedLamport.node (CombinedLamport.run p es)).
Proof.
  revert p. induction es as [|e es IH]; intros p; cbn [CombinedLamport.run fold_left].
  - lia.
  - etransitivity; [apply (combined_step_clock p e) | apply IH].
Qed.

Lemma lamport_node_step_clock (p : LamportNodePy.Proc) (e : LamportNodePy.Event) :
  LamportNodePy.logical_clock (LamportNodePy.node p)
  <= LamportNodePy.logical_clock (LamportNodePy.node (fst (LamportNodePy.step p e))).
Proof.
  destruct p as [n c].
  destruct e; cbn [LamportNodePy.step LamportNodePy.node LamportNodePy.pc].
  - destruct c; cbn; try lia. destruct (_ && _); cbn; lia.
  - destruct c; cbn; try lia. destruct (_ && _); cbn; lia.
  - destruct c; cbn; lia.
  - cbn. lia.
  - cbn. lia.
  - destruct (Py.mem _ _); cbn; lia.
Qed.

Lemma lamport_node_run_clock (es : list LamportNodePy.Event) (p : LamportNodePy.Proc) :
  LamportNodePy.logical_clock (LamportNodePy.node p)
  <= LamportNodePy.logical_clock (LamportNodePy.node (LamportNodePy.run p es)).
Proof.
  revert p. induction es as [|e es IH]; intros p; cbn [LamportNodePy.run fold_left].
  - lia.
  - etransitivity; [apply (lamport_node_step_clock p e) | apply IH].
Qed.

(** [broadcast_request] touches the acknowledgement counter only. *)
Lemma node_broadcast_request_frame (n : NodePy.LamportNode) (ts : Z) (up : Z -> bool) :
  let n' := fst (fst (NodePy.broadcast_request n ts up)) in
  NodePy.id n' = NodePy.id n /\ NodePy.nodes n' = NodePy.nodes n /\
  NodePy.clock n' = NodePy.clock n /\ NodePy.request_queue n' = NodePy.request_queue n.
Proof.
  unfold NodePy.broadcast_request. cbn [fst].
  set (g := fun m nid => if up nid then _ else m).
  assert (G : forall l m,
             NodePy.id (fold_left g l m) = NodePy.id m /\
             NodePy.nodes (fold_left g l m) = NodePy.nodes m /\
             NodePy.clock (fold_left g l m) = NodePy.clock m /\
             NodePy.request_queue (fold_left g l m) = NodePy.request_queue m).
  { induction l as [|x l IH]; intros m; cbn [fold_left]; [now repeat split|].
    destruct (IH (g m x)) as (-> & -> & -> & ->).
    unfold g. destruct (up x); now repeat split. }
  destruct (G (NodePy.peers (NodePy.set_ack_count n 0)) (NodePy.set_ack_count n 0))
    as (-> & -> & -> & ->).
  now repeat split.
Qed.

Lemma node_step_clock (p : NodePy.Proc) (e : NodePy.Event) :
  NodePy.clock (NodePy.node p) <= NodePy.clock (NodePy.node (fst (NodePy.step p e))).
Proof.
  destruct p as [n c].
  destruct e; cbn [NodePy.step NodePy.node NodePy.pc].
  - destruct c; cbn [fst NodePy.node]; try lia.
    unfold NodePy.request_prologue.
    match goal with
    | |- context [NodePy.broadcast_request ?a ?b ?c] =>
        pose proof (node_broadcast_request_frame a b c) as (_ & _ & E & _);
        destruct (NodePy.broadcast_request a b c) as [[n4 ok] out]
    end.
    cbn [fst NodePy.node] in *. rewrite E. cbn. lia.
  - destruct c; cbn; try lia. destruct (NodePy.at_head n ts); cbn; lia.
  - destruct c; cbn; lia.
  - cbn. lia.
  - cbn. lia.
Qed.

Lemma node_run_clock (es : list NodePy.Event) (p : NodePy.Proc) :
  NodePy.clock (NodePy.node p) <= NodePy.clock (NodePy.node (NodePy.run p es)).
Proof.
  revert p. induction es as [|e es IH]; intros p; cbn [NodePy.run fold_left].
  - lia.
  - etransitivity; [apply (node_step_clock p e) | apply IH].
Qed.

(** X1: the logical clock of a node never goes back, whatever happens to
    the node, and the handler of a peer's request leaves it above both its
    old value and (when it was not negative) the timestamp received; this
    holds in the three implementations. *)
Theorem X1_clock_never_goes_back :
  (forall (p : CombinedLamport.Proc) (es : list CombinedLamport.Event),
      CombinedLamport.clock (CombinedLamport.node p)
      <= CombinedLamport.clock (CombinedLamport.node (CombinedLamport.run p es)))
  /\
  (forall (p : LamportNodePy.Proc) (es : list LamportNodePy.Event),
      LamportNodePy.logical_clock (LamportNodePy.node p)
      <= LamportNodePy.logical_clock (LamportNodePy.node (LamportNodePy.run p es)))
  /\
  (forall (p : NodePy.Proc) (es : list NodePy.Event),
      NodePy.clock (NodePy.node p) <= NodePy.clock (NodePy.node (NodePy.run p es)))
  /\
  (forall (n : CombinedLamport.LamportNode) (t s : Z),
      let c' := CombinedLamport.clock (fst (CombinedLamport.receive_request n t s)) in
      CombinedLamport.clock n < c' /\ (0 <= CombinedLamport.clock n -> t < c'))
  /\
  (forall (n : LamportNodePy.LamportNode) (t s : Z),
      let c' := LamportNodePy.logical_clock (fst (LamportNodePy.receive_request n t s)) in
      LamportNodePy.logical_clock n < c' /\ t < c')
  /\
  (forall (n : NodePy.LamportNode) (t s : Z),
      let c' := NodePy.clock (fst (NodePy.receive_request n t s)) in
      NodePy.clock n < c' /\ t < c').
Proof.
  repeat apply conj.
  - intros. apply combined_run_clock.
  - intros. apply lamport_node_run_clock.
  - intros. apply node_run_clock.
  - intros n t s. cbn. destruct (t =? 0) eqn:E; cbn.
    + apply Z.eqb_eq in E. lia.
    + lia.
  - intros n t s. cbn. lia.
  - intros n t s. cbn. lia.
Qed.

Lemma X1_witness :
  5 < CombinedLamport.clock
        (fst (CombinedLamport.receive_request (CombinedLamport.init 0 3) 5 2)).
Proof.
  apply (proj2 (proj1 (proj2 (proj2 (proj2 X1_clock_never_goes_back)))
                      (CombinedLamport.init 0 3) 5 2)).
  cbn. lia.
Defined.

(** ** More on [list.sort()] *)

Section SortFacts.
Context {A : Type} (ltb : A -> A -> bool).

Lemma insert_perm (x : A) (l : list A) : Permutation (Py.insert ltb x l) (x :: l).
Proof.
  induction l as [|y l IH]; cbn [Py.insert]; [reflexivity|].
  destruct (ltb x y); [reflexivity|].
  rewrite IH. apply perm_swap.
Qed.

Lemma sort_snoc (l : list A) (x : A) :
  Py.sort ltb (l ++ [x]) = Py.insert ltb x (Py.sort ltb l).
Proof. unfold Py.sort. now rewrite fold_left_app. Qed.

Lemma sort_perm (l : list A) : Permutation (Py.sort ltb l) l.
Proof.
  induction l as [|x l IH] using rev_ind; [reflexivity|].
  rewrite sort_snoc, insert_perm, IH. apply Permutation_cons_append.
Qed.

Lemma sort_In (l : list A) (x : A) : In x (Py.sort ltb l) <-> In x l.
Proof.
  split; apply Permutation_in; [apply sort_perm | symmetry; apply sort_perm].
Qed.

Lemma sort_length (l : list A) : List.length (Py.sort ltb l) = List.length l.
Proof. apply Permutation_length, sort_perm. Qed.

(** An element not below any element of the list goes to the end. *)
Lemma insert_last (x : A) (l : list A) :
  Forall (fun y => ltb x y = false) l -> Py.insert ltb x l = l ++ [x].
Proof.
  induction 1 as [|y l Hy Hl IH]; cbn [Py.insert app]; [reflexivity|].
  now rewrite Hy, IH.
Qed.

(** An inserted element that the comprehension drops leaves no trace. *)
Lemma filter_insert_dropped (keep : A -> bool) (x : A) (l : list A) :
  keep x = false -> filter keep (Py.insert ltb x l) = filter keep l.
Proof.
  intros Hx. induction l as [|y l IH]; cbn [Py.insert filter].
  - now rewrite Hx.
  - destruct (ltb x y); cbn [filter].
    + now rewrite Hx.
    + now rewrite IH.
Qed.

End SortFacts.

Lemma sortedb_snoc (q : list (Z * Z)) (x : Z * Z) :
  sortedb (q ++ [x]) = true -> sortedb q = true /\ Forall (fun y => tuple_le y x) q.
Proof.
  induction q as [|a q IH]; cbn [app]; intros H; [split; [reflexivity | constructor]|].
  pose proof (sortedb_all_ge _ _ H) as Hge.
  apply sortedb_cons in H. destruct H as [Hq Hhd].
  destruct (IH Hq) as [Hs Hall]. split.
  - apply sortedb_cons. split; [exact Hs|].
    destruct q as [|b q]; [exact I | exact Hhd].
  - constructor; [|exact Hall].
    rewrite Forall_forall in Hge. apply Hge, in_or_app. right. now left.
Qed.

(** Sorting a sorted queue changes nothing. *)
Lemma sort_sorted_id (q : list (Z * Z)) :
  sortedb q = true -> Py.sort Py.tuple_ltb q = q.
Proof.
  induction q as [|x q IH] using rev_ind; intros H; [reflexivity|].
  apply sortedb_snoc in H. destruct H as [Hq Hall].
  rewrite sort_snoc, (IH Hq). apply insert_last.
  eapply Forall_impl; [|exact Hall]. intros y Hy. exact Hy.
Qed.

Lemma own_count_zero_filter (self : Z) (q : list (Z * Z)) :
  own_count q self = 0%nat -> filter (fun r => negb (snd r =? self)) q = q.
Proof.
  unfold own_count. induction q as [|y q IH]; cbn [filter]; [reflexivity|].
  destruct (snd y =? self); cbn [negb List.length]; [discriminate|].
  intros H. now rewrite IH.
Qed.

(** Queueing the request of [self] and dropping the entries of [self]
    gives back a sorted queue that held none. *)
Lemma queue_round_trip (self ts : Z) (q : list (Z * Z)) :
  sortedb q = true -> own_count q self = 0%nat ->
  filter (fun r => negb (snd r =? self)) (Py.sort Py.tuple_ltb (q ++ [(ts, self)])) = q.
Proof.
  intros Hs Hc. rewrite sort_snoc, (sort_sorted_id q Hs).
  rewrite filter_insert_dropped by (cbn; now rewrite Z.eqb_refl).
  now apply own_count_zero_filter.
Qed.

(** ** Requests and releases on the queue *)

(** X2: the handler of a peer's request always adds one entry: the queue
    afterwards is a rearrangement of the old entries and the new one, also
    when the same request is already queued; in the three implementations. *)
Theorem X2_receive_request_adds_one_entry (t s : Z) :
  (forall n : CombinedLamport.LamportNode,
      Permutation
        (CombinedLamport.request_queue (fst (CombinedLamport.receive_request n t s)))
        ((t, s) :: CombinedLamport.request_queue n))
  /\
  (forall n : LamportNodePy.LamportNode,
      Permutation
        (LamportNodePy.request_queue (fst (LamportNodePy.receive_request n t s)))
        ((t, s) :: LamportNodePy.request_queue n))
  /\
  (forall n : NodePy.LamportNode,
      Permutation
        (NodePy.request_queue (fst (NodePy.receive_request n t s)))
        ((t, s) :: NodePy.request_queue n)).
Proof.
  repeat apply conj; intros n.
  - cbn [CombinedLamport.receive_request fst].
    cbn [CombinedLamport.request_queue CombinedLamport.set_queue].
    rewrite sort_perm.
    replace (CombinedLamport.request_queue (CombinedLamport._tick_clock n (Some t)))
      with (CombinedLamport.request_queue n)
      by (unfold CombinedLamport._tick_clock; cbn; now destruct (negb _)).
    symmetry. apply Permutation_cons_append.
  - cbn. rewrite sort_perm. symmetry. apply Permutation_cons_append.
  - cbn. rewrite sort_perm. symmetry. apply Permutation_cons_append.
Qed.

(** X3: a request followed by the release of the same node leaves a sorted
    queue that held no entry of that node exactly as it was: for a peer's
    request and release in the three implementations, and for the node's
    own [request_cs], [enter_cs] and [release_cs] in
    [combined_assignments.py]. *)
Theorem X3_request_then_release_restores_queue :
  (forall (n : CombinedLamport.LamportNode) (t s : Z),
      sortedb (CombinedLamport.request_queue n) = true ->
      own_count (CombinedLamport.request_queue n) s = 0%nat ->
      CombinedLamport.request_queue
        (fst (CombinedLamport.receive_release
                (fst (CombinedLamport.receive_request n t s)) s))
      = CombinedLamport.request_queue n)
  /\
  (forall (n : LamportNodePy.LamportNode) (t t' s : Z),
      sortedb (LamportNodePy.request_queue n) = true ->
      own_count (LamportNodePy.request_queue n) s = 0%nat ->
      LamportNodePy.request_queue
        (fst (LamportNodePy.receive_release
                (fst (LamportNodePy.receive_request n t s)) t' s))
      = LamportNodePy.request_queue n)
  /\
  (forall (n : NodePy.LamportNode) (t s : Z),
      sortedb (NodePy.request_queue n) = true ->
      own_count (NodePy.request_queue n) s = 0%nat ->
      NodePy.request_queue
        (fst (NodePy.receive_release (fst (NodePy.receive_request n t s)) s))
      = NodePy.request_queue n)
  /\
  (forall n : CombinedLamport.LamportNode,
      CombinedLamport.state n = RELEASED ->
      sortedb (CombinedLamport.request_queue n) = true ->
      own_count (CombinedLamport.request_queue n) (CombinedLamport.id n) = 0%nat ->
      let requested := fst (fst (CombinedLamport.request_cs_prologue n)) in
      let released := fst (CombinedLamport.release_cs (CombinedLamport.enter_cs requested)) in
      CombinedLamport.request_queue released = CombinedLamport.request_queue n /\
      CombinedLamport.state released = RELEASED).
Proof.
  repeat apply conj.
  - intros n t s Hs Hc. cbn.
    replace (CombinedLamport.request_queue
               (if negb (t =? 0) then _ else _))
      with (CombinedLamport.request_queue n) by (now destruct (negb _)).
    now apply queue_round_trip.
  - intros n t t' s Hs Hc. cbn. now apply queue_round_trip.
  - intros n t s Hs Hc. cbn. now apply queue_round_trip.
  - intros n Hst Hs Hc. unfold CombinedLamport.request_cs_prologue.
    rewrite Hst. cbn. split; [|reflexivity]. now apply queue_round_trip.
Qed.

Lemma X3_witness :
  CombinedLamport.request_queue
    (fst (CombinedLamport.receive_release
            (fst (CombinedLamport.receive_request
                    (CombinedLamport.mkNode 0 3 4 [(2, 1)] [] RELEASED) 3 2)) 2))
  = [(2, 1)].
Proof.
  apply (proj1 X3_request_then_release_restores_queue
               (CombinedLamport.mkNode 0 3 4 [(2, 1)] [] RELEASED) 3 2);
    reflexivity.
Defined.

(** ** Timestamps of successive requests *)

(** X4: two requests of the same node carry strictly increasing
    timestamps, whatever the node went through between them (a release in
    particular): in [combined_assignments.py] for the timestamp of
    [request_cs], in [lamport_node.py] for the clock [request_cs] leaves,
    which is the timestamp it queued, in [code/node.py] for the [ts] of
    [request_critical_section]. *)
Theorem X4_successive_requests_increase :
  (forall (p : CombinedLamport.Proc) (es : list CombinedLamport.Event)
          (n1 n2 : CombinedLamport.LamportNode) (ts1 ts2 : Z)
          (out1 out2 : list (Z * MutexMsg)),
      CombinedLamport.request_cs_prologue (CombinedLamport.node p) = (n1, Some ts1, out1) ->
      CombinedLamport.request_cs_prologue
        (CombinedLamport.node
           (CombinedLamport.run (fst (CombinedLamport.step p CombinedLamport.CallRequestCS)) es))
      = (n2, Some ts2, out2) ->
      ts1 < ts2)
  /\
  (forall (n : LamportNodePy.LamportNode) (c : LamportNodePy.Pc)
          (es : list LamportNodePy.Event),
      let n1 := fst (LamportNodePy.request_cs n) in
      let later := LamportNodePy.node (LamportNodePy.run (LamportNodePy.mkProc n1 c) es) in
      In (LamportNodePy.logical_clock n1, LamportNodePy.node_id n1)
         (LamportNodePy.request_queue n1) /\
      LamportNodePy.logical_clock n1
      < LamportNodePy.logical_clock (fst (LamportNodePy.request_cs later)))
  /\
  (forall (n : NodePy.LamportNode) (c : NodePy.Pc) (es : list NodePy.Event)
          (up1 up2 : Z -> bool),
      let r1 := NodePy.request_prologue n up1 in
      let later := NodePy.node (NodePy.run (NodePy.mkProc (fst (fst (fst r1))) c) es) in
      snd (fst (fst r1)) < snd (fst (fst (NodePy.request_prologue later up2)))).
Proof.
  repeat apply conj.
  - intros [n c] es n1 n2 ts1 ts2 out1 out2 H1 H2.
    cbn [CombinedLamport.step CombinedLamport.node] in *. rewrite H1 in H2.
    cbn [fst] in H2.
    pose proof (combined_run_clock es (CombinedLamport.mkProc n1 (CombinedLamport.Polling ts1)))
      as Hmono.
    cbn [CombinedLamport.node] in Hmono.
    unfold CombinedLamport.request_cs_prologue in H1, H2.
    destruct (negb (NodeState_eqb (CombinedLamport.state n) RELEASED)); [discriminate|].
    destruct (negb (NodeState_eqb _ RELEASED)); [discriminate|].
    cbn in H1, H2. injection H1 as <- <- _. injection H2 as _ <- _.
    cbn in Hmono. lia.
  - intros n c es n1 later. split.
    + subst n1. cbn. apply sort_In, in_or_app. right. now left.
    + pose proof (lamport_node_run_clock es (LamportNodePy.mkProc n1 c)) as Hmono.
      cbn [LamportNodePy.node] in Hmono. fold later in Hmono.
      change (LamportNodePy.logical_clock (fst (LamportNodePy.request_cs later)))
        with (LamportNodePy.logical_clock later + 1).
      lia.
  - intros n c es up1 up2 r1 later.
    pose proof (node_run_clock es (NodePy.mkProc (fst (fst (fst r1))) c)) as Hmono.
    cbn [NodePy.node] in Hmono. fold later in Hmono.
    subst r1. unfold NodePy.request_prologue in *.
    repeat match goal with
    | H : context [NodePy.broadcast_request ?a ?b ?c] |- _ =>
        pose proof (node_broadcast_request_frame a b c) as (_ & _ & E & _);
        destruct (NodePy.broadcast_request a b c) as [[? ?] ?]
    | |- context [NodePy.broadcast_request ?a ?b ?c] =>
        destruct (NodePy.broadcast_request a b c) as [[? ?] ?]
    end.
    cbn in *. lia.
Qed.

Lemma X4_witness :
  1 < 3.
Proof.
  apply (proj1 X4_successive_requests_increase
               (CombinedLamport.start 0 1)
               [CombinedLamport.Poll; CombinedLamport.WorkDone; CombinedLamport.RecvRelease 5]
               (CombinedLamport.mkNode 0 1 1 [(1, 0)] [] WANTED)
               (CombinedLamport.mkNode 0 1 3 [(3, 0)] [] WANTED)
               1 3 [] []); reflexivity.
Defined.

(** ** Control and state *)

Lemma combined_working_step (p : CombinedLamport.Proc) (e : CombinedLamport.Event) :
  (CombinedLamport.pc p = CombinedLamport.Working ->
   CombinedLamport.state (CombinedLamport.node p) = HELD) ->
  CombinedLamport.pc (fst (CombinedLamport.step p e)) = CombinedLamport.Working ->
  CombinedLamport.state (CombinedLamport.node (fst (CombinedLamport.step p e))) = HELD.
Proof.
  destruct p as [[i t ck q r s] c]. cbn [CombinedLamport.pc CombinedLamport.node].
  intros H.
  destruct e; cbn [CombinedLamport.step CombinedLamport.node CombinedLamport.pc].
  - unfold CombinedLamport.request_cs_prologue. cbn.
    destruct s; cbn; auto. discriminate.
  - destruct c; cbn; auto.
    destruct (CombinedLamport.may_enter _); cbn; auto.
  - destruct c; cbn; auto. discriminate.
  - cbn. destruct (negb _); cbn; auto.
  - cbn. auto.
  - destruct (_ && _); cbn; auto.
Qed.

Lemma combined_working_run (es : list CombinedLamport.Event) (p : CombinedLamport.Proc) :
  (CombinedLamport.pc p = CombinedLamport.Working ->
   CombinedLamport.state (CombinedLamport.node p) = HELD) ->
  CombinedLamport.pc (CombinedLamport.run p es) = CombinedLamport.Working ->
  CombinedLamport.state (CombinedLamport.node (CombinedLamport.run p es)) = HELD.
Proof.
  revert p. induction es as [|e es IH]; intros p H; cbn [CombinedLamport.run fold_left].
  - exact H.
  - apply IH. now apply combined_working_step.
Qed.

(** ** A queued request of a peer keeps the node out *)

Lemma waits_behind_step (self t s : Z) (p : CombinedLamport.Proc)
  (e : CombinedLamport.Event) :
  s <> self ->
  CombinedLamport.honest self e = true -> not_release_of s e = true ->
  waits_behind self t s p -> waits_behind self t s (fst (CombinedLamport.step p e)).
Proof.
  intros Hs He Hr (Hid & Hin & Hsort & Hclk & Hown & Hst & Hpc).
  destruct p as [[i tot ck q r st] c].
  cbn [CombinedLamport.node CombinedLamport.pc CombinedLamport.id
       CombinedLamport.request_queue CombinedLamport.clock CombinedLamport.state] in *.
  subst i. unfold waits_behind.
  destruct e; cbn [CombinedLamport.step CombinedLamport.node CombinedLamport.pc].
  - unfold CombinedLamport.request_cs_prologue. cbn.
    destruct st; cbn.
    + repeat split; auto; try discriminate; try lia.
      * apply sort_In, in_or_app. now left.
      * apply sort_sorted.
      * intros o Ho Hso. apply sort_In, in_app_or in Ho. destruct Ho as [Ho|[<-|[]]].
        -- now apply Hown.
        -- cbn. lia.
    + repeat split; auto.
    + repeat split; auto.
  - destruct c; cbn; try (repeat split; auto; fail).
    destruct (CombinedLamport.may_enter _) eqn:E; cbn; [|repeat split; auto].
    exfalso. unfold CombinedLamport.may_enter in E. cbn in E.
    apply andb_true_iff in E. destruct E as [_ Hhead].
    destruct q as [|h rest]; [discriminate|].
    apply Z.eqb_eq in Hhead.
    pose proof (Hown h (or_introl eq_refl) Hhead) as Hlt.
    destruct Hin as [->|Hin]; [cbn in Hhead; congruence|].
    pose proof (sortedb_all_ge _ _ Hsort) as Hge.
    rewrite Forall_forall in Hge. specialize (Hge _ Hin).
    apply tuple_le_spec in Hge. cbn in Hge. lia.
  - destruct c; cbn; try (repeat split; auto; fail). congruence.
  - cbn in He. apply negb_true_iff, Z.eqb_neq in He.
    cbn. destruct (timestamp =? 0); cbn; repeat split; auto; try lia;
      try (apply sort_In, in_or_app; now left); try apply sort_sorted;
      (intros o Ho Hso; apply sort_In, in_app_or in Ho; destruct Ho as [Ho|[<-|[]]];
       [now apply Hown | cbn in Hso; congruence]).
  - cbn in Hr. apply negb_true_iff, Z.eqb_neq in Hr.
    cbn. repeat split; auto; try lia.
    + apply filter_In. split; [exact Hin|]. cbn.
      apply negb_true_iff, Z.eqb_neq. congruence.
    + now apply filter_sorted.
    + intros o Ho Hso. apply filter_In in Ho. destruct Ho as [Ho _]. now apply Hown.
  - destruct (_ && _); cbn; repeat split; auto.
Qed.

Lemma waits_behind_run (self t s : Z) (es : list CombinedLamport.Event)
  (p : CombinedLamport.Proc) :
  s <> self ->
  forallb (CombinedLamport.honest self) es = true ->
  forallb (not_release_of s) es = true ->
  waits_behind self t s p -> waits_behind self t s (CombinedLamport.run p es).
Proof.
  intros Hs. revert p.
  induction es as [|e es IH]; intros p He Hr Hp; cbn in *; [exact Hp|].
  apply andb_true_iff in He. destruct He as [He He'].
  apply andb_true_iff in Hr. destruct Hr as [Hr Hr'].
  apply IH; auto. now apply waits_behind_step.
Qed.

Lemma combined_start_clock (self total : Z) (es : list CombinedLamport.Event) :
  0 <= CombinedLamport.clock
         (CombinedLamport.node (CombinedLamport.run (CombinedLamport.start self total) es)).
Proof.
  etransitivity; [|apply combined_run_clock]. cbn. lia.
Qed.

(** X5: a node of [combined_assignments.py] that is RELEASED when the
    request of a peer [s] arrives does not enter the critical section as
    long as the release of [s] has not arrived: whatever replies, requests
    and other releases reach it, and whether or not it requests itself, its
    state is never HELD. *)
Theorem X5_queued_peer_request_keeps_node_out
  (self total t s : Z) (es1 es2 : list CombinedLamport.Event) :
  s <> self ->
  forallb (CombinedLamport.honest self) es1 = true ->
  CombinedLamport.state
    (CombinedLamport.node (CombinedLamport.run (CombinedLamport.start self total) es1))
  = RELEASED ->
  forallb (CombinedLamport.honest self) es2 = true ->
  forallb (not_release_of s) es2 = true ->
  CombinedLamport.state
    (CombinedLamport.node
       (CombinedLamport.run (CombinedLamport.start self total)
          (es1 ++ CombinedLamport.RecvRequest t s :: es2)))
  <> HELD.
Proof.
  intros Hs H1 Hrel H2 Hnr.
  unfold CombinedLamport.run. rewrite fold_left_app. cbn [fold_left].
  fold (CombinedLamport.run (CombinedLamport.start self total) es1).
  set (p := CombinedLamport.run (CombinedLamport.start self total) es1) in *.
  match goal with
  | |- CombinedLamport.state (CombinedLamport.node (fold_left _ es2 ?q)) <> _ =>
      fold (CombinedLamport.run q es2);
      assert (W : waits_behind self t s q)
  end.
  { pose proof (combined_inv_run self total es1 _ H1 (combined_inv_start self total))
      as (Hid & _ & _ & Hown & _).
    fold p in Hid, Hown. specialize (Hown Hrel).
    pose proof (combined_start_clock self total es1) as Hck. fold p in Hck.
    assert (Hpc : CombinedLamport.pc p <> CombinedLamport.Working).
    { intros E.
      pose proof (combined_working_run es1 (CombinedLamport.start self total)) as Hw.
      fold p in Hw. rewrite Hw in Hrel; [discriminate | discriminate | exact E]. }
    destruct p as [[i tot ck q r st] c].
    cbn [CombinedLamport.node CombinedLamport.pc CombinedLamport.id
         CombinedLamport.request_queue CombinedLamport.clock CombinedLamport.state] in *.
    subst i st. unfold waits_behind. cbn.
    assert (Hnone : forall o, In o (Py.sort Py.tuple_ltb (q ++ [(t, s)])) ->
                              snd o = self -> t < fst o).
    { intros o Ho Hso. exfalso.
      apply sort_In, in_app_or in Ho. destruct Ho as [Ho|[<-|[]]]; [|cbn in Hso; congruence].
      unfold own_count in Hown.
      assert (Hf : In o (filter (fun r => snd r =? self) q)).
      { apply filter_In. split; [exact Ho | now apply Z.eqb_eq]. }
      destruct (filter (fun r => snd r =? self) q); [contradiction | discriminate]. }
    destruct (t =? 0) eqn:E; cbn; repeat split; auto; try discriminate;
      try (apply sort_In, in_or_app; right; now left); try apply sort_sorted;
      try (apply Z.eqb_eq in E); lia.
  }
  apply (waits_behind_run self t s es2 _ Hs H2 Hnr W).
Qed.

(** Node 0 of three receives the request of node 1, requests itself,
    receives every reply and the request and release of node 2, and polls:
    it is still not HELD. *)
Lemma X5_witness :
  CombinedLamport.state
    (CombinedLamport.node
       (CombinedLamport.run (CombinedLamport.start 0 3)
          ([] ++ CombinedLamport.RecvRequest 1 1 ::
             [CombinedLamport.CallRequestCS; CombinedLamport.ReplyArrived 1;
              CombinedLamport.ReplyArrived 2; CombinedLamport.RecvRequest 4 2;
              CombinedLamport.RecvRelease 2; CombinedLamport.Poll])))
  <> HELD.
Proof.
  apply (X5_queued_peer_request_keeps_node_out 0 3 1 1 []
           [CombinedLamport.CallRequestCS; CombinedLamport.ReplyArrived 1;
            CombinedLamport.ReplyArrived 2; CombinedLamport.RecvRequest 4 2;
            CombinedLamport.RecvRelease 2; CombinedLamport.Poll]);
    [discriminate | reflexivity | reflexivity | reflexivity | reflexivity].
Defined.

(** ** The set of replies *)

Lemma mem_In (x : Z) (l : list Z) : Py.mem x l = true <-> In x l.
Proof.
  unfold Py.mem. rewrite existsb_exists. split.
  - intros (y & Hy & E). apply Z.eqb_eq in E. now subst.
  - intros H. exists x. split; [exact H | apply Z.eqb_refl].
Qed.

Lemma range_In (n i : Z) : In i (Py.range n) <-> 0 <= i < n.
Proof.
  unfold Py.range. rewrite in_map_iff. split.
  - intros (k & <- & Hk). apply in_seq in Hk. lia.
  - intros H. exists (Z.to_nat i). split; [lia | apply in_seq; lia].
Qed.

Lemma range_NoDup (n : Z) : NoDup (Py.range n).
Proof.
  unfold Py.range. apply Finite.Injective_map_NoDup; [|apply seq_NoDup].
  intros a b H. lia.
Qed.

Lemma range_length (n : Z) : List.length (Py.range n) = Z.to_nat n.
Proof. unfold Py.range. now rewrite length_map, length_seq. Qed.

Lemma set_add_NoDup (x : Z) (s : list Z) : NoDup s -> NoDup (Py.set_add x s).
Proof.
  intros H. unfold Py.set_add. destruct (Py.mem x s) eqn:E; [exact H|].
  apply NoDup_app; [exact H | repeat constructor; intros [] | ].
  intros y Hy [<-|[]]. apply mem_In in Hy. congruence.
Qed.

Lemma set_add_In (x y : Z) (s : list Z) : In y (Py.set_add x s) <-> y = x \/ In y s.
Proof.
  unfold Py.set_add. destruct (Py.mem x s) eqn:E.
  - apply mem_In in E. split; [now right | intros [->|H]; assumption].
  - rewrite in_app_iff. cbn. intuition.
Qed.

(** Removing one element of a duplicate-free list shortens it by one. *)
Lemma filter_out_length (x : Z) (l : list Z) :
  NoDup l -> In x l ->
  S (List.length (filter (fun i => negb (i =? x)) l)) = List.length l.
Proof.
  induction 1 as [|y l Hy Hl IH]; intros Hin; [contradiction|].
  cbn [filter List.length]. destruct (y =? x) eqn:E; cbn [negb List.length].
  - apply Z.eqb_eq in E. subst y. f_equal.
    clear IH Hin Hl. induction l as [|z l IH]; [reflexivity|].
    cbn [filter]. destruct (z =? x) eqn:Ez.
    + apply Z.eqb_eq in Ez. subst z. exfalso. apply Hy. now left.
    + cbn [negb List.length]. f_equal. apply IH. intros H. apply Hy. now right.
  - destruct Hin as [->|Hin]; [rewrite Z.eqb_refl in E; discriminate|].
    f_equal. now apply IH.
Qed.

Lemma peers_length (self total : Z) :
  0 <= self < total ->
  Z.of_nat (List.length (filter (fun i => negb (i =? self)) (Py.range total))) = total - 1.
Proof.
  intros H.
  pose proof (filter_out_length self (Py.range total) (range_NoDup total)
                (proj2 (range_In total self) H)) as E.
  rewrite range_length in E. lia.
Qed.

(** A duplicate-free list of peers as long as the list of all peers holds
    every peer. *)
Lemma replies_complete (self total : Z) (replies : list Z) :
  0 <= self < total ->
  replies_ok self total replies ->
  Py.len replies = total - 1 ->
  forall i, 0 <= i < total -> i <> self -> In i replies.
Proof.
  intros Hself [Hnd Hsub] Hlen i Hi Hne.
  set (peers := filter (fun i => negb (i =? self)) (Py.range total)).
  assert (Hincl : incl replies peers).
  { intros j Hj. apply filter_In. destruct (Hsub j Hj) as [Hr Hn]. split.
    - now apply range_In.
    - apply negb_true_iff, Z.eqb_neq. exact Hn. }
  assert (Hle : (List.length peers <= List.length replies)%nat).
  { pose proof (peers_length self total Hself) as E. fold peers in E.
    unfold Py.len in Hlen. lia. }
  apply (NoDup_length_incl Hnd Hle Hincl).
  apply filter_In. split; [now apply range_In|].
  apply negb_true_iff, Z.eqb_neq. exact Hne.
Qed.

Lemma replies_ok_nil (self total : Z) : replies_ok self total [].
Proof. split; [constructor | intros i []]. Qed.

Lemma replies_ok_add (self total i : Z) (r : list Z) :
  0 <= i < total -> i <> self -> replies_ok self total r ->
  replies_ok self total (Py.set_add i r).
Proof.
  intros Hi Hne [Hnd Hsub]. split; [now apply set_add_NoDup|].
  intros j Hj. apply set_add_In in Hj. destruct Hj as [->|Hj]; [now split | now apply Hsub].
Qed.

Ltac keep_replies :=
  solve [cbn; split; [reflexivity | split; [reflexivity | auto using replies_ok_nil]]].

Lemma combined_replies_step (self total : Z) (p : CombinedLamport.Proc)
  (e : CombinedLamport.Event) :
  CombinedLamport.id (CombinedLamport.node p) = self /\
  CombinedLamport.total_nodes (CombinedLamport.node p) = total /\
  replies_ok self total (CombinedLamport.replies_received (CombinedLamport.node p)) ->
  let p' := fst (CombinedLamport.step p e) in
  CombinedLamport.id (CombinedLamport.node p') = self /\
  CombinedLamport.total_nodes (CombinedLamport.node p') = total /\
  replies_ok self total (CombinedLamport.replies_received (CombinedLamport.node p')).
Proof.
  destruct p as [[i tot ck q r st] c]. cbn [CombinedLamport.node CombinedLamport.id
    CombinedLamport.total_nodes CombinedLamport.replies_received].
  intros (-> & -> & Hr).
  destruct e; cbn [CombinedLamport.step CombinedLamport.node CombinedLamport.pc].
  - unfold CombinedLamport.request_cs_prologue. cbn.
    destruct st; keep_replies.
  - destruct c; try keep_replies. destruct (CombinedLamport.may_enter _); keep_replies.
  - destruct c; keep_replies.
  - cbn. destruct (timestamp =? 0); keep_replies.
  - keep_replies.
  - destruct (_ && _) eqn:E; try keep_replies.
    apply andb_true_iff in E. destruct E as [E1 E2]. cbn in E1, E2.
    apply mem_In, range_In in E1. apply negb_true_iff, Z.eqb_neq in E2.
    cbn. split; [reflexivity | split; [reflexivity | now apply replies_ok_add]].
Qed.

Lemma combined_replies_run (self total : Z) (es : list CombinedLamport.Event) :
  let p := CombinedLamport.run (CombinedLamport.start self total) es in
  CombinedLamport.id (CombinedLamport.node p) = self /\
  CombinedLamport.total_nodes (CombinedLamport.node p) = total /\
  replies_ok self total (CombinedLamport.replies_received (CombinedLamport.node p)).
Proof.
  cbn zeta. unfold CombinedLamport.run.
  assert (G : forall es p,
             CombinedLamport.id (CombinedLamport.node p) = self /\
             CombinedLamport.total_nodes (CombinedLamport.node p) = total /\
             replies_ok self total (CombinedLamport.replies_received (CombinedLamport.node p)) ->
             let p' := fold_left (fun q e => fst (CombinedLamport.step q e)) es p in
             CombinedLamport.id (CombinedLamport.node p') = self /\
             CombinedLamport.total_nodes (CombinedLamport.node p') = total /\
             replies_ok self total
               (CombinedLamport.replies_received (CombinedLamport.node p'))).
  { induction es0 as [|e es0 IH]; intros p H; cbn [fold_left]; [exact H|].
    apply IH. now apply combined_replies_step. }
  apply G. keep_replies.
Qed.

Lemma lamport_node_replies_step (self total : Z) (p : LamportNodePy.Proc)
  (e : LamportNodePy.Event) :
  LamportNodePy.node_id (LamportNodePy.node p) = self /\
  LamportNodePy.total_nodes (LamportNodePy.node p) = total /\
  replies_ok self total (LamportNodePy.replies_received (LamportNodePy.node p)) ->
  let p' := fst (LamportNodePy.step p e) in
  LamportNodePy.node_id (LamportNodePy.node p') = self /\
  LamportNodePy.total_nodes (LamportNodePy.node p') = total /\
  replies_ok self total (LamportNodePy.replies_received (LamportNodePy.node p')).
Proof.
  destruct p as [[i tot ck q r st] c]. cbn [LamportNodePy.node LamportNodePy.node_id
    LamportNodePy.total_nodes LamportNodePy.replies_received].
  intros (-> & -> & Hr).
  destruct e; cbn [LamportNodePy.step LamportNodePy.node LamportNodePy.pc].
  - destruct c; try keep_replies. destruct (_ && _); keep_replies.
  - destruct c; try keep_replies. destruct (_ && _); keep_replies.
  - destruct c; keep_replies.
  - keep_replies.
  - keep_replies.
  - destruct (Py.mem _ _) eqn:E; try keep_replies.
    unfold LamportNodePy.others in E. cbn in E.
    apply mem_In, filter_In in E. destruct E as [E1 E2].
    apply range_In in E1. apply negb_true_iff, Z.eqb_neq in E2.
    cbn. split; [reflexivity | split; [reflexivity | now apply replies_ok_add]].
Qed.

Lemma lamport_node_replies_run (self total : Z) (es : list LamportNodePy.Event) :
  let p := LamportNodePy.run (LamportNodePy.start self total) es in
  LamportNodePy.node_id (LamportNodePy.node p) = self /\
  LamportNodePy.total_nodes (LamportNodePy.node p) = total /\
  replies_ok self total (LamportNodePy.replies_received (LamportNodePy.node p)).
Proof.
  cbn zeta. unfold LamportNodePy.run.
  assert (G : forall es p,
             LamportNodePy.node_id (LamportNodePy.node p) = self /\
             LamportNodePy.total_nodes (LamportNodePy.node p) = total /\
             replies_ok self total (LamportNodePy.replies_received (LamportNodePy.node p)) ->
             let p' := fold_left (fun q e => fst (LamportNodePy.step q e)) es p in
             LamportNodePy.node_id (LamportNodePy.node p') = self /\
             LamportNodePy.total_nodes (LamportNodePy.node p') = total /\
             replies_ok self total
               (LamportNodePy.replies_received (LamportNodePy.node p'))).
  { induction es0 as [|e es0 IH]; intros p H; cbn [fold_left]; [exact H|].
    apply IH. now apply lamport_node_replies_step. }
  apply G. keep_replies.
Qed.

(** X6: the replies a node has recorded are always ids of its peers, each
    recorded once; so when a node whose id is among the [total] ids moves
    to HELD, every one of its peers has answered its request.  In
    [combined_assignments.py] and in [lamport_node.py]. *)
Theorem X6_held_after_every_peer_replied (self total : Z) :
  0 <= self < total ->
  (forall (es : list CombinedLamport.Event) (e : CombinedLamport.Event),
      let p := CombinedLamport.run (CombinedLamport.start self total) es in
      replies_ok self total (CombinedLamport.replies_received (CombinedLamport.node p)) /\
      (CombinedLamport.state (CombinedLamport.node p) <> HELD ->
       CombinedLamport.state (CombinedLamport.node (fst (CombinedLamport.step p e))) = HELD ->
       forall i, 0 <= i < total -> i <> self ->
                 In i (CombinedLamport.replies_received (CombinedLamport.node p))))
  /\
  (forall (es : list LamportNodePy.Event) (e : LamportNodePy.Event),
      let p := LamportNodePy.run (LamportNodePy.start self total) es in
      replies_ok self total (LamportNodePy.replies_received (LamportNodePy.node p)) /\
      (LamportNodePy.state (LamportNodePy.node p) <> HELD ->
       LamportNodePy.state (LamportNodePy.node (fst (LamportNodePy.step p e))) = HELD ->
       forall i, 0 <= i < total -> i <> self ->
                 In i (LamportNodePy.replies_received (LamportNodePy.node p)))).
Proof.
  intros Hself. split.
  - intros es e p.
    destruct (combined_replies_run self total es) as (Hid & Htot & Hr). fold p in Hid, Htot, Hr.
    split; [exact Hr|]. intros Hnot Hheld.
    apply (replies_complete self total _ Hself Hr).
    destruct p as [[i tot ck q r st] c]. cbn in Hid, Htot, Hnot |- *. subst i tot.
    destruct e; cbn [CombinedLamport.step CombinedLamport.node CombinedLamport.pc] in Hheld.
    + unfold CombinedLamport.request_cs_prologue in Hheld. cbn in Hheld.
      destruct st; cbn in Hheld; congruence.
    + destruct c; cbn in Hheld; try contradiction.
      destruct (CombinedLamport.may_enter _) eqn:E; cbn in Hheld; try contradiction.
      unfold CombinedLamport.may_enter in E. cbn in E.
      apply andb_true_iff in E. destruct E as [E _]. now apply Z.eqb_eq in E.
    + destruct c; cbn in Hheld; try contradiction. discriminate.
    + cbn in Hheld. destruct (negb _); cbn in Hheld; contradiction.
    + cbn in Hheld. contradiction.
    + destruct (_ && _); cbn in Hheld; contradiction.
  - intros es e p.
    destruct (lamport_node_replies_run self total es) as (Hid & Htot & Hr).
    fold p in Hid, Htot, Hr.
    split; [exact Hr|]. intros Hnot Hheld.
    apply (replies_complete self total _ Hself Hr).
    destruct p as [[i tot ck q r st] c]. cbn in Hid, Htot, Hnot |- *. subst i tot.
    destruct e; cbn [LamportNodePy.step LamportNodePy.node LamportNodePy.pc] in Hheld.
    + destruct c; cbn in Hheld; try contradiction.
      destruct st, coin; cbn in Hheld; congruence.
    + destruct c; cbn in Hheld; try contradiction.
      destruct (NodeState_eqb st WANTED); cbn in Hheld; try contradiction.
      destruct (LamportNodePy.may_enter _) eqn:E; cbn in Hheld; try contradiction.
      unfold LamportNodePy.may_enter in E. cbn in E.
      apply andb_true_iff in E. destruct E as [E _]. now apply Z.eqb_eq in E.
    + destruct c; cbn in Hheld; try contradiction. discriminate.
    + cbn in Hheld. contradiction.
    + cbn in Hheld. contradiction.
    + destruct (Py.mem _ _); cbn in Hheld; contradiction.
Qed.

Lemma X6_witness :
  In 1 (CombinedLamport.replies_received
          (CombinedLamport.node
             (CombinedLamport.run (CombinedLamport.start 0 3)
                [CombinedLamport.CallRequestCS; CombinedLamport.ReplyArrived 2;
                 CombinedLamport.ReplyArrived 1]))).
Proof.
  apply (proj2 (proj1 (X6_held_after_every_peer_replied 0 3 ltac:(lia))
                      [CombinedLamport.CallRequestCS; CombinedLamport.ReplyArrived 2;
                       CombinedLamport.ReplyArrived 1] CombinedLamport.Poll)).
  - vm_compute. discriminate.
  - vm_compute. reflexivity.
  - lia.
  - discriminate.
Defined.

(** ** The cycle of states *)

Lemma combined_control_step (p : CombinedLamport.Proc) (e : CombinedLamport.Event) :
  combined_control p -> combined_control (fst (CombinedLamport.step p e)).
Proof.
  destruct p as [[i t ck q r s] c]. unfold combined_control.
  cbn [CombinedLamport.pc CombinedLamport.node CombinedLamport.state].
  intros H.
  destruct e; cbn [CombinedLamport.step CombinedLamport.node CombinedLamport.pc].
  - unfold CombinedLamport.request_cs_prologue. cbn.
    destruct s; cbn; auto; destruct c; auto; discriminate.
  - destruct c; cbn; auto.
    destruct (CombinedLamport.may_enter _); cbn; auto.
  - destruct c; cbn; auto.
  - cbn. destruct (negb _); cbn; auto.
  - cbn. auto.
  - destruct (_ && _); cbn; auto.
Qed.

Lemma combined_control_run (es : list CombinedLamport.Event) (p : CombinedLamport.Proc) :
  combined_control p -> combined_control (CombinedLamport.run p es).
Proof.
  revert p. induction es as [|e es IH]; intros p H; cbn [CombinedLamport.run fold_left].
  - exact H.
  - apply IH. now apply combined_control_step.
Qed.

Lemma lamport_node_control_step (p : LamportNodePy.Proc) (e : LamportNodePy.Event) :
  lamport_node_control p -> lamport_node_control (fst (LamportNodePy.step p e)).
Proof.
  destruct p as [[i t ck q r s] c]. unfold lamport_node_control.
  cbn [LamportNodePy.pc LamportNodePy.node LamportNodePy.state].
  intros H.
  destruct e; cbn [LamportNodePy.step LamportNodePy.node LamportNodePy.pc].
  - destruct c; cbn; auto. destruct (_ && _); cbn; auto. discriminate.
  - destruct c; cbn; auto. destruct (_ && _); cbn; auto.
  - destruct c; cbn; auto. discriminate.
  - cbn. auto.
  - cbn. auto.
  - destruct (Py.mem _ _); cbn; auto.
Qed.

Lemma lamport_node_control_run (es : list LamportNodePy.Event) (p : LamportNodePy.Proc) :
  lamport_node_control p -> lamport_node_control (LamportNodePy.run p es).
Proof.
  revert p. induction es as [|e es IH]; intros p H; cbn [LamportNodePy.run fold_left].
  - exact H.
  - apply IH. now apply lamport_node_control_step.
Qed.

(** X7: along every run from the initial node, a step leaves the state as
    it is or moves it one place along the cycle RELEASED, WANTED, HELD,
    RELEASED; no step skips a state or goes back.  In
    [combined_assignments.py] and in [lamport_node.py]. *)
Theorem X7_state_moves_along_the_cycle :
  (forall (self total : Z) (es : list CombinedLamport.Event) (e : CombinedLamport.Event),
      let p := CombinedLamport.run (CombinedLamport.start self total) es in
      let s := CombinedLamport.state (CombinedLamport.node p) in
      let s' := CombinedLamport.state (CombinedLamport.node (fst (CombinedLamport.step p e))) in
      s' = s \/ s' = next_state s)
  /\
  (forall (self total : Z) (es : list LamportNodePy.Event) (e : LamportNodePy.Event),
      let p := LamportNodePy.run (LamportNodePy.start self total) es in
      let s := LamportNodePy.state (LamportNodePy.node p) in
      let s' := LamportNodePy.state (LamportNodePy.node (fst (LamportNodePy.step p e))) in
      s' = s \/ s' = next_state s).
Proof.
  split.
  - intros self total es e p s s'.
    assert (Hc : combined_control p) by (apply combined_control_run; exact I).
    subst s s'. destruct p as [[i t ck q r st] c]. unfold combined_control in Hc.
    cbn [CombinedLamport.pc CombinedLamport.node CombinedLamport.state] in *.
    destruct e; cbn [CombinedLamport.step CombinedLamport.node CombinedLamport.pc].
    + unfold CombinedLamport.request_cs_prologue. cbn. destruct st; cbn; auto.
    + destruct c; cbn; auto.
      destruct (CombinedLamport.may_enter _); cbn; auto. subst st. now right.
    + destruct c; cbn; auto. subst st. now right.
    + cbn. destruct (negb _); cbn; auto.
    + cbn. auto.
    + destruct (_ && _); cbn; auto.
  - intros self total es e p s s'.
    assert (Hc : lamport_node_control p)
      by (apply lamport_node_control_run; discriminate).
    subst s s'. destruct p as [[i t ck q r st] c]. unfold lamport_node_control in Hc.
    cbn [LamportNodePy.pc LamportNodePy.node LamportNodePy.state] in *.
    destruct e; cbn [LamportNodePy.step LamportNodePy.node LamportNodePy.pc].
    + destruct c; cbn; auto. destruct st, coin; cbn; auto.
    + destruct c; cbn; auto. destruct st; cbn; auto.
      destruct (LamportNodePy.may_enter _); cbn; auto.
    + destruct c; cbn; auto. rewrite (Hc eq_refl). now right.
    + cbn. auto.
    + cbn. auto.
    + destruct (Py.mem _ _); cbn; auto.
Qed.

(** ** [broadcast_request] of [code/node.py] *)

Lemma set_keys (k : Z) (v : string * Z) (d : list (Z * (string * Z))) :
  map fst (Py.set Z.eqb d k v) = if Py.mem k (map fst d) then map fst d
                                 else map fst d ++ [k].
Proof.
  induction d as [|[k' v'] d IH]; cbn [Py.set map fst Py.mem existsb]; [reflexivity|].
  unfold Py.mem in *. cbn [existsb].
  destruct (k =? k') eqn:E; cbn [orb map fst]; [reflexivity|].
  rewrite IH. now destruct (existsb (Z.eqb k) (map fst d)).
Qed.

Lemma table_keys_NoDup (cfg : list (Z * (string * Z))) (d : list (Z * (string * Z))) :
  NoDup (map fst d) ->
  NoDup (map fst (fold_left (fun d n => Py.set Z.eqb d (fst n) (snd n)) cfg d)).
Proof.
  revert d. induction cfg as [|[k v] cfg IH]; intros d H; cbn [fold_left]; [exact H|].
  apply IH. cbn [fst snd]. rewrite set_keys.
  destruct (Py.mem k (map fst d)) eqn:E; [exact H|].
  apply NoDup_app; [exact H | repeat constructor; intros [] |].
  intros y Hy [<-|[]]. apply mem_In in Hy. congruence.
Qed.

Lemma get_In_keys (d : list (Z * (string * Z))) (k : Z) :
  Py.contains Z.eqb d k = true <-> In k (map fst d).
Proof.
  unfold Py.contains. induction d as [|[k' v'] d IH]; cbn [Py.get map fst In].
  - split; [discriminate | contradiction].
  - destruct (k =? k') eqn:E.
    + apply Z.eqb_eq in E. subst. split; auto.
    + apply Z.eqb_neq in E. rewrite IH. split; [auto | intros [H|H]; congruence].
Qed.

(** The peer table built by [NodePy.init]: distinct ids, the node's own
    among them. *)
Lemma node_init_table (nid : Z) (cfg : list (Z * (string * Z))) (n : NodePy.LamportNode) :
  NodePy.init nid cfg = Some n ->
  NodePy.id n = nid /\ NoDup (map fst (NodePy.nodes n)) /\
  In nid (map fst (NodePy.nodes n)).
Proof.
  unfold NodePy.init.
  destruct (Py.contains _ _ _) eqn:E; [|discriminate].
  intros H. injection H as <-. cbn. repeat split.
  - apply table_keys_NoDup. constructor.
  - now apply get_In_keys.
Qed.

Lemma count_up (up : Z -> bool) (l : list Z) (m : NodePy.LamportNode) :
  NodePy.ack_count
    (fold_left (fun m nid => if up nid then NodePy.set_ack_count m (NodePy.ack_count m + 1)
                             else m) l m)
  = NodePy.ack_count m + Py.len (filter up l).
Proof.
  unfold Py.len. revert m. induction l as [|x l IH]; intros m; cbn [fold_left filter].
  - cbn. lia.
  - rewrite IH. destruct (up x); cbn [NodePy.ack_count NodePy.set_ack_count List.length]; lia.
Qed.

Lemma filter_all_length {A : Type} (f : A -> bool) (l : list A) :
  (List.length (filter f l) <= List.length l)%nat /\
  (List.length (filter f l) = List.length l <-> forallb f l = true).
Proof.
  induction l as [|x l [IHle IHeq]]; cbn [filter forallb List.length].
  - split; [lia | tauto].
  - destruct (f x); cbn [List.length andb]; (split; [lia|]).
    + rewrite <- IHeq. lia.
    + split; [lia | discriminate].
Qed.

(** X8: [broadcast_request] of a node constructed by [__init__] counts one
    acknowledgement per peer whose call returned, and answers [True]
    exactly when the call to every peer returned. *)
Theorem X8_broadcast_request_counts_acks
  (nid : Z) (cfg : list (Z * (string * Z))) (n : NodePy.LamportNode)
  (clock : Z) (queue : list (Z * Z)) (acks ts : Z) (up : Z -> bool) :
  NodePy.init nid cfg = Some n ->
  let m := NodePy.mkNode (NodePy.id n) (NodePy.nodes n) clock queue acks in
  let r := NodePy.broadcast_request m ts up in
  NodePy.ack_count (fst (fst r)) = Py.len (filter up (NodePy.peers m)) /\
  snd (fst r) = forallb up (NodePy.peers m) /\
  map fst (snd r) = NodePy.peers m.
Proof.
  intros Hinit m r.
  destruct (node_init_table nid cfg n Hinit) as (Hid & Hnd & Hin).
  assert (Hpeers : Z.of_nat (List.length (NodePy.peers m)) = Py.len (NodePy.nodes m) - 1).
  { unfold NodePy.peers, Py.len. cbn [NodePy.id NodePy.nodes m].
    rewrite Hid.
    pose proof (filter_out_length nid _ Hnd Hin) as E. rewrite length_map in E. lia. }
  pose proof (node_broadcast_request_frame m ts up) as (Ei & En & _ & _).
  subst r. unfold NodePy.broadcast_request in *. cbn [fst snd] in *.
  rewrite count_up. cbn [NodePy.ack_count NodePy.set_ack_count].
  change (NodePy.peers (NodePy.set_ack_count m 0)) with (NodePy.peers m) in *.
  split; [lia | split].
  - rewrite En, <- Hpeers.
    destruct (filter_all_length up (NodePy.peers m)) as [Hle Heq].
    unfold Py.len.
    destruct (forallb up (NodePy.peers m)).
    + apply Z.leb_le. destruct Heq as [_ Heq]. specialize (Heq eq_refl). lia.
    + apply Z.leb_gt.
      assert (List.length (filter up (NodePy.peers m)) <> List.length (NodePy.peers m))
        by (intros C; apply Heq in C; discriminate).
      lia.
  - rewrite map_map. cbn [fst]. rewrite map_id.
    unfold NodePy.peers at 1. now rewrite En, Ei.
Qed.

Lemma X8_witness :
  let r := NodePy.broadcast_request (NodePy.mkNode 1 two_nodes 0 [] 5) 1 (fun _ => true) in
  NodePy.ack_count (fst (fst r)) = 1 /\ snd (fst r) = true /\ map fst (snd r) = [2].
Proof.
  apply (X8_broadcast_request_counts_acks 1 two_nodes
           (NodePy.mkNode 1 two_nodes 0 [] 0) 0 [] 5 1 (fun _ => true)).
  reflexivity.
Defined.

(** ** Two nodes at once *)

(** X9: the protocol of [combined_assignments.py] does not keep two nodes
    out of the critical section at the same time: with two nodes that both
    request, node 1 can be served and enter before the request of node 0
    reaches it, and node 0, whose request is first in its own queue, enters
    as soon as node 1 has answered; both are then HELD.  Replies are never
    deferred, and a node only looks at its own queue. *)
Theorem X9_two_nodes_can_both_be_held :
  exists sched : list CombinedSystem.Action,
    CombinedSystem.states (CombinedSystem.run (CombinedSystem.start 2) sched)
    = [HELD; HELD].
Proof.
  exists [CombinedSystem.Do 0 CombinedSystem.Request;
          CombinedSystem.Do 1 CombinedSystem.Request;
          CombinedSystem.Serve 1; CombinedSystem.Answer 0;
          CombinedSystem.Do 1 CombinedSystem.PollOnce;
          CombinedSystem.Serve 0; CombinedSystem.Answer 0;
          CombinedSystem.Do 0 CombinedSystem.PollOnce].
  vm_compute. reflexivity.
Qed.

(* ================================================================== *)
(** * Further properties of the agreement nodes *)

(** ** [Counter] and [most_common(1)] *)

Lemma count_in_add (c : list (string * Z)) (x v : string) :
  count_in (Py.counter_add c x) v
  = count_in c v + (if String.eqb v x then 1 else 0).
Proof.
  unfold count_in. induction c as [|[y k] c IH]; cbn [Py.counter_add Py.get].
  - destruct (String.eqb v x); lia.
  - destruct (String.eqb x y) eqn:Exy; cbn [Py.get].
    + apply String.eqb_eq in Exy. subst y.
      destruct (String.eqb v x); lia.
    + destruct (String.eqb v y) eqn:Evy; [|exact IH].
      apply String.eqb_eq in Evy. subst y.
      rewrite String.eqb_sym in Exy. rewrite Exy. lia.
Qed.

Lemma count_in_fold (l : list string) (c : list (string * Z)) (v : string) :
  count_in (fold_left Py.counter_add l c) v = count_in c v + occurrences v l.
Proof.
  revert c. induction l as [|x l IH]; intros c; cbn [fold_left].
  - unfold occurrences, Py.len. cbn. lia.
  - rewrite IH, count_in_add, occurrences_cons. lia.
Qed.

Lemma counter_add_keys (c : list (string * Z)) (x : string) :
  NoDup (map fst c) ->
  NoDup (map fst (Py.counter_add c x)) /\
  (forall v, In v (map fst (Py.counter_add c x)) <-> v = x \/ In v (map fst c)).
Proof.
  induction c as [|[y k] c IH]; cbn [Py.counter_add map fst]; intros H.
  - split; [repeat constructor; intros [] | intros v; cbn; intuition].
  - inversion H as [|? ? Hy Hc]; subst.
    destruct (String.eqb x y) eqn:E; cbn [map fst].
    + apply String.eqb_eq in E. subst y. split; [exact H|].
      intros v. cbn. intuition.
    + destruct (IH Hc) as [Hnd Hin]. split.
      * constructor; [|exact Hnd]. rewrite Hin. intros [->|Hv]; [|contradiction].
        rewrite String.eqb_refl in E. discriminate.
      * intros v. cbn. rewrite Hin. intuition.
Qed.

Lemma counter_keys (l : list string) (c : list (string * Z)) :
  NoDup (map fst c) ->
  NoDup (map fst (fold_left Py.counter_add l c)) /\
  (forall v, In v (map fst (fold_left Py.counter_add l c)) <-> In v l \/ In v (map fst c)).
Proof.
  revert c. induction l as [|x l IH]; intros c H; cbn [fold_left].
  - split; [exact H | intros v; cbn; intuition].
  - destruct (counter_add_keys c x H) as [Hnd Hin].
    destruct (IH _ Hnd) as [Hnd' Hin']. split; [exact Hnd'|].
    intros v. rewrite Hin', Hin. cbn. intuition.
Qed.

(** In a counter with distinct keys an entry holds the count of its key. *)
Lemma count_in_entry (c : list (string * Z)) (v : string) (k : Z) :
  NoDup (map fst c) -> In (v, k) c -> count_in c v = k.
Proof.
  unfold count_in. induction c as [|[y j] c IH]; cbn [map fst Py.get]; intros H Hin.
  - contradiction.
  - inversion H as [|? ? Hy Hc]; subst. destruct Hin as [E|Hin].
    + injection E as -> ->. now rewrite String.eqb_refl.
    + destruct (String.eqb v y) eqn:E; [|now apply IH].
      apply String.eqb_eq in E. subst y. exfalso. apply Hy.
      apply in_map_iff. now exists (v, k).
Qed.

Lemma max_by_count_spec (best : string * Z) (l : list (string * Z)) :
  In (Py.max_by_count best l) (best :: l) /\
  forall e, In e (best :: l) -> snd e <= snd (Py.max_by_count best l).
Proof.
  revert best. induction l as [|x l IH]; intros best; cbn [Py.max_by_count].
  - split; [now left | intros e [<-|[]]; lia].
  - destruct (IH (if snd best <? snd x then x else best)) as [Hin Hmax]. split.
    + destruct Hin as [E|Hin]; [|now right; right].
      rewrite <- E. destruct (snd best <? snd x); [right; now left | now left].
    + intros e [<-|[<-|He]].
      * etransitivity; [|apply Hmax; now left].
        destruct (snd best <? snd x) eqn:E; [apply Z.ltb_lt in E|]; lia.
      * etransitivity; [|apply Hmax; now left].
        destruct (snd best <? snd x) eqn:E; [|apply Z.ltb_ge in E]; lia.
      * apply Hmax. now right.
Qed.

(** What [Counter(values).most_common(1)] holds for a non-empty list: a
    value of the list with its number of occurrences, no value occurring
    more often. *)
Lemma most_common1_spec (x : string) (l : list string) :
  exists r,
    Py.most_common1 (Py.Counter (x :: l)) = [(r, occurrences r (x :: l))] /\
    In r (x :: l) /\
    forall v, occurrences v (x :: l) <= occurrences r (x :: l).
Proof.
  set (vals := x :: l).
  destruct (counter_keys vals [] (NoDup_nil _)) as [Hnd Hkeys].
  fold (Py.Counter vals) in Hnd, Hkeys.
  assert (Hcount : forall v, count_in (Py.Counter vals) v = occurrences v vals).
  { intros v. unfold Py.Counter. now rewrite count_in_fold. }
  assert (Hentry : forall e, In e (Py.Counter vals) ->
                             snd e = occurrences (fst e) vals /\ In (fst e) vals).
  { intros [v k] He. cbn. split.
    - rewrite <- Hcount. symmetry. now apply count_in_entry.
    - assert (Hv : In v (map fst (Py.Counter vals)))
        by (apply in_map_iff; now exists (v, k)).
      apply Hkeys in Hv. destruct Hv as [Hv|[]]. exact Hv. }
  destruct (Py.Counter vals) as [|b c] eqn:Ec.
  { exfalso. assert (Hx : In x (map fst (@nil (string * Z)))).
    { apply Hkeys. left. now left. }
    contradiction. }
  cbn [Py.most_common1].
  destruct (max_by_count_spec b c) as [Hin Hmax].
  destruct (Hentry _ Hin) as [Hsnd Hfst].
  exists (fst (Py.max_by_count b c)). repeat split.
  - f_equal. rewrite <- Hsnd. now destruct (Py.max_by_count b c).
  - exact Hfst.
  - intros v. destruct (Py.get String.eqb (b :: c) v) as [k|] eqn:G.
    + assert (Hv : In (v, k) (b :: c)).
      { clear - G. induction (b :: c) as [|[y j] t IH]; cbn [Py.get] in G; [discriminate|].
        destruct (String.eqb v y) eqn:E.
        - apply String.eqb_eq in E. subst y. injection G as ->. now left.
        - right. now apply IH. }
      rewrite <- Hsnd. specialize (Hmax _ Hv). cbn in Hmax.
      rewrite <- (Hcount v). unfold count_in. now rewrite G.
    + rewrite <- (Hcount v). unfold count_in. rewrite G.
      rewrite <- Hsnd. etransitivity; [|apply (Hmax b); now left].
      destruct (Hentry b (or_introl eq_refl)) as [Hb _]. rewrite Hb.
      apply occurrences_nonneg.
Qed.

Lemma occurrences_two (v w : string) (l : list string) :
  v <> w -> occurrences v l + occurrences w l <= Py.len l.
Proof.
  intros Hne. induction l as [|x l IH].
  - unfold occurrences, Py.len. cbn. lia.
  - rewrite !occurrences_cons. unfold Py.len in *. cbn [List.length].
    destruct (String.eqb v x) eqn:Ev, (String.eqb w x) eqn:Ew; try lia.
    apply String.eqb_eq in Ev, Ew. congruence.
Qed.

(** [_majority] on a non-empty list. *)
Lemma majority_spec (x : string) (l : list string) :
  let r := CombinedByzantine._majority (x :: l) in
  In r (x :: l) /\
  (forall v, occurrences v (x :: l) <= occurrences r (x :: l)) /\
  (forall v, Py.len (x :: l) < 2 * occurrences v (x :: l) -> r = v).
Proof.
  intros r.
  destruct (most_common1_spec x l) as (r' & Hmc & Hin & Hmax).
  assert (Er : r = r').
  { subst r. unfold CombinedByzantine._majority. now rewrite Hmc. }
  rewrite Er. repeat split; auto.
  intros v Hv. destruct (String.eqb r' v) eqn:E; [now apply String.eqb_eq|].
  apply String.eqb_neq in E.
  pose proof (occurrences_two r' v (x :: l) E). specialize (Hmax v). lia.
Qed.



(** ** [decide] *)

(** X11: in [combined_assignments.py], when [decide] with [m <> 0] has
    collected its values (the direct one and one per other lieutenant) and
    more than half of them are [v], a lieutenant decides [v]; with [m = 0]
    it decides the first value it received from the commander. *)
Theorem X11_decide_follows_the_majority
  (n : CombinedByzantine.ByzantineNode) (m commander_id : Z) :
  CombinedByzantine.id n <> commander_id ->
  (forall (vs : list string) (v : string),
      m <> 0 ->
      CombinedByzantine.all_values n commander_id = Some vs ->
      Py.len vs < 2 * occurrences v vs ->
      CombinedByzantine.decide n m commander_id
      = Some (CombinedByzantine.set_final_decision n (Some v)))
  /\
  (forall (v : string) (later : list string),
      m = 0 ->
      Py.get String.eqb (CombinedByzantine.messages n) (Py.str commander_id)
      = Some (v :: later) ->
      CombinedByzantine.decide n m commander_id
      = Some (CombinedByzantine.set_final_decision n (Some v))).
Proof.
  intros Hid. apply Z.eqb_neq in Hid. split.
  - intros vs v Hm Hvs Hmaj. unfold CombinedByzantine.decide.
    rewrite Hid. apply Z.eqb_neq in Hm. rewrite Hm, Hvs.
    cbn [CombinedByzantine.bind]. do 3 f_equal.
    destruct vs as [|x l].
    + unfold occurrences, Py.len in Hmaj. cbn in Hmaj. lia.
    + now apply (majority_spec x l).
  - intros v later -> Hget. unfold CombinedByzantine.decide.
    rewrite Hid. cbn [Z.eqb]. unfold CombinedByzantine.first_stored, Py.get_default.
    rewrite Hget. reflexivity.
Qed.

Lemma X11_witness :
  CombinedByzantine.decide
    (CombinedByzantine.mkNode 2 4 false
       [("0", [ATTACK; ATTACK]); ("0->1", [ATTACK]); ("0->3", [RETREAT])] None) 1 0
  = Some (CombinedByzantine.set_final_decision
            (CombinedByzantine.mkNode 2 4 false
               [("0", [ATTACK; ATTACK]); ("0->1", [ATTACK]); ("0->3", [RETREAT])] None)
            (Some ATTACK)).
Proof.
  apply (proj1 (X11_decide_follows_the_majority
                  (CombinedByzantine.mkNode 2 4 false
                     [("0", [ATTACK; ATTACK]); ("0->1", [ATTACK]); ("0->3", [RETREAT])] None)
                  1 0 ltac:(discriminate))
               [ATTACK; ATTACK; RETREAT] ATTACK);
    [discriminate | reflexivity | reflexivity].
Defined.

(** ** [decide] never raises *)

Section DictMore.
Context {K V : Type} (eqb : K -> K -> bool).

Lemma set_Forall (Q : V -> Prop) (d : list (K * V)) (k : K) (v : V) :
  Forall (fun kv => Q (snd kv)) d -> Q v ->
  Forall (fun kv => Q (snd kv)) (Py.set eqb d k v).
Proof.
  induction 1 as [|[k' v'] d Hkv Hd IH]; intros Hv; cbn [Py.set].
  - repeat constructor. exact Hv.
  - destruct (eqb k k'); constructor; auto.
Qed.

Lemma get_Forall (Q : V -> Prop) (d : list (K * V)) (k : K) (v : V) :
  Forall (fun kv => Q (snd kv)) d -> Py.get eqb d k = Some v -> Q v.
Proof.
  induction 1 as [|[k' v'] d Hkv Hd IH]; cbn [Py.get]; [discriminate|].
  destruct (eqb k k'); [|exact IH]. intros E. injection E as <-. exact Hkv.
Qed.

End DictMore.

Lemma snoc_not_nil {A : Type} (l : list A) (x : A) : l ++ [x] <> [].
Proof. intros E. apply app_eq_nil in E. destruct E as [_ E]. discriminate. Qed.

Lemma index0_some {A : Type} (l : list A) : l <> [] -> exists x, Py.index0 l = Some x.
Proof. destruct l as [|x l]; [congruence | now exists x]. Qed.


Lemma combined_first_stored_some (n : CombinedByzantine.ByzantineNode) (key : string) :
  lists_nonempty (CombinedByzantine.messages n) ->
  exists v, CombinedByzantine.first_stored n key = Some v.
Proof.
  intros H. unfold CombinedByzantine.first_stored, Py.get_default.
  destruct (Py.get String.eqb (CombinedByzantine.messages n) key) as [l|] eqn:G.
  - apply index0_some.
    exact (get_Forall String.eqb (fun l => l <> []) _ _ _ H G).
  - now exists RETREAT.
Qed.

Lemma mapM_some {A B : Type} (g : A -> option B) (l : list A) :
  (forall a, exists b, g a = Some b) ->
  exists bs, CombinedByzantine.mapM g l = Some bs /\ List.length bs = List.length l.
Proof.
  intros H. induction l as [|a l (bs & E & Hl)]; cbn [CombinedByzantine.mapM].
  - now exists [].
  - destruct (H a) as (b & Eb). rewrite Eb, E. cbn [CombinedByzantine.bind].
    exists (b :: bs). cbn. now rewrite Hl.
Qed.









(** ** What is stored stays *)

Section DictOther.
Context {K V : Type} (eqb : K -> K -> bool).
Hypothesis eqb_eq : forall a b, eqb a b = true <-> a = b.

Lemma get_set_other (d : list (K * V)) (k k' : K) (v : V) :
  k <> k' -> Py.get eqb (Py.set eqb d k' v) k = Py.get eqb d k.
Proof.
  intros Hne. induction d as [|[k1 v1] d IH]; cbn [Py.set Py.get].
  - destruct (eqb k k') eqn:E; [apply eqb_eq in E; contradiction | reflexivity].
  - destruct (eqb k' k1) eqn:E1; cbn [Py.get].
    + apply eqb_eq in E1. subst k1.
      destruct (eqb k k') eqn:E; [apply eqb_eq in E; contradiction | reflexivity].
    + destruct (eqb k k1); [reflexivity | exact IH].
Qed.

Lemma eqb_of_eq (k : K) : eqb k k = true.
Proof. now apply eqb_eq. Qed.

Lemma eq_dec_of_eqb (a b : K) : a = b \/ a <> b.
Proof.
  destruct (eqb a b) eqn:E; [left; now apply eqb_eq|].
  right. intros H. apply eqb_eq in H. congruence.
Qed.

End DictOther.

Lemma list_eqb_eq (a b : list Z) : Py.list_eqb a b = true <-> a = b.
Proof.
  revert b. induction a as [|x a IH]; intros [|y b]; cbn [Py.list_eqb];
    try (split; [discriminate | discriminate]); try tauto.
  rewrite andb_true_iff, Z.eqb_eq, IH. split; [intros [-> ->]; reflexivity|].
  intros E. injection E as -> ->. now split.
Qed.

Lemma key_eqb_eq (a b : list LieutenantPy.Elem) :
  LieutenantPy.key_eqb a b = true <-> a = b.
Proof.
  revert b. induction a as [|x a IH]; intros [|y b]; cbn [LieutenantPy.key_eqb];
    try (split; [discriminate | discriminate]); try tauto.
  rewrite andb_true_iff, IH. split.
  - intros [E ->]. f_equal. destruct x, y; cbn in E; try discriminate; [reflexivity|].
    apply Z.eqb_eq in E. now subst.
  - intros E. injection E as -> ->. split; [|reflexivity].
    destruct y; cbn; [reflexivity | apply Z.eqb_refl].
Qed.

Lemma combined_receive_keeps_first (n : CombinedByzantine.ByzantineNode)
  (path : list Z) (order key v : string) (rest : list string) :
  Py.get String.eqb (CombinedByzantine.messages n) key = Some (v :: rest) ->
  exists rest',
    Py.get String.eqb
           (CombinedByzantine.messages (fst (CombinedByzantine.receive_message n path order)))
           key = Some (v :: rest').
Proof.
  intros H. cbn [CombinedByzantine.receive_message fst CombinedByzantine.messages
                 CombinedByzantine.set_messages].
  destruct (eq_dec_of_eqb String.eqb String.eqb_eq key (CombinedByzantine.path_str path))
    as [E|E].
  - subst key. rewrite get_set_same by apply String.eqb_refl.
    unfold Py.get_default. rewrite H. now exists (rest ++ [order]).
  - rewrite (get_set_other String.eqb String.eqb_eq) by exact E. now exists rest.
Qed.

Lemma byzantine_node_receive_keeps_first (n : ByzantineNodePy.Lieutenant) (c : Z)
  (order : string) (path key : list Z) (v : string) (rest : list string) :
  Py.get Py.list_eqb (ByzantineNodePy.messages n) key = Some (v :: rest) ->
  exists rest',
    Py.get Py.list_eqb
           (ByzantineNodePy.messages
              (fst (fst (ByzantineNodePy.receive_order n c order path))))
           key = Some (v :: rest').
Proof.
  intros H. unfold ByzantineNodePy.receive_order.
  set (pk := Py.sort Z.ltb path).
  set (o := if ByzantineNodePy.is_traitor n then _ else order).
  assert (G : exists rest',
             Py.get Py.list_eqb
               (Py.set Py.list_eqb
                  (if negb (Py.contains Py.list_eqb (ByzantineNodePy.messages n) pk)
                   then Py.set Py.list_eqb (ByzantineNodePy.messages n) pk []
                   else ByzantineNodePy.messages n) pk
                  (Py.get_default Py.list_eqb
                     (if negb (Py.contains Py.list_eqb (ByzantineNodePy.messages n) pk)
                      then Py.set Py.list_eqb (ByzantineNodePy.messages n) pk []
                      else ByzantineNodePy.messages n) pk [] ++ [o])) key
             = Some (v :: rest')).
  { destruct (eq_dec_of_eqb Py.list_eqb list_eqb_eq key pk) as [E|E].
    - subst key. rewrite get_set_same by apply list_eqb_refl.
      unfold Py.contains. rewrite H. cbn [negb]. unfold Py.get_default. rewrite H.
      now exists (rest ++ [o]).
    - rewrite (get_set_other Py.list_eqb list_eqb_eq) by exact E.
      destruct (negb _); [|now exists rest].
      rewrite (get_set_other Py.list_eqb list_eqb_eq) by exact E. now exists rest. }
  destruct (Py.len path <=? ByzantineNodePy.m);
    cbn [fst ByzantineNodePy.messages ByzantineNodePy.set_messages]; exact G.
Qed.

Lemma lieutenant_receive_keeps (n : LieutenantPy.Lieutenant) (value : string)
  (path : list Z) (key : list LieutenantPy.Elem) (v : string) :
  Py.get LieutenantPy.key_eqb (LieutenantPy.msgs n) key = Some v ->
  Py.get LieutenantPy.key_eqb
         (LieutenantPy.msgs (fst (fst (LieutenantPy.receive_message n value path)))) key
  = Some v.
Proof.
  intros H. unfold LieutenantPy.receive_message.
  destruct (Py.contains _ _ _) eqn:Ec; cbn [negb fst]; [exact H|].
  assert (Hne : key <> map LieutenantPy.Id path).
  { intros ->. unfold Py.contains in Ec. rewrite H in Ec. discriminate. }
  destruct (Py.len path <? _); cbn [fst LieutenantPy.msgs LieutenantPy.set_msgs];
    now rewrite (get_set_other LieutenantPy.key_eqb key_eqb_eq).
Qed.

(** X13: the value a node has stored first for a relay path is the one it
    keeps: whatever calls it serves afterwards, the first element of the
    list under that key in [combined_assignments.py] and in
    [byzantine_node.py], and the value under that key in
    [code/lieutenant.py], stay what they were, whichever path the later
    calls carry.  Only [receive_initial_order] of [code/lieutenant.py]
    overwrites: a second initial order replaces the first. *)
Theorem X13_first_stored_value_is_kept :
  (forall (n : CombinedByzantine.ByzantineNode) (ds : list (list Z * string))
          (key v : string) (rest : list string),
      Py.get String.eqb (CombinedByzantine.messages n) key = Some (v :: rest) ->
      CombinedByzantine.first_stored (combined_deliveries n ds) key = Some v)
  /\
  (forall (n : ByzantineNodePy.Lieutenant) (ds : list (Z * string * list Z))
          (key : list Z) (v : string) (rest : list string),
      Py.get Py.list_eqb (ByzantineNodePy.messages n) key = Some (v :: rest) ->
      exists rest',
        Py.get Py.list_eqb (ByzantineNodePy.messages (byzantine_node_deliveries n ds)) key
        = Some (v :: rest'))
  /\
  (forall (n : LieutenantPy.Lieutenant) (ds : list (string * list Z))
          (key : list LieutenantPy.Elem) (v : string),
      Py.get LieutenantPy.key_eqb (LieutenantPy.msgs n) key = Some v ->
      Py.get LieutenantPy.key_eqb (LieutenantPy.msgs (lieutenant_deliveries n ds)) key
      = Some v)
  /\
  (forall (n : LieutenantPy.Lieutenant) (first second : string),
      Py.get LieutenantPy.key_eqb
             (LieutenantPy.msgs
                (fst (fst (LieutenantPy.receive_initial_order
                             (fst (fst (LieutenantPy.receive_initial_order n first)))
                             second))))
             [LieutenantPy.C; LieutenantPy.Id (LieutenantPy.id n)]
      = Some second).
Proof.
  repeat apply conj.
  - intros n ds key v rest H.
    assert (G : exists rest', Py.get String.eqb
                  (CombinedByzantine.messages (combined_deliveries n ds)) key
                = Some (v :: rest')).
    { unfold combined_deliveries. revert n rest H.
      induction ds as [|d ds IH]; intros n rest H; cbn [fold_left]; [now exists rest|].
      destruct (combined_receive_keeps_first n (fst d) (snd d) key v rest H) as (r & Hr).
      exact (IH _ _ Hr). }
    destruct G as (rest' & G).
    unfold CombinedByzantine.first_stored, Py.get_default. now rewrite G.
  - intros n ds key v rest H. unfold byzantine_node_deliveries. revert n rest H.
    induction ds as [|d ds IH]; intros n rest H; cbn [fold_left]; [now exists rest|].
    destruct (byzantine_node_receive_keeps_first n (fst (fst d)) (snd (fst d)) (snd d)
                key v rest H) as (r & Hr).
    exact (IH _ _ Hr).
  - intros n ds key v H. unfold lieutenant_deliveries. revert n H.
    induction ds as [|d ds IH]; intros n H; cbn [fold_left]; [exact H|].
    apply IH. now apply lieutenant_receive_keeps.
  - intros n first second. unfold LieutenantPy.receive_initial_order.
    cbn [fst LieutenantPy.msgs LieutenantPy.set_msgs LieutenantPy.id].
    apply get_set_same, key_eqb_refl.
Qed.

Lemma X13_witness :
  CombinedByzantine.first_stored
    (combined_deliveries
       (CombinedByzantine.mkNode 1 4 false [("0", [ATTACK])] None)
       [([0], RETREAT); ([0; 2], RETREAT)]) "0"
  = Some ATTACK.
Proof.
  apply (proj1 X13_first_stored_value_is_kept
               (CombinedByzantine.mkNode 1 4 false [("0", [ATTACK])] None)
               [([0], RETREAT); ([0; 2], RETREAT)] "0" ATTACK []).
  reflexivity.
Defined.

(** ** Loyal and disloyal relays *)

Lemma string_length_append (a b : string) :
  String.length (a ++ b)%string = (String.length a + String.length b)%nat.
Proof. induction a as [|c a IH]; cbn; [reflexivity | now rewrite IH]. Qed.

Lemma append_byz_differs (v : string) : (v ++ "_BYZ")%string <> v.
Proof.
  intros E. apply (f_equal String.length) in E.
  rewrite string_length_append in E. cbn in E. lia.
Qed.

Lemma flip_differs (v : string) :
  CombinedByzantine.flip v <> v /\
  (CombinedByzantine.flip v = ATTACK \/ CombinedByzantine.flip v = RETREAT).
Proof.
  unfold CombinedByzantine.flip. destruct (String.eqb v ATTACK) eqn:E.
  - apply String.eqb_eq in E. subst. split; [discriminate | now right].
  - apply String.eqb_neq in E. split; [congruence | now left].
Qed.

Lemma maybe_corrupt_differs (n : LieutenantPy.Lieutenant) (v : string) :
  LieutenantPy.byzantine n = true -> LieutenantPy._maybe_corrupt n v <> v.
Proof.
  intros Hb. unfold LieutenantPy._maybe_corrupt. rewrite Hb. cbn [negb].
  destruct (String.eqb v "ATTACK") eqn:Ea.
  - apply String.eqb_eq in Ea. subst. discriminate.
  - destruct (String.eqb v "RETREAT") eqn:Er.
    + apply String.eqb_eq in Er. subst. discriminate.
    + apply append_byz_differs.
Qed.

(** X14: a loyal node passes on exactly the value it has: every call of
    [execute_om] in [combined_assignments.py], every forward of
    [receive_message] and [receive_initial_order] in [code/lieutenant.py]
    and of [receive_order] in [byzantine_node.py] carries it unchanged.  A
    disloyal node never passes it on unchanged where it lies: in
    [code/lieutenant.py] and [byzantine_node.py] every forward differs from
    the value received, whatever string that is, and in
    [combined_assignments.py] so does every call to a peer with an even
    id, which carries ATTACK or RETREAT. *)
Theorem X14_loyal_relays_are_faithful (v : string) :
  (forall (n : CombinedByzantine.ByzantineNode) (m : Z) (path : list Z)
          (call : Z * (list Z * string)),
      In call (CombinedByzantine.execute_om n m path v) ->
      fst (snd call) = path /\
      (CombinedByzantine.is_traitor n = false -> snd (snd call) = v) /\
      (CombinedByzantine.is_traitor n = true -> fst call mod 2 = 0 ->
       snd (snd call) <> v /\ (snd (snd call) = ATTACK \/ snd (snd call) = RETREAT)))
  /\
  (forall (n : LieutenantPy.Lieutenant) (path : list Z) (fw : LieutenantPy.Forward),
      In fw (snd (LieutenantPy.receive_message n v path)) \/
      In fw (snd (LieutenantPy.receive_initial_order n v)) ->
      (LieutenantPy.byzantine n = false -> LieutenantPy.fw_value fw = v) /\
      (LieutenantPy.byzantine n = true -> LieutenantPy.fw_value fw <> v))
  /\
  (forall (n : ByzantineNodePy.Lieutenant) (c : Z) (path : list Z)
          (fw : ByzantineNodePy.Forward),
      In fw (snd (ByzantineNodePy.receive_order n c v path)) ->
      (ByzantineNodePy.is_traitor n = false -> ByzantineNodePy.fw_order fw = v) /\
      (ByzantineNodePy.is_traitor n = true -> ByzantineNodePy.fw_order fw <> v)).
Proof.
  repeat apply conj.
  - intros n m path call Hin. unfold CombinedByzantine.execute_om in Hin.
    apply in_map_iff in Hin. destruct Hin as (lt_id & <- & _). cbn [fst snd].
    unfold CombinedByzantine.current_order. repeat split.
    + intros ->. reflexivity.
    + rewrite H. cbn [andb]. apply Z.eqb_eq in H0. rewrite H0. apply flip_differs.
    + rewrite H. cbn [andb]. apply Z.eqb_eq in H0. rewrite H0. apply flip_differs.
  - intros n path fw Hin.
    assert (Hv : LieutenantPy.fw_value fw = LieutenantPy._maybe_corrupt n v).
    { destruct Hin as [Hin|Hin].
      - unfold LieutenantPy.receive_message in Hin.
        destruct (negb _); [|contradiction].
        destruct (Py.len path <? _); [|contradiction].
        cbn [snd] in Hin. unfold LieutenantPy._forward_message in Hin.
        apply in_map_iff in Hin. now destruct Hin as (lid & <- & _).
      - unfold LieutenantPy.receive_initial_order in Hin. cbn [snd] in Hin.
        unfold LieutenantPy._om_recursive in Hin.
        destruct (_ <=? 0); [contradiction|].
        apply in_map_iff in Hin. now destruct Hin as (lid & <- & _). }
    rewrite Hv. split.
    + intros Hb. unfold LieutenantPy._maybe_corrupt. now rewrite Hb.
    + apply maybe_corrupt_differs.
  - intros n c path fw Hin. unfold ByzantineNodePy.receive_order in Hin.
    destruct (Py.len path <=? ByzantineNodePy.m); [|contradiction].
    cbn [snd] in Hin. apply in_map_iff in Hin. destruct Hin as (lt_id & <- & _).
    cbn [ByzantineNodePy.fw_order]. split; intros ->; [reflexivity|].
    apply flip_differs.
Qed.

Lemma X14_witness :
  LieutenantPy.fw_value (LieutenantPy.mkForward 2 "HOLD_BYZ" [1; 3]) <> "HOLD".
Proof.
  apply (proj1 (proj2 (X14_loyal_relays_are_faithful "HOLD"))
               (LieutenantPy.mkLieutenant 3 three_lieutenants true 2 []) [1]
               (LieutenantPy.mkForward 2 "HOLD_BYZ" [1; 3])).
  - left. cbn. now left.
  - reflexivity.
Defined.

(** ** Where relays go and where they stop *)

Lemma range2_In (a b i : Z) : In i (Py.range2 a b) <-> a <= i < b.
Proof.
  unfold Py.range2. rewrite in_map_iff. split.
  - intros (k & <- & Hk). apply in_seq in Hk. lia.
  - intros H. exists (Z.to_nat (i - a)). split; [lia | apply in_seq; lia].
Qed.

Lemma not_mem_In (x : Z) (l : list Z) : negb (Py.mem x l) = true <-> ~ In x l.
Proof.
  rewrite negb_true_iff, <- not_true_iff_false. now rewrite mem_In.
Qed.

Lemma len_app_one {A : Type} (l : list A) (x : A) : Py.len (l ++ [x]) = Py.len l + 1.
Proof. unfold Py.len. rewrite length_app. cbn. lia. Qed.

(** X15: a relay never goes to the node that sends it nor to a node already
    on its path, its path is the received path extended by the sender, and
    relaying stops at the depth bound.  In [code/lieutenant.py] a forward
    of [receive_message] goes to a configured lieutenant and its path is no
    longer than [f]; a path of length [f] or more is stored and not
    forwarded.  In [byzantine_node.py] a forward of [receive_order] goes to
    an id from 1 to [total_nodes - 1] (never to the commander 0), and a
    path of two or more nodes is not forwarded.  In
    [combined_assignments.py], [execute_om] calls the nodes below
    [total_nodes] that are not on the path, each once. *)
Theorem X15_relays_avoid_the_path_and_stop :
  (forall (n : LieutenantPy.Lieutenant) (value : string) (path : list Z),
      (forall fw, In fw (snd (LieutenantPy.receive_message n value path)) ->
                  LieutenantPy.dest fw <> LieutenantPy.id n /\
                  ~ In (LieutenantPy.dest fw) path /\
                  In (LieutenantPy.dest fw) (map fst (LieutenantPy.lieuts n)) /\
                  LieutenantPy.fw_path fw = path ++ [LieutenantPy.id n] /\
                  Py.len (LieutenantPy.fw_path fw) <= LieutenantPy.f n) /\
      (LieutenantPy.f n <= Py.len path ->
       snd (LieutenantPy.receive_message n value path) = []))
  /\
  (forall (n : ByzantineNodePy.Lieutenant) (c : Z) (order : string) (path : list Z),
      (forall fw, In fw (snd (ByzantineNodePy.receive_order n c order path)) ->
                  1 <= ByzantineNodePy.target_id fw < ByzantineNodePy.total_nodes n /\
                  ByzantineNodePy.target_id fw <> ByzantineNodePy.node_id n /\
                  ~ In (ByzantineNodePy.target_id fw) path /\
                  ByzantineNodePy.fw_commander_id fw = ByzantineNodePy.node_id n /\
                  ByzantineNodePy.fw_path fw = path ++ [ByzantineNodePy.node_id n]) /\
      (2 <= Py.len path -> snd (ByzantineNodePy.receive_order n c order path) = []))
  /\
  (forall (n : CombinedByzantine.ByzantineNode) (m : Z) (path : list Z) (order : string),
      NoDup (map fst (CombinedByzantine.execute_om n m path order)) /\
      forall dest, In dest (map fst (CombinedByzantine.execute_om n m path order)) <->
                   0 <= dest < CombinedByzantine.total_nodes n /\ ~ In dest path).
Proof.
  repeat apply conj.
  - intros n value path. unfold LieutenantPy.receive_message.
    destruct (negb _); cbn [snd]; [|split; [contradiction | reflexivity]].
    destruct (Py.len path <? LieutenantPy.f _) eqn:E; cbn [snd];
      cbn [LieutenantPy.f LieutenantPy.set_msgs] in E.
    + apply Z.ltb_lt in E. split; [|lia].
      intros fw Hin. unfold LieutenantPy._forward_message in Hin.
      apply in_map_iff in Hin. destruct Hin as (lid & <- & Hlid).
      apply filter_In in Hlid. destruct Hlid as [Hl Hf].
      apply andb_true_iff in Hf. destruct Hf as [H1 H2].
      apply negb_true_iff, Z.eqb_neq in H1. apply not_mem_In in H2.
      cbn [LieutenantPy.dest LieutenantPy.fw_path LieutenantPy.id LieutenantPy.lieuts
           LieutenantPy.set_msgs] in *.
      repeat split; auto. rewrite len_app_one. cbn. lia.
    + split; [contradiction | reflexivity].
  - intros n c order path. unfold ByzantineNodePy.receive_order.
    destruct (Py.len path <=? ByzantineNodePy.m) eqn:E; cbn [snd].
    + apply Z.leb_le in E. unfold ByzantineNodePy.m in E. split; [|lia].
      intros fw Hin. apply in_map_iff in Hin. destruct Hin as (lt_id & <- & Hlt).
      apply filter_In in Hlt. destruct Hlt as [Hr Hf].
      apply range2_In in Hr. apply not_mem_In in Hf.
      cbn [ByzantineNodePy.target_id ByzantineNodePy.fw_path ByzantineNodePy.fw_commander_id
           ByzantineNodePy.node_id ByzantineNodePy.total_nodes
           ByzantineNodePy.set_messages] in *.
      repeat split; try lia.
      * intros ->. apply Hf, in_or_app. right. now left.
      * intros Hp. apply Hf, in_or_app. now left.
    + split; [contradiction | reflexivity].
  - intros n m path order. unfold CombinedByzantine.execute_om.
    rewrite map_map. cbn [fst]. rewrite map_id. split.
    + apply NoDup_filter, range_NoDup.
    + intros dest. rewrite filter_In, range_In, not_mem_In. tauto.
Qed.

(** A lieutenant with [f = 1] stores a relay that already went through
    lieutenant 2 and forwards nothing. *)
Lemma X15_witness :
  snd (LieutenantPy.receive_message
         (LieutenantPy.mkLieutenant 1 three_lieutenants false 1 []) ATTACK [2]) = [].
Proof.
  apply (proj2 (proj1 X15_relays_avoid_the_path_and_stop
                      (LieutenantPy.mkLieutenant 1 three_lieutenants false 1 [])
                      ATTACK [2])).
  cbn. lia.
Defined.

(** ** Construction from the configuration *)

Section Table.
Context {V : Type}.

Lemma Zeqb_eq (a b : Z) : (a =? b) = true <-> a = b.
Proof. apply Z.eqb_eq. Qed.

(** A later entry of the configuration with the same id replaces the
    earlier one. *)
Lemma table_of_get (cfg : list (Z * V)) (k : Z) :
  Py.get Z.eqb (table_of cfg) k = Py.get Z.eqb (rev cfg) k.
Proof.
  unfold table_of. induction cfg as [|[k' v'] cfg IH] using rev_ind; [reflexivity|].
  rewrite fold_left_app, rev_app_distr. cbn [fold_left rev app fst snd Py.get].
  destruct (k =? k') eqn:E.
  - apply Z.eqb_eq in E. subst k'. apply get_set_same, Z.eqb_refl.
  - apply Z.eqb_neq in E. rewrite (get_set_other Z.eqb Zeqb_eq) by exact E. exact IH.
Qed.

Lemma get_none_keys (d : list (Z * V)) (k : Z) :
  Py.get Z.eqb d k = None <-> ~ In k (map fst d).
Proof.
  induction d as [|[k' v'] d IH]; cbn [Py.get map fst In]; [tauto|].
  destruct (k =? k') eqn:E.
  - apply Z.eqb_eq in E. subst. split; [discriminate | intros H; exfalso; auto].
  - apply Z.eqb_neq in E. rewrite IH. split; [intros H [C|C]; auto | auto].
Qed.

Lemma table_of_absent (cfg : list (Z * V)) (k : Z) :
  Py.get Z.eqb (table_of cfg) k = None <-> ~ In k (map fst cfg).
Proof.
  rewrite table_of_get, get_none_keys, map_rev. now rewrite <- in_rev.
Qed.

End Table.

(** X17: construction fails exactly for an id that the configuration does
    not list ([None] stands for the [ValueError]).  When it succeeds the
    node of [code/node.py] starts with clock 0, an empty queue and no
    acknowledgement, and the lieutenant of [code/lieutenant.py] with an
    empty store, the default [f = 1] when the configuration gives none, and
    the Byzantine flag of its entry; of two entries with the same id the
    later one counts. *)
Theorem X17_construction_checks_the_id :
  (forall (nid : Z) (cfg : list (Z * (string * Z))),
      (NodePy.init nid cfg = None <-> ~ In nid (map fst cfg)) /\
      (forall n, NodePy.init nid cfg = Some n ->
                 NodePy.id n = nid /\ NodePy.clock n = 0 /\
                 NodePy.request_queue n = [] /\ NodePy.ack_count n = 0 /\
                 forall k, Py.get Z.eqb (NodePy.nodes n) k = Py.get Z.eqb (rev cfg) k))
  /\
  (forall (nid : Z) (cfg : list (Z * (string * Z * bool))) (cfg_f : option Z),
      (LieutenantPy.init nid cfg cfg_f = None <-> ~ In nid (map fst cfg)) /\
      (forall n, LieutenantPy.init nid cfg cfg_f = Some n ->
                 LieutenantPy.id n = nid /\ LieutenantPy.msgs n = [] /\
                 LieutenantPy.f n = match cfg_f with Some v => v | None => 1 end /\
                 exists host port,
                   Py.get Z.eqb (rev cfg) nid = Some (host, port, LieutenantPy.byzantine n))).
Proof.
  split.
  - intros nid cfg. unfold NodePy.init. fold (table_of cfg).
    pose proof (table_of_absent cfg nid) as Habs. unfold Py.contains.
    destruct (Py.get Z.eqb (table_of cfg) nid) as [v|] eqn:G.
    + split.
      * split; [discriminate|]. intros H. apply Habs in H. discriminate.
      * intros n E. injection E as <-. cbn. repeat split.
        intros k. apply table_of_get.
    + split; [split; [intros _; now apply Habs | reflexivity] | discriminate].
  - intros nid cfg cfg_f. unfold LieutenantPy.init. fold (table_of cfg).
    pose proof (table_of_absent cfg nid) as Habs.
    pose proof (table_of_get cfg nid) as Hget.
    destruct (Py.get Z.eqb (table_of cfg) nid) as [[[host port] byz]|] eqn:G.
    + split.
      * split; [discriminate|]. intros H. apply Habs in H. discriminate.
      * intros n E. injection E as <-. cbn. repeat split.
        exists host, port. now rewrite <- Hget.
    + split; [split; [intros _; now apply Habs | reflexivity] | discriminate].
Qed.

Lemma X17_witness :
  NodePy.init 3 two_nodes = None.
Proof.
  apply (proj1 (proj1 X17_construction_checks_the_id 3 two_nodes)).
  cbn. intros [H|[H|[]]]; discriminate.
Defined.

(** ** The simulation as a whole *)

Lemma traitor_ids_In (total m i : Z) :
  In i (CombinedByzantine.traitor_ids total m) <-> total - m <= i <= total - 1.
Proof.
  unfold CombinedByzantine.traitor_ids. rewrite in_map_iff. split.
  - intros (j & <- & Hj). apply range_In in Hj. lia.
  - intros H. exists (total - 1 - i). split; [lia | apply range_In; lia].
Qed.

Lemma update_at_map {A B : Type} (h : A -> B) (g : A -> A) (l : list A) (i : nat) :
  (forall a, h (g a) = h a) ->
  map h (CombinedByzantine.update_at l i g) = map h l.
Proof.
  intros H. revert i. induction l as [|x l IH]; intros [|i]; cbn; try reflexivity.
  - now rewrite H.
  - now rewrite IH.
Qed.

Lemma update_at_Forall {A : Type} (Q : A -> Prop) (g : A -> A) (l : list A) (i : nat) :
  (forall a, Q a -> Q (g a)) -> Forall Q l -> Forall Q (CombinedByzantine.update_at l i g).
Proof.
  intros H Hl. revert i. induction Hl as [|x l Hx Hl IH]; intros [|i]; cbn;
    constructor; auto.
Qed.

Lemma receive_message_nonempty (n : CombinedByzantine.ByzantineNode) (path : list Z)
  (order : string) :
  lists_nonempty (CombinedByzantine.messages n) ->
  lists_nonempty
    (CombinedByzantine.messages (fst (CombinedByzantine.receive_message n path order))).
Proof.
  intros H. cbn. apply (set_Forall String.eqb (fun l => l <> [])); [exact H|].
  apply snoc_not_nil.
Qed.

Lemma deliver_ok (link : CombinedByzantine.Link)
  (total m sender : Z) (net : CombinedByzantine.Net)
  (call : Z * (list Z * string)) :
  sim_nodes_ok total m (CombinedByzantine.nodes net) ->
  sim_nodes_ok total m (CombinedByzantine.nodes (CombinedByzantine.deliver link sender net call)).
Proof.
  intros [Hshape Hne]. destruct call as [lt_id [path order]].
  unfold CombinedByzantine.deliver. cbn [CombinedByzantine.nodes].
  destruct (link _ sender lt_id order) as [arrived|]; [|now split]. split.
  - rewrite update_at_map; [exact Hshape | reflexivity].
  - apply update_at_Forall; [|exact Hne]. intros a. apply receive_message_nonempty.
Qed.

Lemma deliver_all_ok (link : CombinedByzantine.Link) (total m sender : Z)
  (calls : list (Z * (list Z * string))) (net : CombinedByzantine.Net) :
  sim_nodes_ok total m (CombinedByzantine.nodes net) ->
  sim_nodes_ok total m
    (CombinedByzantine.nodes (fold_left (CombinedByzantine.deliver link sender) calls net)).
Proof.
  revert net. induction calls as [|c calls IH]; intros net H; cbn [fold_left]; [exact H|].
  apply IH. now apply deliver_ok.
Qed.

Lemma foldM_inv {A B : Type} (g : A -> B -> option A) (I : A -> Prop) (Q : B -> Prop)
  (l : list B) (a : A) :
  (forall a b, I a -> Q b -> exists a', g a b = Some a' /\ I a') ->
  Forall Q l -> I a ->
  exists a', CombinedByzantine.foldM g l a = Some a' /\ I a'.
Proof.
  intros Hstep Hl. revert a. induction Hl as [|b l Hb Hl IH]; intros a Ha;
    cbn [CombinedByzantine.foldM].
  - now exists a.
  - destruct (Hstep a b Ha Hb) as (a1 & -> & Ha1). cbn [CombinedByzantine.bind].
    now apply IH.
Qed.

Lemma sim_nodes_length (total m : Z) (ns : list CombinedByzantine.ByzantineNode) :
  sim_nodes_ok total m ns -> List.length ns = Z.to_nat total.
Proof.
  intros [H _]. apply (f_equal (@List.length _)) in H.
  now rewrite !length_map, range_length in H.
Qed.

Lemma last_of_some (total : Z) (path : list Z) :
  sim_path_ok total path ->
  exists x, CombinedByzantine.last_of path = Some x /\ 0 <= x < total.
Proof.
  intros [Hne Hin]. unfold CombinedByzantine.last_of.
  destruct (rev path) as [|x r] eqn:E.
  - exfalso. apply Hne. apply (f_equal (@rev Z)) in E. now rewrite rev_involutive in E.
  - exists x. split; [reflexivity|]. apply Hin, in_rev. rewrite E. now left.
Qed.

Lemma visit_path_ok (link : CombinedByzantine.Link) (total m i : Z) (order : string)
  (st : CombinedByzantine.Net * list (list Z)) (path : list Z) :
  sim_state_ok total m st -> sim_path_ok total path ->
  exists st', CombinedByzantine.visit_path link total m i order st path = Some st' /\
              sim_state_ok total m st'.
Proof.
  intros [Hn Hp] Hpath. destruct st as [net path_history]. cbn [fst snd] in *.
  unfold CombinedByzantine.visit_path.
  destruct (last_of_some total path Hpath) as (last & -> & Hlast).
  cbn [CombinedByzantine.bind].
  assert (Hord : exists o,
             (if 1 <? Py.len path
              then match find (fun n => CombinedByzantine.id n =? last)
                              (CombinedByzantine.nodes net) with
                   | Some node =>
                       CombinedByzantine.first_stored node
                         (CombinedByzantine.path_str (CombinedByzantine.init_of path))
                   | None => Some order
                   end
              else Some order) = Some o).
  { destruct (1 <? Py.len path); [|now exists order].
    destruct (find _ _) as [node|] eqn:F; [|now exists order].
    apply find_some in F. destruct F as [F _].
    destruct Hn as [_ Hne]. rewrite Forall_forall in Hne.
    apply combined_first_stored_some. now apply Hne. }
  destruct Hord as (o & ->). cbn [CombinedByzantine.bind].
  destruct (nth_error (CombinedByzantine.nodes net) (Z.to_nat last)) as [node|] eqn:N.
  - cbn [CombinedByzantine.bind]. eexists. split; [reflexivity|]. split; cbn [fst snd].
    + now apply deliver_all_ok.
    + destruct (0 <? m - i); [|exact Hp].
      apply Forall_app. split; [exact Hp|].
      apply Forall_forall. intros p Hin. apply in_map_iff in Hin.
      destruct Hin as (lt & <- & Hlt). apply filter_In in Hlt. destruct Hlt as [Hlt _].
      apply range_In in Hlt. destruct Hpath as [Hne Hall]. split.
      * intros E. apply app_eq_nil in E. destruct E as [_ E]. discriminate.
      * intros x Hx. apply in_app_or in Hx. destruct Hx as [Hx|[<-|[]]]; auto.
  - exfalso. apply nth_error_None in N.
    rewrite (sim_nodes_length total m _ Hn) in N. lia.
Qed.

Lemma round_ok (link : CombinedByzantine.Link) (total m : Z) (order : string)
  (st : CombinedByzantine.Net * list (list Z)) (i : Z) :
  sim_state_ok total m st ->
  exists st', CombinedByzantine.round link total m order st i = Some st' /\
              sim_state_ok total m st'.
Proof.
  intros H. unfold CombinedByzantine.round.
  apply (foldM_inv _ (sim_state_ok total m) (sim_path_ok total)).
  - intros a b. apply visit_path_ok.
  - apply H.
  - exact H.
Qed.

Lemma initial_nodes_ok (total m : Z) :
  sim_nodes_ok total m
    (map (fun i => CombinedByzantine.init i total
                     (Py.mem i (CombinedByzantine.traitor_ids total m)))
         (Py.range total)).
Proof.
  split.
  - rewrite map_map. reflexivity.
  - apply Forall_forall. intros n Hn. apply in_map_iff in Hn.
    destruct Hn as (i & <- & _). constructor.
Qed.

Lemma decide_all_ok (total m mm c : Z) (ns : list CombinedByzantine.ByzantineNode) :
  Forall (fun n => lists_nonempty (CombinedByzantine.messages n)) ns ->
  exists ds,
    CombinedByzantine.mapM
      (fun n => if negb (CombinedByzantine.id n =? c)
                then CombinedByzantine.decide n mm c else Some n) ns = Some ds /\
    map (fun n => (CombinedByzantine.id n, CombinedByzantine.total_nodes n,
                   CombinedByzantine.is_traitor n)) ds
    = map (fun n => (CombinedByzantine.id n, CombinedByzantine.total_nodes n,
                     CombinedByzantine.is_traitor n)) ns /\
    map CombinedByzantine.messages ds = map CombinedByzantine.messages ns /\
    Forall (fun n => CombinedByzantine.id n <> c ->
                     CombinedByzantine.final_decision n <> None) ds.
Proof.
  induction 1 as [|n ns Hn Hns (ds & E & Hshape & Hmsgs & Hdec)];
    cbn [CombinedByzantine.mapM].
  - exists []. repeat split; constructor.
  - assert (Hone : exists n',
               (if negb (CombinedByzantine.id n =? c)
                then CombinedByzantine.decide n mm c else Some n) = Some n' /\
               (CombinedByzantine.id n', CombinedByzantine.total_nodes n',
                CombinedByzantine.is_traitor n')
               = (CombinedByzantine.id n, CombinedByzantine.total_nodes n,
                  CombinedByzantine.is_traitor n) /\
               CombinedByzantine.messages n' = CombinedByzantine.messages n /\
               (CombinedByzantine.id n' <> c ->
                CombinedByzantine.final_decision n' <> None)).
    { destruct (CombinedByzantine.id n =? c) eqn:Eid; cbn [negb].
      - exists n. repeat split. apply Z.eqb_eq in Eid. congruence.
      - unfold CombinedByzantine.decide. rewrite Eid.
        destruct (mm =? 0).
        + destruct (combined_first_stored_some n (Py.str c) Hn) as (v & ->).
          cbn [CombinedByzantine.bind]. eexists. repeat split. cbn. discriminate.
        + unfold CombinedByzantine.all_values.
          destruct (combined_first_stored_some n (Py.str c) Hn) as (v & ->).
          cbn [CombinedByzantine.bind].
          match goal with
          | |- context [CombinedByzantine.mapM ?g ?l] =>
              destruct (mapM_some g l) as (bs & -> & _)
          end.
          { intros a. now apply combined_first_stored_some. }
          cbn [CombinedByzantine.bind]. eexists. repeat split. cbn. discriminate. }
    destruct Hone as (n' & -> & Hs & Hm & Hd). rewrite E. cbn [CombinedByzantine.bind].
    exists (n' :: ds). cbn [map]. rewrite Hs, Hshape, Hm, Hmsgs.
    repeat split. constructor; assumption.
Qed.

(** X16: [run_byzantine_simulation] with [total_nodes > 3 * num_traitors]
    never raises, whichever of its calls fail (each call on its own) and
    whatever order strings arrive: it returns without the error,
    with one node per id below [total_nodes] in order, the traitors being
    exactly the [num_traitors] highest ids (so that the commander, node 0,
    is loyal), and every node but the commander holds a final decision. *)
Theorem X16_simulation_always_decides
  (link : CombinedByzantine.Link) (total_nodes num_traitors : Z)
  (commander_order : string) :
  3 * num_traitors < total_nodes ->
  exists out,
    CombinedByzantine.run_byzantine_simulation link total_nodes num_traitors commander_order
    = Some out /\
    CombinedByzantine.error_logged out = false /\
    map CombinedByzantine.id (CombinedByzantine.nodes (CombinedByzantine.final out))
    = Py.range total_nodes /\
    (forall n, In n (CombinedByzantine.nodes (CombinedByzantine.final out)) ->
               (CombinedByzantine.is_traitor n = true <->
                total_nodes - num_traitors <= CombinedByzantine.id n) /\
               (CombinedByzantine.id n = 0 -> CombinedByzantine.is_traitor n = false) /\
               (CombinedByzantine.id n <> 0 ->
                CombinedByzantine.final_decision n <> None)).
Proof.
  intros Hbound. unfold CombinedByzantine.run_byzantine_simulation.
  destruct (total_nodes <=? 3 * num_traitors) eqn:E; [apply Z.leb_le in E; lia|].
  set (ns := map _ (Py.range total_nodes)).
  destruct (foldM_inv (CombinedByzantine.round link total_nodes num_traitors commander_order)
              (fun st => sim_nodes_ok total_nodes num_traitors
                           (CombinedByzantine.nodes (fst st)) /\
                         (0 <= num_traitors -> Forall (sim_path_ok total_nodes) (snd st)))
              (fun _ => 0 <= num_traitors)
              (Py.range (num_traitors + 1))
              (CombinedByzantine.mkNet ns [], [[0]]))
    as (st & -> & [Hn Hp]).
  { intros a b [Ha1 Ha2] Hm.
    destruct (round_ok link total_nodes num_traitors commander_order a b) as (a' & Ea & Ha').
    - split; auto.
    - exists a'. split; [exact Ea|]. destruct Ha' as [H1 H2]. now split. }
  { apply Forall_forall. intros i Hi. apply range_In in Hi. lia. }
  { split; cbn [fst snd CombinedByzantine.nodes].
    - apply initial_nodes_ok.
    - intros Hm. constructor; [|constructor].
      split; [discriminate|]. intros x [<-|[]]. lia. }
  cbn [CombinedByzantine.bind].
  destruct Hn as [Hshape Hne].
  destruct (decide_all_ok total_nodes num_traitors num_traitors 0 _ Hne)
    as (ds & -> & Hs & _ & Hd).
  cbn [CombinedByzantine.bind]. eexists. split; [reflexivity|].
  cbn [CombinedByzantine.error_logged CombinedByzantine.final CombinedByzantine.nodes].
  rewrite Hshape in Hs.
  assert (Hids : map CombinedByzantine.id ds = Py.range total_nodes).
  { apply (f_equal (map (fun t : Z * Z * bool => fst (fst t)))) in Hs.
    rewrite !map_map in Hs. cbn [fst] in Hs. now rewrite map_id in Hs. }
  repeat split; auto.
  - intros Ht.
    assert (Hin : In (CombinedByzantine.id n, CombinedByzantine.total_nodes n,
                      CombinedByzantine.is_traitor n)
                     (map (fun i => (i, total_nodes,
                                     Py.mem i (CombinedByzantine.traitor_ids total_nodes
                                                 num_traitors)))
                          (Py.range total_nodes))).
    { rewrite <- Hs. apply in_map_iff. now exists n. }
    apply in_map_iff in Hin. destruct Hin as (i & Ei & _).
    injection Ei as Ei1 _ Ei3. rewrite Ht in Ei3. subst i.
    apply mem_In, traitor_ids_In in Ei3. lia.
  - intros Hge.
    assert (Hin : In (CombinedByzantine.id n, CombinedByzantine.total_nodes n,
                      CombinedByzantine.is_traitor n)
                     (map (fun i => (i, total_nodes,
                                     Py.mem i (CombinedByzantine.traitor_ids total_nodes
                                                 num_traitors)))
                          (Py.range total_nodes))).
    { rewrite <- Hs. apply in_map_iff. now exists n. }
    apply in_map_iff in Hin. destruct Hin as (i & Ei & Hi).
    injection Ei as Ei1 _ Ei3. subst i. apply range_In in Hi.
    rewrite <- Ei3. apply mem_In, traitor_ids_In. lia.
  - intros H0.
    assert (Hin : In (CombinedByzantine.id n, CombinedByzantine.total_nodes n,
                      CombinedByzantine.is_traitor n)
                     (map (fun i => (i, total_nodes,
                                     Py.mem i (CombinedByzantine.traitor_ids total_nodes
                                                 num_traitors)))
                          (Py.range total_nodes))).
    { rewrite <- Hs. apply in_map_iff. now exists n. }
    apply in_map_iff in Hin. destruct Hin as (i & Ei & Hi).
    injection Ei as Ei1 _ Ei3. subst i. rewrite <- Ei3.
    apply not_true_iff_false. intros C. apply mem_In, traitor_ids_In in C. lia.
  - rewrite Forall_forall in Hd. now apply Hd.
Qed.

Lemma X16_witness :
  exists out,
    CombinedByzantine.run_byzantine_simulation first_call_lost 4 1 ATTACK = Some out /\
    CombinedByzantine.error_logged out = false /\
    map CombinedByzantine.id (CombinedByzantine.nodes (CombinedByzantine.final out))
    = Py.range 4 /\
    (forall n, In n (CombinedByzantine.nodes (CombinedByzantine.final out)) ->
               (CombinedByzantine.is_traitor n = true <-> 4 - 1 <= CombinedByzantine.id n) /\
               (CombinedByzantine.id n = 0 -> CombinedByzantine.is_traitor n = false) /\
               (CombinedByzantine.id n <> 0 ->
                CombinedByzantine.final_decision n <> None)).
Proof.
  apply (X16_simulation_always_decides first_call_lost 4 1 ATTACK). lia.
Defined.

(** ** The keys of the store *)

Lemma uint_no_gt (d : Decimal.uint) : no_gt (NilEmpty.string_of_uint d) = true.
Proof. induction d; cbn; auto. Qed.

Lemma str_no_gt (z : Z) : no_gt (Py.str z) = true.
Proof.
  unfold Py.str, NilZero.string_of_int, NilZero.string_of_uint.
  destruct (Z.to_int z) as [d|d]; destruct d; cbn; auto using uint_no_gt.
Qed.

Lemma str_nonempty (z : Z) : Py.str z <> EmptyString.
Proof.
  unfold Py.str, NilZero.string_of_int, NilZero.string_of_uint.
  destruct (Z.to_int z) as [d|d]; destruct d; cbn; discriminate.
Qed.

Lemma to_int_not_nil (z : Z) :
  Z.to_int z <> Decimal.Pos Decimal.Nil /\ Z.to_int z <> Decimal.Neg Decimal.Nil.
Proof.
  destruct z as [|p|p]; cbn; split; try discriminate;
    intros E; injection E as E; now apply (DecimalPos.Unsigned.to_uint_nonnil p).
Qed.

(** [str] is one-to-one. *)
Lemma str_inj (a b : Z) : Py.str a = Py.str b -> a = b.
Proof.
  unfold Py.str. intros E.
  destruct (to_int_not_nil a) as [Ha1 Ha2]. destruct (to_int_not_nil b) as [Hb1 Hb2].
  pose proof (NilZero.isi _ Ha1 Ha2) as Ia. pose proof (NilZero.isi _ Hb1 Hb2) as Ib.
  rewrite E in Ia. rewrite Ia in Ib. injection Ib as Ib.
  now apply DecimalZ.to_int_inj.
Qed.

(** A string without [>] before the separator is determined by the whole. *)
Lemma split_at_arrow (a a' r r' : string) :
  no_gt a = true -> no_gt a' = true ->
  (a ++ "->" ++ r)%string = (a' ++ "->" ++ r')%string -> a = a' /\ r = r'.
Proof.
  revert a'. induction a as [|c a IH]; intros a' Ha Ha' E.
  - destruct a' as [|c' a']; cbn in E.
    + injection E as E. now split.
    + exfalso. injection E as Ec E. subst c'.
      destruct a' as [|d a']; cbn in E; injection E as Ed E.
      * discriminate.
      * subst d. cbn in Ha'. discriminate.
  - destruct a' as [|c' a']; cbn in E.
    + exfalso. injection E as Ec E. subst c.
      destruct a as [|d a]; cbn in E; injection E as Ed E.
      * discriminate.
      * subst d. cbn in Ha. discriminate.
    + injection E as Ec E. subst c'. cbn in Ha, Ha'.
      apply andb_true_iff in Ha, Ha'.
      destruct (IH a' (proj2 Ha) (proj2 Ha') E) as [-> ->]. now split.
Qed.

Lemma no_gt_not_arrow (a a' r' : string) :
  no_gt a = true -> a <> (a' ++ "->" ++ r')%string.
Proof.
  revert a'. induction a as [|c a IH]; intros a' Ha E.
  - destruct a'; discriminate.
  - destruct a' as [|c' a']; cbn in E.
    + injection E as Ec E. subst c. destruct a as [|d a]; [discriminate|].
      injection E as Ed E. subst d. cbn in Ha. discriminate.
    + injection E as Ec E. cbn in Ha. apply andb_true_iff in Ha.
      exact (IH a' (proj2 Ha) E).
Qed.

Lemma join_arrow_inj (l1 l2 : list string) :
  Forall (fun s => no_gt s = true /\ s <> EmptyString) l1 ->
  Forall (fun s => no_gt s = true /\ s <> EmptyString) l2 ->
  Py.join "->" l1 = Py.join "->" l2 -> l1 = l2.
Proof.
  intros H1. revert l2. induction H1 as [|s1 t1 [Hs1 Hn1] Ht1 IH]; intros l2 H2 E.
  - destruct H2 as [|s2 t2 [Hs2 Hn2] Ht2]; [reflexivity|].
    exfalso. cbn in E. destruct t2; [congruence|].
    destruct s2; [congruence | discriminate].
  - destruct H2 as [|s2 t2 [Hs2 Hn2] Ht2].
    + exfalso. cbn in E. destruct t1; [congruence|].
      destruct s1; [congruence | discriminate].
    + cbn [Py.join] in E. destruct t1 as [|u1 t1], t2 as [|u2 t2].
      * now subst.
      * exfalso. exact (no_gt_not_arrow _ _ _ Hs1 E).
      * exfalso. symmetry in E. exact (no_gt_not_arrow _ _ _ Hs2 E).
      * destruct (split_at_arrow _ _ _ _ Hs1 Hs2 E) as [-> Er].
        f_equal. now apply IH.
Qed.

(** ["->".join(map(str, path))] is one-to-one. *)
Lemma path_str_inj (p q : list Z) :
  CombinedByzantine.path_str p = CombinedByzantine.path_str q -> p = q.
Proof.
  unfold CombinedByzantine.path_str. intros E.
  apply join_arrow_inj in E.
  - revert q E. induction p as [|x p IH]; intros [|y q] E; try discriminate; auto.
    cbn in E. injection E as Exy E. apply str_inj in Exy. subst. f_equal. now apply IH.
  - apply Forall_forall. intros s Hs. apply in_map_iff in Hs. destruct Hs as (z & <- & _).
    split; [apply str_no_gt | apply str_nonempty].
  - apply Forall_forall. intros s Hs. apply in_map_iff in Hs. destruct Hs as (z & <- & _).
    split; [apply str_no_gt | apply str_nonempty].
Qed.

Lemma decide_key_is_path_str (c lt_id : Z) :
  (Py.str c ++ "->" ++ Py.str lt_id)%string = CombinedByzantine.path_str [c; lt_id].
Proof. reflexivity. Qed.

(** ** What the simulation stores *)

Lemma forall_snoc {A : Type} (Q : A -> Prop) (l : list A) (x : A) :
  Forall Q l -> Q x -> Forall Q (l ++ [x]).
Proof. intros Hl Hx. apply Forall_app. split; [exact Hl | now constructor]. Qed.

(** One call served: the node goes on storing only what it should when the
    value is the right one for the key of the path. *)
Lemma receive_stores_only (total m : Z) (o : string) (n : CombinedByzantine.ByzantineNode)
  (path : list Z) (v : string) :
  stores_only total m o n ->
  (path = [0] -> v = o) ->
  (forall k, k <> 0 -> path = [0; k] ->
             v = relayed_by total m k (CombinedByzantine.id n) o) ->
  stores_only total m o (fst (CombinedByzantine.receive_message n path v)).
Proof.
  intros [H0 H1] Hv0 Hv1.
  cbn [CombinedByzantine.receive_message fst].
  unfold stores_only.
  cbn [CombinedByzantine.messages CombinedByzantine.set_messages CombinedByzantine.id].
  split.
  - intros l Hl.
    destruct (eq_dec_of_eqb String.eqb String.eqb_eq (CombinedByzantine.path_str [0])
                (CombinedByzantine.path_str path)) as [E|E].
    + rewrite <- E in Hl. rewrite get_set_same in Hl by apply String.eqb_refl.
      injection Hl as <-. apply path_str_inj in E. subst path.
      apply forall_snoc; [|symmetry; now apply Hv0].
      unfold Py.get_default.
      destruct (Py.get String.eqb (CombinedByzantine.messages n)
                       (CombinedByzantine.path_str [0])) eqn:G; [now apply H0 | constructor].
    + rewrite (get_set_other String.eqb String.eqb_eq) in Hl by exact E. now apply H0.
  - intros k l Hk Hl.
    destruct (eq_dec_of_eqb String.eqb String.eqb_eq (CombinedByzantine.path_str [0; k])
                (CombinedByzantine.path_str path)) as [E|E].
    + rewrite <- E in Hl. rewrite get_set_same in Hl by apply String.eqb_refl.
      injection Hl as <-. apply path_str_inj in E. subst path.
      apply forall_snoc; [|symmetry; now apply Hv1].
      unfold Py.get_default.
      destruct (Py.get String.eqb (CombinedByzantine.messages n)
                       (CombinedByzantine.path_str [0; k])) eqn:G;
        [now apply (H1 k) | constructor].
    + rewrite (get_set_other String.eqb String.eqb_eq) in Hl by exact E. now apply (H1 k).
Qed.

Lemma update_at_Forall_nth {A : Type} (Q : A -> Prop) (g : A -> A) (l : list A) (i : nat) :
  Forall Q l -> (forall a, nth_error l i = Some a -> Q a -> Q (g a)) ->
  Forall Q (CombinedByzantine.update_at l i g).
Proof.
  intros Hl. revert i. induction Hl as [|x l Hx Hl IH]; intros [|i] Hg; cbn;
    constructor; auto.
Qed.

Lemma sim_nodes_nth (total m : Z) (ns : list CombinedByzantine.ByzantineNode)
  (i : nat) (n : CombinedByzantine.ByzantineNode) :
  sim_nodes_ok total m ns -> nth_error ns i = Some n ->
  CombinedByzantine.id n = Z.of_nat i /\
  CombinedByzantine.total_nodes n = total /\
  CombinedByzantine.is_traitor n
  = Py.mem (Z.of_nat i) (CombinedByzantine.traitor_ids total m) /\
  (i < Z.to_nat total)%nat.
Proof.
  intros [Hshape _] Hn.
  pose proof (map_nth_error
                (fun n => (CombinedByzantine.id n, CombinedByzantine.total_nodes n,
                           CombinedByzantine.is_traitor n)) _ _ Hn) as E.
  rewrite Hshape in E. unfold Py.range in E. rewrite map_map in E.
  assert (Hi : (i < Z.to_nat total)%nat).
  { apply nth_error_Some_lt in Hn || idtac.
    assert (L : List.length ns = Z.to_nat total).
    { apply (f_equal (@List.length _)) in Hshape.
      now rewrite !length_map, range_length in Hshape. }
    rewrite <- L. apply nth_error_Some. congruence. }
  rewrite (map_nth_error _ _ _ (nth_error_seq_lt i Hi)) in E || idtac.
  assert (Es : nth_error (seq 0 (Z.to_nat total)) i = Some i).
  { rewrite nth_error_nth' with (d := O) by (now rewrite length_seq).
    now rewrite seq_nth. }
  rewrite (map_nth_error _ _ _ Es) in E. injection E as E1 E2 E3.
  repeat split; auto.
Qed.

Lemma path_str_commander : CombinedByzantine.path_str [0] = Py.str 0.
Proof. reflexivity. Qed.

(** The first value under the commander's key and under the key of a
    relay, at a node that stores only what it should. *)
Lemma first_stored_direct (total m : Z) (o : string) (n : CombinedByzantine.ByzantineNode) :
  stores_only total m o n -> lists_nonempty (CombinedByzantine.messages n) ->
  Py.get String.eqb (CombinedByzantine.messages n) (CombinedByzantine.path_str [0]) <> None
  \/ o = RETREAT ->
  CombinedByzantine.first_stored n (CombinedByzantine.path_str [0]) = Some o.
Proof.
  intros [H0 _] Hne Hcase. unfold CombinedByzantine.first_stored, Py.get_default.
  destruct (Py.get String.eqb (CombinedByzantine.messages n)
                   (CombinedByzantine.path_str [0])) as [l|] eqn:G.
  - pose proof (get_Forall String.eqb (fun l => l <> []) _ _ _ Hne G) as Hl.
    specialize (H0 l eq_refl). destruct l as [|x l]; [congruence|].
    inversion H0; subst. reflexivity.
  - destruct Hcase as [C| ->]; [congruence | reflexivity].
Qed.

Lemma first_stored_relayed (total m k : Z) (o : string)
  (n : CombinedByzantine.ByzantineNode) :
  stores_only total m o n -> lists_nonempty (CombinedByzantine.messages n) -> k <> 0 ->
  (Py.get String.eqb (CombinedByzantine.messages n) (CombinedByzantine.path_str [0; k])
   <> None /\
   CombinedByzantine.first_stored n (CombinedByzantine.path_str [0; k])
   = Some (relayed_by total m k (CombinedByzantine.id n) o)) \/
  (Py.get String.eqb (CombinedByzantine.messages n) (CombinedByzantine.path_str [0; k])
   = None /\
   CombinedByzantine.first_stored n (CombinedByzantine.path_str [0; k]) = Some RETREAT).
Proof.
  intros [_ H1] Hne Hk. unfold CombinedByzantine.first_stored, Py.get_default.
  destruct (Py.get String.eqb (CombinedByzantine.messages n)
                   (CombinedByzantine.path_str [0; k])) as [l|] eqn:G.
  - left. split; [discriminate|].
    pose proof (get_Forall String.eqb (fun l => l <> []) _ _ _ Hne G) as Hl.
    specialize (H1 k l Hk G). destruct l as [|x l]; [congruence|].
    inversion H1; subst. reflexivity.
  - right. now split.
Qed.

Lemma flip_in_play (o v : string) : in_play o (CombinedByzantine.flip v).
Proof.
  unfold in_play, CombinedByzantine.flip. destruct (String.eqb v ATTACK); auto.
Qed.

Lemma relayed_by_in_play (total m k j : Z) (o : string) :
  in_play o (relayed_by total m k j o).
Proof.
  unfold relayed_by. destruct (_ && _); [apply flip_in_play | now left].
Qed.

(** The calls of one [execute_om] keep the stores as they should be, when
    each carries the right value for its path. *)
Lemma deliver_all_stores (link : CombinedByzantine.Link) (total m sender : Z)
  (o : string)
  (calls : list (Z * (list Z * string))) (net : CombinedByzantine.Net) :
  carries_unchanged link o ->
  sim_nodes_ok total m (CombinedByzantine.nodes net) ->
  Forall (stores_only total m o) (CombinedByzantine.nodes net) ->
  Forall (fun call => 0 <= fst call /\
                      (fst (snd call) = [0] -> snd (snd call) = o) /\
                      (forall k, k <> 0 -> fst (snd call) = [0; k] ->
                                 snd (snd call) = relayed_by total m k (fst call) o))
         calls ->
  Forall (stores_only total m o)
         (CombinedByzantine.nodes
            (fold_left (CombinedByzantine.deliver link sender) calls net)).
Proof.
  intros Hwire Hn Hs Hc. revert net Hn Hs.
  induction Hc as [|[lt_id [path order]] calls (Hlt & Hv0 & Hv1) Hc IH];
    intros net Hn Hs; cbn [fold_left]; [exact Hs|].
  cbn [fst snd] in *. apply IH.
  - now apply deliver_ok.
  - unfold CombinedByzantine.deliver. cbn [CombinedByzantine.nodes].
    destruct (link _ sender lt_id order) as [arrived|] eqn:El; [|exact Hs].
    apply update_at_Forall_nth; [exact Hs|]. intros a Ha Hsa.
    destruct (sim_nodes_nth total m _ _ _ Hn Ha) as (Hid & _).
    apply receive_stores_only; [exact Hsa | |].
    + intros Hp. specialize (Hv0 Hp). subst order.
      apply (Hwire _ _ _ _ _ (or_introl eq_refl) El).
    + intros k Hk Hp. rewrite Hid, Z2Nat.id by lia. specialize (Hv1 k Hk Hp).
      rewrite <- Hv1.
      apply (Hwire (List.length (CombinedByzantine.sent net)) sender lt_id order
               arrived); [|exact El].
      rewrite Hv1. apply relayed_by_in_play.
Qed.

Lemma commander_is_loyal (total m : Z) :
  3 * m < total -> Py.mem 0 (CombinedByzantine.traitor_ids total m) = false.
Proof.
  intros H. apply not_true_iff_false. intros C.
  apply mem_In, traitor_ids_In in C. lia.
Qed.

Lemma In_nth_node (total m : Z) (ns : list CombinedByzantine.ByzantineNode)
  (n : CombinedByzantine.ByzantineNode) :
  sim_nodes_ok total m ns -> In n ns ->
  0 <= CombinedByzantine.id n < total /\
  nth_error ns (Z.to_nat (CombinedByzantine.id n)) = Some n /\
  CombinedByzantine.total_nodes n = total /\
  CombinedByzantine.is_traitor n
  = Py.mem (CombinedByzantine.id n) (CombinedByzantine.traitor_ids total m).
Proof.
  intros Hn Hin. apply In_nth_error in Hin. destruct Hin as (i & Hi).
  destruct (sim_nodes_nth total m _ _ _ Hn Hi) as (Hid & Ht & Htr & Hlt).
  rewrite Hid, Nat2Z.id. repeat split; auto; lia.
Qed.

(** One visited path keeps the stores as they should be, provided the
    relaying lieutenant reads the commander's order. *)
Lemma visit_path_stores (link : CombinedByzantine.Link) (total m i : Z)
  (o : string)
  (st st' : CombinedByzantine.Net * list (list Z)) (path : list Z) :
  carries_unchanged link o ->
  3 * m < total ->
  sim_state_ok total m st -> sim_path_ok total path ->
  Forall (stores_only total m o) (CombinedByzantine.nodes (fst st)) ->
  (forall k n, k <> 0 -> path = [0; k] -> In n (CombinedByzantine.nodes (fst st)) ->
               CombinedByzantine.id n = k ->
               CombinedByzantine.first_stored n (CombinedByzantine.path_str [0]) = Some o) ->
  CombinedByzantine.visit_path link total m i o st path = Some st' ->
  Forall (stores_only total m o) (CombinedByzantine.nodes (fst st')).
Proof.
  intros Hwire Hb [Hn Hp] Hpath Hs Hsrc. destruct st as [net path_history].
  cbn [fst snd] in *. unfold CombinedByzantine.visit_path.
  destruct (last_of_some total path Hpath) as (last & El & Hlast). rewrite El.
  cbn [CombinedByzantine.bind].
  destruct (if 1 <? Py.len path then _ else _) as [ots|] eqn:Eo;
    cbn [CombinedByzantine.bind]; [|discriminate].
  destruct (nth_error (CombinedByzantine.nodes net) (Z.to_nat last)) as [cn|] eqn:N;
    cbn [CombinedByzantine.bind]; [|discriminate].
  intros E. injection E as <-. cbn [fst].
  destruct (sim_nodes_nth total m _ _ _ Hn N) as (Hid & Htot & Htr & _).
  rewrite Z2Nat.id in Hid, Htr by lia.
  apply (deliver_all_stores link total m); auto.
  unfold CombinedByzantine.execute_om. apply Forall_forall.
  intros call Hcall. apply in_map_iff in Hcall. destruct Hcall as (lt_id & <- & Hlt).
  apply filter_In in Hlt. destruct Hlt as [Hlt Hnot]. apply range_In in Hlt.
  cbn [fst snd]. split; [lia|]. unfold CombinedByzantine.current_order. split.
  - intros ->. cbn in El. injection El as <-. cbn in Eo. injection Eo as <-.
    rewrite Htr, (commander_is_loyal total m Hb). reflexivity.
  - intros k Hk ->. cbn in El. injection El as <-.
    assert (Eots : ots = o).
    { cbn in Eo.
      destruct (find (fun n => CombinedByzantine.id n =? k) (CombinedByzantine.nodes net))
        as [node|] eqn:F; [|congruence].
      apply find_some in F. destruct F as [Fin Fid]. apply Z.eqb_eq in Fid.
      change (CombinedByzantine.first_stored node (CombinedByzantine.path_str [0])
              = Some ots) in Eo.
      rewrite (Hsrc k node Hk eq_refl Fin Fid) in Eo. congruence. }
    subst ots. rewrite Htr. reflexivity.
Qed.

(** ** The vote at the end of the simulation *)

Lemma mapM_count {A : Type} (g : A -> option string) (bad : A -> bool) (o : string)
  (l : list A) :
  (forall a, In a l -> exists v, g a = Some v /\ (bad a = false -> v = o)) ->
  exists vs, CombinedByzantine.mapM g l = Some vs /\
             Py.len vs = Py.len l /\
             Py.len l - Py.len (filter bad l) <= occurrences o vs.
Proof.
  induction l as [|a l IH]; intros H; cbn [CombinedByzantine.mapM].
  - exists []. repeat split. cbn. lia.
  - destruct (H a (or_introl eq_refl)) as (v & Ev & Hv).
    destruct IH as (vs & E & Hlen & Hocc); [intros b Hb; apply H; now right|].
    rewrite Ev, E. cbn [CombinedByzantine.bind]. exists (v :: vs).
    split; [reflexivity|]. rewrite occurrences_cons. unfold Py.len in *.
    cbn [filter List.length]. split; [lia|].
    destruct (bad a) eqn:Eb; cbn [List.length].
    + destruct (String.eqb o v); lia.
    + rewrite (Hv eq_refl), String.eqb_refl. lia.
Qed.

Lemma traitors_among (total m : Z) (l : list Z) :
  NoDup l ->
  Py.len (filter (fun k => Py.mem k (CombinedByzantine.traitor_ids total m)) l)
  <= Z.max 0 m.
Proof.
  intros Hl. unfold Py.len.
  assert (H : (List.length (filter (fun k => Py.mem k (CombinedByzantine.traitor_ids total m)) l)
               <= List.length (CombinedByzantine.traitor_ids total m))%nat).
  { apply NoDup_incl_length; [now apply NoDup_filter|].
    intros x Hx. apply filter_In in Hx. now apply mem_In. }
  assert (L : List.length (CombinedByzantine.traitor_ids total m) = Z.to_nat m).
  { unfold CombinedByzantine.traitor_ids. now rewrite length_map, range_length. }
  lia.
Qed.

Lemma filter_both (f g : Z -> bool) (l : list Z) :
  filter (fun i => f i && g i) l = filter f (filter g l).
Proof.
  induction l as [|x l IH]; [reflexivity|]. cbn [filter].
  destruct (g x); cbn [filter]; rewrite ?andb_true_r, ?andb_false_r.
  - destruct (f x); now rewrite IH.
  - exact IH.
Qed.

Lemma others_length (total j : Z) :
  1 <= j < total ->
  Py.len (filter (fun i => negb (i =? j) && negb (i =? 0)) (Py.range total)) = total - 2.
Proof.
  intros Hj. rewrite filter_both. unfold Py.len.
  pose proof (filter_out_length 0 (Py.range total) (range_NoDup total)
                (proj2 (range_In total 0) ltac:(lia))) as E0.
  pose proof (filter_out_length j (filter (fun i => negb (i =? 0)) (Py.range total))
                (NoDup_filter _ (range_NoDup total))) as Ej.
  rewrite range_length in E0.
  assert (Hin : In j (filter (fun i => negb (i =? 0)) (Py.range total))).
  { apply filter_In. split; [apply range_In; lia|].
    apply negb_true_iff, Z.eqb_neq. lia. }
  specialize (Ej Hin). lia.
Qed.

(** [decide] at a lieutenant of the simulation whose store holds only
    what it should and, unless the order is the default one, every value
    the vote reads. *)
Lemma decide_commander_order (total m : Z) (o : string)
  (n : CombinedByzantine.ByzantineNode) :
  3 * m < total ->
  1 <= CombinedByzantine.id n < total ->
  CombinedByzantine.total_nodes n = total ->
  stores_only total m o n -> lists_nonempty (CombinedByzantine.messages n) ->
  (o = RETREAT \/
   (Py.get String.eqb (CombinedByzantine.messages n) (CombinedByzantine.path_str [0])
    <> None /\
    forall k, 1 <= k < total -> k <> CombinedByzantine.id n -> m <> 0 ->
              Py.get String.eqb (CombinedByzantine.messages n)
                     (CombinedByzantine.path_str [0; k]) <> None)) ->
  CombinedByzantine.decide n m 0
  = Some (CombinedByzantine.set_final_decision n (Some o)).
Proof.
  intros Hb Hid Htot Hs Hne Hknown. unfold CombinedByzantine.decide.
  destruct (CombinedByzantine.id n =? 0) eqn:E0; [apply Z.eqb_eq in E0; lia|].
  assert (Hc : CombinedByzantine.first_stored n (Py.str 0) = Some o).
  { rewrite <- path_str_commander. apply (first_stored_direct total m); auto.
    destruct Hknown as [->|[H _]]; [now right | now left]. }
  destruct (m =? 0) eqn:Em.
  - rewrite Hc. reflexivity.
  - apply Z.eqb_neq in Em. unfold CombinedByzantine.all_values. rewrite Hc.
    cbn [CombinedByzantine.bind]. rewrite Htot.
    set (others := filter _ (Py.range total)).
    destruct (mapM_count
                (fun lt_id => CombinedByzantine.first_stored n
                                (Py.str 0 ++ "->" ++ Py.str lt_id)%string)
                (fun k => Py.mem k (CombinedByzantine.traitor_ids total m)) o others)
      as (vs & -> & Hlen & Hocc).
    { intros k Hk. apply filter_In in Hk. destruct Hk as [Hk Hcond].
      apply range_In in Hk. apply andb_true_iff in Hcond. destruct Hcond as [Hkj Hk0].
      apply negb_true_iff, Z.eqb_neq in Hkj, Hk0.
      rewrite decide_key_is_path_str.
      destruct (first_stored_relayed total m k o n Hs Hne Hk0) as [[Hg ->]|[Hg ->]].
      - eexists. split; [reflexivity|]. intros Hloyal. unfold relayed_by.
        now rewrite Hloyal.
      - eexists. split; [reflexivity|]. intros _.
        destruct Hknown as [->|[_ H]]; [reflexivity|].
        exfalso. apply (H k); auto; lia. }
    cbn [CombinedByzantine.bind]. do 2 f_equal. f_equal.
    apply (majority_spec o vs).
    rewrite occurrences_cons, String.eqb_refl.
    assert (Hlo : Py.len others = total - 2) by (now apply others_length).
    assert (Hbad : Py.len (filter (fun k => Py.mem k (CombinedByzantine.traitor_ids total m))
                                  others) <= Z.max 0 m).
    { apply traitors_among. apply NoDup_filter, range_NoDup. }
    assert (Hl : Py.len (o :: vs) = 1 + Py.len vs).
    { unfold Py.len. cbn [List.length]. lia. }
    lia.
Qed.

Lemma mapM_all {A B : Type} (g : A -> option B) (h : A -> B) (l : list A) :
  (forall a, In a l -> g a = Some (h a)) -> CombinedByzantine.mapM g l = Some (map h l).
Proof.
  induction l as [|a l IH]; intros H; cbn [CombinedByzantine.mapM map]; [reflexivity|].
  rewrite (H a (or_introl eq_refl)), IH by (intros b Hb; apply H; now right).
  reflexivity.
Qed.

Lemma find_map_same {A : Type} (p : A -> bool) (h : A -> A) (l : list A) :
  (forall a, p (h a) = p a) -> find p (map h l) = option_map h (find p l).
Proof.
  intros H. induction l as [|a l IH]; [reflexivity|]. cbn [map find].
  rewrite H. destruct (p a); [reflexivity | exact IH].
Qed.

Lemma find_by_id (total m i : Z) (ns : list CombinedByzantine.ByzantineNode) :
  sim_nodes_ok total m ns -> 0 <= i < total ->
  exists n, find (fun n => CombinedByzantine.id n =? i) ns = Some n /\
            In n ns /\ CombinedByzantine.id n = i.
Proof.
  intros Hn Hi.
  destruct (find (fun n => CombinedByzantine.id n =? i) ns) as [n|] eqn:F.
  - apply find_some in F. destruct F as [Hin Hid]. apply Z.eqb_eq in Hid. now exists n.
  - exfalso.
    destruct (nth_error ns (Z.to_nat i)) as [n|] eqn:N.
    + pose proof (find_none _ _ F n (nth_error_In _ _ N)) as C. cbn in C.
      destruct (sim_nodes_nth total m _ _ _ Hn N) as (Hid & _).
      apply Z.eqb_neq in C. lia.
    + apply nth_error_None in N. rewrite (sim_nodes_length total m _ Hn) in N. lia.
Qed.

(** The decisions at the end of a simulation whose stores are as they
    should be and hold every value the votes read (or whose order is the
    default one). *)
Lemma simulation_decides_order (total m : Z) (o : string)
  (net : CombinedByzantine.Net) (i : Z) :
  3 * m < total ->
  sim_nodes_ok total m (CombinedByzantine.nodes net) ->
  Forall (stores_only total m o) (CombinedByzantine.nodes net) ->
  (o = RETREAT \/
   (delivered total (CombinedByzantine.nodes net) [0] /\
    (m <> 0 -> forall k, 1 <= k < total ->
                         delivered total (CombinedByzantine.nodes net) [0; k]))) ->
  1 <= i < total ->
  CombinedByzantine.decision_of
    (CombinedByzantine.bind
       (CombinedByzantine.mapM
          (fun n => if negb (CombinedByzantine.id n =? 0)
                    then CombinedByzantine.decide n m 0 else Some n)
          (CombinedByzantine.nodes net))
       (fun decided =>
          Some (CombinedByzantine.mkOutcome false
                  (CombinedByzantine.mkNet decided (CombinedByzantine.sent net))))) i
  = Some o.
Proof.
  intros Hb Hn Hs Hknown Hi.
  rewrite (mapM_all _ (fun n => if negb (CombinedByzantine.id n =? 0)
                                then CombinedByzantine.set_final_decision n (Some o)
                                else n)).
  - cbn [CombinedByzantine.bind CombinedByzantine.decision_of CombinedByzantine.final
         CombinedByzantine.nodes].
    rewrite find_map_same.
    + destruct (find_by_id total m i _ Hn ltac:(lia)) as (n & -> & _ & Hid).
      cbn [option_map]. destruct (CombinedByzantine.id n =? 0) eqn:E0;
        [apply Z.eqb_eq in E0; lia | reflexivity].
    + intros a. destruct (negb (CombinedByzantine.id a =? 0)); reflexivity.
  - intros n Hin. destruct (CombinedByzantine.id n =? 0) eqn:E0; [reflexivity|].
    cbn [negb]. apply Z.eqb_neq in E0.
    destruct (In_nth_node total m _ _ Hn Hin) as (Hid & Hnth & Htot & _).
    rewrite Forall_forall in Hs. destruct Hn as [_ Hne]. rewrite Forall_forall in Hne.
    apply (decide_commander_order total m o n); auto; [lia|].
    destruct Hknown as [->|[H0 H1]]; [now left | right]. split.
    + destruct (H0 (CombinedByzantine.id n)) as (n' & En' & G); [lia | intros [C|[]]; lia |].
      congruence.
    + intros k Hk Hkn Hm.
      destruct (H1 Hm k Hk (CombinedByzantine.id n)) as (n' & En' & G);
        [lia | intros [C|[C|[]]]; lia |].
      congruence.
Qed.

Lemma initial_stores_only (total m : Z) (o : string) :
  Forall (stores_only total m o)
         (map (fun i => CombinedByzantine.init i total
                          (Py.mem i (CombinedByzantine.traitor_ids total m)))
              (Py.range total)).
Proof.
  apply Forall_forall. intros n Hn. apply in_map_iff in Hn. destruct Hn as (i & <- & _).
  split; cbn; intros; discriminate.
Qed.

(** The stores stay as they should be through a whole round when the
    order is the default one, whichever calls fail. *)
Lemma round_stores_default (link : CombinedByzantine.Link) (total m : Z)
  (st : CombinedByzantine.Net * list (list Z)) (i : Z) :
  carries_unchanged link RETREAT ->
  3 * m < total ->
  sim_state_ok total m st ->
  Forall (stores_only total m RETREAT) (CombinedByzantine.nodes (fst st)) ->
  exists st', CombinedByzantine.round link total m RETREAT st i = Some st' /\
              sim_state_ok total m st' /\
              Forall (stores_only total m RETREAT) (CombinedByzantine.nodes (fst st')).
Proof.
  intros Hwire Hb Hok Hs. unfold CombinedByzantine.round.
  apply (foldM_inv _ (fun a => sim_state_ok total m a /\
                               Forall (stores_only total m RETREAT)
                                      (CombinedByzantine.nodes (fst a)))
                   (sim_path_ok total)).
  - intros a p [Ha Hsa] Hp.
    destruct (visit_path_ok link total m i RETREAT a p Ha Hp) as (a' & E & Ha').
    exists a'. repeat split; auto; try apply Ha'.
    apply (visit_path_stores link total m i RETREAT a a' p); auto.
    intros k n Hk _ Hin _. rewrite Forall_forall in Hsa.
    apply (first_stored_direct total m); auto.
    destruct Ha as [[_ Hne] _]. rewrite Forall_forall in Hne. now apply Hne.
  - apply Hok.
  - now split.
Qed.

(** X18: the simulation fails safe.  When the commander orders
    [RETREAT], every lieutenant of [run_byzantine_simulation] decides
    [RETREAT], whichever of the calls fail, each call on its own, and
    whatever the traitors relay; a call that arrives is taken to hand over
    [ATTACK] and [RETREAT] unchanged, as XML-RPC does. *)
Theorem X18_retreat_order_is_always_obeyed
  (link : CombinedByzantine.Link) (total_nodes num_traitors i : Z) :
  (forall k s d v v', v = ATTACK \/ v = RETREAT -> link k s d v = Some v' -> v' = v) ->
  3 * num_traitors < total_nodes -> 1 <= i < total_nodes ->
  CombinedByzantine.decision_of
    (CombinedByzantine.run_byzantine_simulation link total_nodes num_traitors RETREAT) i
  = Some RETREAT.
Proof.
  intros Hlink Hb Hi.
  assert (Hwire : carries_unchanged link RETREAT).
  { intros k s d v v' [->|Hv] E; [|now apply (Hlink k s d)].
    apply (Hlink k s d); [now right | exact E]. }
  unfold CombinedByzantine.run_byzantine_simulation.
  destruct (total_nodes <=? 3 * num_traitors) eqn:E; [apply Z.leb_le in E; lia|].
  set (ns := map _ (Py.range total_nodes)).
  destruct (foldM_inv (CombinedByzantine.round link total_nodes num_traitors RETREAT)
              (fun st => sim_nodes_ok total_nodes num_traitors
                           (CombinedByzantine.nodes (fst st)) /\
                         Forall (stores_only total_nodes num_traitors RETREAT)
                                (CombinedByzantine.nodes (fst st)) /\
                         (0 <= num_traitors -> Forall (sim_path_ok total_nodes) (snd st)))
              (fun _ => 0 <= num_traitors)
              (Py.range (num_traitors + 1))
              (CombinedByzantine.mkNet ns [], [[0]]))
    as (st & -> & Hn & Hs & _).
  { intros a b (Ha1 & Ha2 & Ha3) Hm.
    destruct (round_stores_default link total_nodes num_traitors a b Hwire Hb)
      as (a' & Ea & Ha' & Hs');
      [split; auto | exact Ha2 |].
    exists a'. split; [exact Ea|]. destruct Ha' as [H1 H2]. repeat split; auto; apply H1. }
  { apply Forall_forall. intros j Hj. apply range_In in Hj. lia. }
  { repeat split; cbn [fst snd CombinedByzantine.nodes].
    - apply initial_nodes_ok.
    - apply initial_nodes_ok.
    - apply initial_stores_only.
    - intros Hm. constructor; [|constructor].
      split; [discriminate|]. intros x [<-|[]]. lia. }
  cbn [CombinedByzantine.bind].
  apply (simulation_decides_order total_nodes num_traitors RETREAT (fst st) i); auto.
Qed.

Lemma X18_witness :
  CombinedByzantine.decision_of
    (CombinedByzantine.run_byzantine_simulation first_call_lost 4 1 RETREAT) 1
  = Some RETREAT.
Proof.
  apply (X18_retreat_order_is_always_obeyed first_call_lost 4 1 1); [|lia|lia].
  intros k s d v v' _. unfold first_call_lost.
  destruct (Nat.eqb k 0); [discriminate|]. intros E. now injection E.
Defined.

(** ** The simulation when no call is lost *)

Lemma update_at_nth_same {A : Type} (g : A -> A) (l : list A) (i : nat) :
  nth_error (CombinedByzantine.update_at l i g) i = option_map g (nth_error l i).
Proof. revert i. induction l as [|x l IH]; intros [|i]; cbn; auto. Qed.

Lemma update_at_nth_other {A : Type} (g : A -> A) (l : list A) (i j : nat) :
  i <> j -> nth_error (CombinedByzantine.update_at l i g) j = nth_error l j.
Proof.
  revert i j. induction l as [|x l IH]; intros [|i] [|j] H; cbn; auto; try congruence.
Qed.

Lemma get_set_keeps {V : Type} (d : list (string * V)) (k key : string) (v : V) :
  Py.get String.eqb d key <> None -> Py.get String.eqb (Py.set String.eqb d k v) key <> None.
Proof.
  intros H. destruct (eq_dec_of_eqb String.eqb String.eqb_eq key k) as [->|E].
  - rewrite get_set_same by apply String.eqb_refl. discriminate.
  - now rewrite (get_set_other String.eqb String.eqb_eq) by exact E.
Qed.

Lemma deliver_has_key_mono (link : CombinedByzantine.Link)
  (sender : Z) (net : CombinedByzantine.Net)
  (call : Z * (list Z * string)) (j : Z) (key : string) :
  has_key (CombinedByzantine.nodes net) j key ->
  has_key (CombinedByzantine.nodes (CombinedByzantine.deliver link sender net call)) j key.
Proof.
  intros (n & Hn & Hk). destruct call as [lt_id [path order]].
  unfold CombinedByzantine.deliver. cbn [CombinedByzantine.nodes].
  destruct (link _ sender lt_id order) as [arrived|]; [|now exists n].
  destruct (Nat.eq_dec (Z.to_nat lt_id) (Z.to_nat j)) as [E|E].
  - rewrite E. eexists. split; [rewrite update_at_nth_same, Hn; reflexivity|].
    cbn. now apply get_set_keeps.
  - exists n. split; [now rewrite update_at_nth_other | exact Hk].
Qed.

Lemma deliver_all_has_key_mono (link : CombinedByzantine.Link) (sender : Z)
  (calls : list (Z * (list Z * string))) (net : CombinedByzantine.Net) (j : Z)
  (key : string) :
  has_key (CombinedByzantine.nodes net) j key ->
  has_key (CombinedByzantine.nodes
             (fold_left (CombinedByzantine.deliver link sender) calls net)) j key.
Proof.
  revert net. induction calls as [|c calls IH]; intros net H; cbn [fold_left]; [exact H|].
  apply IH. now apply deliver_has_key_mono.
Qed.

Lemma always_arrives_unchanged (link : CombinedByzantine.Link) (o : string) :
  always_arrives link o -> carries_unchanged link o.
Proof. intros H k s d v v' Hv E. rewrite (H k s d v Hv) in E. congruence. Qed.

Lemma deliver_all_reaches (link : CombinedByzantine.Link)
  (total m sender : Z) (o : string)
  (calls : list (Z * (list Z * string))) (net : CombinedByzantine.Net)
  (call : Z * (list Z * string)) :
  always_arrives link o ->
  sim_nodes_ok total m (CombinedByzantine.nodes net) ->
  In call calls -> 0 <= fst call < total -> in_play o (snd (snd call)) ->
  has_key (CombinedByzantine.nodes
             (fold_left (CombinedByzantine.deliver link sender) calls net))
          (fst call) (CombinedByzantine.path_str (fst (snd call))).
Proof.
  intros Hlink Hn Hin Hlt Hv. revert net Hn Hin.
  induction calls as [|c calls IH]; intros net Hn Hin; [contradiction|].
  cbn [fold_left]. destruct Hin as [->|Hin].
  - apply deliver_all_has_key_mono. destruct call as [lt_id [path order]].
    cbn [fst snd] in *. unfold CombinedByzantine.deliver. cbn [CombinedByzantine.nodes].
    rewrite (Hlink _ sender lt_id order Hv).
    destruct (nth_error (CombinedByzantine.nodes net) (Z.to_nat lt_id)) as [n|] eqn:N.
    + eexists. split; [rewrite update_at_nth_same, N; reflexivity|].
      cbn. rewrite get_set_same by apply String.eqb_refl. discriminate.
    + exfalso. apply nth_error_None in N.
      rewrite (sim_nodes_length total m _ Hn) in N. lia.
  - apply IH; [now apply deliver_ok | exact Hin].
Qed.

Lemma first_stored_within (o : string) (n : CombinedByzantine.ByzantineNode)
  (key v : string) :
  stores_within o n -> CombinedByzantine.first_stored n key = Some v -> in_play o v.
Proof.
  intros Hw. unfold CombinedByzantine.first_stored, Py.get_default.
  destruct (Py.get String.eqb (CombinedByzantine.messages n) key) as [l|] eqn:G.
  - pose proof (get_Forall String.eqb (Forall (in_play o)) _ _ _ Hw G) as Hl.
    destruct l as [|x l]; [discriminate|]. intros E. injection E as <-.
    now inversion Hl.
  - intros E. injection E as <-. right. now right.
Qed.

Lemma current_order_in_play (o : string) (n : CombinedByzantine.ByzantineNode)
  (v : string) (lt_id : Z) :
  in_play o v -> in_play o (CombinedByzantine.current_order n v lt_id).
Proof.
  intros Hv. unfold CombinedByzantine.current_order.
  destruct (_ && _); [apply flip_in_play | exact Hv].
Qed.

Lemma receive_within (o : string) (n : CombinedByzantine.ByzantineNode) (path : list Z)
  (v : string) :
  stores_within o n -> in_play o v ->
  stores_within o (fst (CombinedByzantine.receive_message n path v)).
Proof.
  intros Hw Hv. unfold stores_within.
  cbn [CombinedByzantine.receive_message fst CombinedByzantine.messages
       CombinedByzantine.set_messages].
  apply (set_Forall String.eqb (Forall (in_play o))); [exact Hw|].
  apply forall_snoc; [|exact Hv]. unfold Py.get_default.
  destruct (Py.get String.eqb (CombinedByzantine.messages n)
                   (CombinedByzantine.path_str path)) as [l|] eqn:G; [|constructor].
  exact (get_Forall String.eqb (Forall (in_play o)) _ _ _ Hw G).
Qed.

Lemma deliver_all_within (link : CombinedByzantine.Link) (sender : Z) (o : string)
  (calls : list (Z * (list Z * string))) (net : CombinedByzantine.Net) :
  carries_unchanged link o ->
  Forall (stores_within o) (CombinedByzantine.nodes net) ->
  Forall (fun call => in_play o (snd (snd call))) calls ->
  Forall (stores_within o)
         (CombinedByzantine.nodes
            (fold_left (CombinedByzantine.deliver link sender) calls net)).
Proof.
  intros Hwire Hw Hc. revert net Hw.
  induction Hc as [|[lt_id [path order]] calls Hv Hc IH]; intros net Hw;
    cbn [fold_left]; [exact Hw|].
  cbn [fst snd] in *. apply IH.
  unfold CombinedByzantine.deliver. cbn [CombinedByzantine.nodes].
  destruct (link _ sender lt_id order) as [arrived|] eqn:El; [|exact Hw].
  apply update_at_Forall; [|exact Hw]. intros a Ha.
  apply receive_within; [exact Ha|].
  now rewrite (Hwire _ sender lt_id order arrived Hv El).
Qed.

(** What one visited path leaves behind. *)
Lemma visit_path_reliable (link : CombinedByzantine.Link) (total m i : Z) (o : string)
  (st st' : CombinedByzantine.Net * list (list Z)) (path : list Z) :
  always_arrives link o ->
  sim_state_ok total m st -> sim_path_ok total path ->
  Forall (stores_within o) (CombinedByzantine.nodes (fst st)) ->
  CombinedByzantine.visit_path link total m i o st path = Some st' ->
  visited total m i path st' /\ sim_grows st st' /\
  Forall (stores_within o) (CombinedByzantine.nodes (fst st')).
Proof.
  intros Hlink [Hn Hp] Hpath Hw. destruct st as [net path_history]. cbn [fst snd] in *.
  unfold CombinedByzantine.visit_path.
  destruct (last_of_some total path Hpath) as (last & El & Hlast). rewrite El.
  cbn [CombinedByzantine.bind].
  destruct (if 1 <? Py.len path then _ else _) as [ots|] eqn:Eo;
    cbn [CombinedByzantine.bind]; [|discriminate].
  destruct (nth_error (CombinedByzantine.nodes net) (Z.to_nat last)) as [cn|] eqn:N;
    cbn [CombinedByzantine.bind]; [|discriminate].
  intros E. injection E as <-.
  destruct (sim_nodes_nth total m _ _ _ Hn N) as (_ & Htot & _).
  assert (Hots : in_play o ots).
  { destruct (1 <? Py.len path); [|injection Eo as <-; now left].
    destruct (find _ _) as [node|] eqn:F; [|injection Eo as <-; now left].
    apply find_some in F. destruct F as [Fin _]. rewrite Forall_forall in Hw.
    exact (first_stored_within o node _ ots (Hw node Fin) Eo). }
  assert (Hcalls : Forall (fun call => in_play o (snd (snd call)))
                          (CombinedByzantine.execute_om cn (m - i) path ots)).
  { unfold CombinedByzantine.execute_om. apply Forall_forall. intros call Hcall.
    apply in_map_iff in Hcall. destruct Hcall as (lt_id & <- & _). cbn [snd].
    now apply current_order_in_play. }
  split; [split | split]; cbn [fst snd].
  - intros lt_id Hlt Hnot.
    apply (deliver_all_reaches link total m _ o _ net
             (lt_id, (path, CombinedByzantine.current_order cn ots lt_id))); auto.
    + unfold CombinedByzantine.execute_om. apply in_map_iff. exists lt_id.
      split; [reflexivity|]. apply filter_In. rewrite Htot.
      split; [now apply range_In | now apply not_mem_In].
    + cbn [snd]. now apply current_order_in_play.
  - intros Hmi lt_id Hlt Hnot. apply Z.ltb_lt in Hmi. rewrite Hmi.
    apply in_or_app. right. apply in_map_iff. exists lt_id. split; [reflexivity|].
    apply filter_In. split; [now apply range_In | now apply not_mem_In].
  - split; cbn [fst snd].
    + intros j key. apply deliver_all_has_key_mono.
    + destruct (0 <? m - i); [apply incl_appl|]; apply incl_refl.
  - apply deliver_all_within; auto. now apply always_arrives_unchanged.
Qed.

Lemma sim_grows_refl (a : CombinedByzantine.Net * list (list Z)) : sim_grows a a.
Proof. split; [auto | apply incl_refl]. Qed.

Lemma sim_grows_trans (a b c : CombinedByzantine.Net * list (list Z)) :
  sim_grows a b -> sim_grows b c -> sim_grows a c.
Proof. intros [H1 H2] [H3 H4]. split; [auto | eapply incl_tran; eauto]. Qed.

Lemma delivered_grows (total : Z) (a a' : CombinedByzantine.Net * list (list Z))
  (p : list Z) :
  sim_grows a a' -> delivered total (CombinedByzantine.nodes (fst a)) p ->
  delivered total (CombinedByzantine.nodes (fst a')) p.
Proof. intros [H _] Hd lt_id Hlt Hnot. apply H. now apply Hd. Qed.

Lemma visited_grows (total m i : Z) (a a' : CombinedByzantine.Net * list (list Z))
  (p : list Z) :
  sim_grows a a' -> visited total m i p a -> visited total m i p a'.
Proof.
  intros Hg [Hd He]. split; [now apply (delivered_grows total a a')|].
  intros Hmi lt_id Hlt Hnot. apply (proj2 Hg). now apply He.
Qed.

Lemma foldM_inv_each {A B : Type} (g : A -> B -> option A) (I : A -> Prop)
  (Q : B -> Prop) (D : B -> A -> Prop) (M : A -> A -> Prop) (l : list B) (a : A) :
  (forall a, M a a) -> (forall a b c, M a b -> M b c -> M a c) ->
  (forall a b, I a -> Q b -> exists a', g a b = Some a' /\ I a' /\ D b a' /\ M a a') ->
  (forall a a' b, M a a' -> D b a -> D b a') ->
  Forall Q l -> I a ->
  exists a', CombinedByzantine.foldM g l a = Some a' /\ I a' /\ M a a' /\
             forall b, In b l -> D b a'.
Proof.
  intros Mrefl Mtrans Hstep Hmono Hl. revert a.
  induction Hl as [|b l Hb Hl IH]; intros a Ha; cbn [CombinedByzantine.foldM].
  - exists a. repeat split; auto. intros b [].
  - destruct (Hstep a b Ha Hb) as (a1 & -> & Ha1 & Hd1 & Hm1). cbn [CombinedByzantine.bind].
    destruct (IH a1 Ha1) as (a' & E & Ha' & Hm' & Hd'). exists a'.
    repeat split; auto; [eapply Mtrans; eauto|].
    intros b0 [<-|Hin]; [eapply Hmono; eauto | now apply Hd'].
Qed.

(** One round with no call lost: every path of the history has been
    visited. *)
Lemma round_reliable (link : CombinedByzantine.Link) (total m i : Z) (o : string)
  (st : CombinedByzantine.Net * list (list Z)) :
  always_arrives link o -> 3 * m < total ->
  sim_valid_ok total m o st ->
  exists st', CombinedByzantine.round link total m o st i = Some st' /\
              sim_valid_ok total m o st' /\ sim_grows st st' /\
              forall p, In p (snd st) -> visited total m i p st'.
Proof.
  intros Hlink Hb Hst. unfold CombinedByzantine.round.
  destruct (foldM_inv_each (CombinedByzantine.visit_path link total m i o)
              (fun a => sim_valid_ok total m o a /\ incl (snd st) (snd a))
              (fun p => sim_path_ok total p /\ In p (snd st))
              (visited total m i) sim_grows (snd st) st)
    as (st' & E & [Hv _] & Hg & Hd).
  - apply sim_grows_refl.
  - apply sim_grows_trans.
  - intros a p [(Ha & Hwa & Hsa & Hda) Hincl] [Hp Hin].
    destruct (visit_path_ok link total m i o a p Ha Hp) as (a' & E & Ha').
    destruct (visit_path_reliable link total m i o a a' p Hlink Ha Hp Hwa E)
      as (Hvis & Hgr & Hwa').
    exists a'. split; [exact E|].
    split; [|split; [exact Hvis | exact Hgr]].
    split; [|eapply incl_tran; [exact Hincl | exact (proj2 Hgr)]].
    split; [exact Ha'|]. split; [exact Hwa'|]. split.
    + apply (visit_path_stores link total m i o a a' p
               (always_arrives_unchanged link o Hlink) Hb Ha Hp Hsa); [|exact E].
      intros k n Hk Epath Hn Hid. subst p.
      destruct Ha as [Hnodes _].
      assert (Hlong : exists q, In q (snd a) /\ q <> [0]).
      { exists [0; k]. split; [now apply Hincl | discriminate]. }
      destruct (Hda Hlong k) as (n' & En' & G).
      { destruct Hp as [_ Hp]. apply Hp. right. now left. }
      { intros [C|[]]. congruence. }
      destruct (In_nth_node total m _ _ Hnodes Hn) as (_ & Hnth & _).
      rewrite Hid, En' in Hnth. injection Hnth as ->.
      rewrite Forall_forall in Hsa. destruct Hnodes as [_ Hne].
      rewrite Forall_forall in Hne.
      apply (first_stored_direct total m o n (Hsa n Hn) (Hne n Hn)). now left.
    + intros _. destruct (list_eq_dec Z.eq_dec p [0]) as [->|Hne]; [exact (proj1 Hvis)|].
      apply (delivered_grows total a a' [0] Hgr).
      apply Hda. exists p. split; [now apply Hincl | exact Hne].
  - intros a a' b. apply visited_grows.
  - destruct Hst as [[_ Hp] _]. rewrite Forall_forall in Hp |- *.
    intros p Hin. split; [now apply Hp | exact Hin].
  - split; [exact Hst | apply incl_refl].
  - exists st'. split; [exact E|]. split; [exact Hv|]. split; [exact Hg | exact Hd].
Qed.

(** X19: validity.  When every call arrives and hands over its order
    unchanged, every lieutenant of [run_byzantine_simulation] decides the
    order the commander gave, whatever the traitors relay.  The calls carry
    the commander's order, [ATTACK] or [RETREAT]; only for these is the
    arrival assumed. *)
Theorem X19_order_is_obeyed_when_no_call_is_lost
  (link : CombinedByzantine.Link) (total_nodes num_traitors i : Z)
  (commander_order : string) :
  (forall k s d v, v = commander_order \/ v = ATTACK \/ v = RETREAT ->
                   link k s d v = Some v) ->
  0 <= num_traitors -> 3 * num_traitors < total_nodes -> 1 <= i < total_nodes ->
  CombinedByzantine.decision_of
    (CombinedByzantine.run_byzantine_simulation link total_nodes num_traitors
       commander_order) i
  = Some commander_order.
Proof.
  intros Hlink Hm Hb Hi. unfold CombinedByzantine.run_byzantine_simulation.
  destruct (total_nodes <=? 3 * num_traitors) eqn:E; [apply Z.leb_le in E; lia|].
  set (ns := map _ (Py.range total_nodes)).
  assert (H0 : sim_valid_ok total_nodes num_traitors commander_order
                 (CombinedByzantine.mkNet ns [], [[0]])).
  { split; [split|split; [|split]]; cbn [fst snd CombinedByzantine.nodes].
    - apply initial_nodes_ok.
    - constructor; [|constructor]. split; [discriminate|]. intros x [<-|[]]. lia.
    - apply Forall_forall. intros n Hn. apply in_map_iff in Hn.
      destruct Hn as (j & <- & _). constructor.
    - apply initial_stores_only.
    - intros (p & [<-|[]] & Hp). congruence. }
  replace (num_traitors + 1) with (Z.succ num_traitors) by lia.
  unfold Py.range at 1. rewrite Z2Nat.inj_succ by lia.
  cbn [seq map CombinedByzantine.foldM].
  destruct (round_reliable link total_nodes num_traitors (Z.of_nat 0) commander_order _
              Hlink Hb H0) as (st1 & -> & Hv1 & Hg1 & Hd1).
  cbn [CombinedByzantine.bind].
  destruct (Hd1 [0] (or_introl eq_refl)) as [Hdel0 Hext0]. cbn [snd] in Hext0.
  destruct (Z.to_nat num_traitors) as [|k] eqn:Ek; cbn [seq map CombinedByzantine.foldM].
  - cbn [CombinedByzantine.bind].
    apply (simulation_decides_order total_nodes num_traitors commander_order (fst st1) i);
      auto; try apply Hv1.
    right. split; [exact Hdel0 | lia].
  - destruct (round_reliable link total_nodes num_traitors (Z.of_nat 1) commander_order st1
                Hlink Hb Hv1) as (st2 & -> & Hv2 & Hg2 & Hd2).
    cbn [CombinedByzantine.bind].
    destruct (foldM_inv
                (CombinedByzantine.round link total_nodes num_traitors commander_order)
                (fun a => sim_valid_ok total_nodes num_traitors commander_order a /\
                          sim_grows st2 a)
                (fun _ => True) (map Z.of_nat (seq 2 k)) st2) as (st3 & -> & Hv3 & Hg3).
    { intros a b [Ha Hga] _.
      destruct (round_reliable link total_nodes num_traitors b commander_order a
                  Hlink Hb Ha) as (a' & Ea & Ha' & Hg' & _).
      exists a'. split; [exact Ea|]. split; [exact Ha'|].
      now apply (sim_grows_trans st2 a a'). }
    { apply Forall_forall. intros; exact I. }
    { split; [exact Hv2 | apply sim_grows_refl]. }
    cbn [CombinedByzantine.bind].
    apply (simulation_decides_order total_nodes num_traitors commander_order (fst st3) i);
      auto; try apply Hv3.
    right. split.
    + apply (delivered_grows total_nodes st2 st3 [0] Hg3).
      apply (delivered_grows total_nodes st1 st2 [0] Hg2). exact Hdel0.
    + intros _ j Hj. apply (delivered_grows total_nodes st2 st3 [0; j] Hg3).
      apply (Hd2 [0; j]).
      apply (Hext0 ltac:(lia) j ltac:(lia)). intros [C|[]]. lia.
Qed.

Lemma X19_witness :
  CombinedByzantine.decision_of
    (CombinedByzantine.run_byzantine_simulation CombinedByzantine.reliable 4 1 ATTACK) 2
  = Some ATTACK.
Proof.
  apply (X19_order_is_obeyed_when_no_call_is_lost CombinedByzantine.reliable 4 1 2 ATTACK);
    [intros; reflexivity | lia | lia | lia].
Defined.

(** ** A lieutenant that no call reaches *)

Lemma deliver_all_untouched (link : CombinedByzantine.Link) (sender i : Z)
  (calls : list (Z * (list Z * string))) (net : CombinedByzantine.Net) :
  (forall k s v, link k s i v = None) -> 0 <= i ->
  Forall (fun call => 0 <= fst call) calls ->
  nth_error (CombinedByzantine.nodes
               (fold_left (CombinedByzantine.deliver link sender) calls net))
            (Z.to_nat i)
  = nth_error (CombinedByzantine.nodes net) (Z.to_nat i).
Proof.
  intros Hlink Hi Hc. revert net.
  induction Hc as [|[lt_id [path order]] calls Hlt Hc IH]; intros net; cbn [fold_left];
    [reflexivity|].
  rewrite IH. unfold CombinedByzantine.deliver. cbn [CombinedByzantine.nodes fst] in *.
  destruct (link _ sender lt_id order) as [arrived|] eqn:El; [|reflexivity].
  apply update_at_nth_other. intros C.
  assert (lt_id = i) by lia. subst lt_id. rewrite Hlink in El. discriminate.
Qed.

Lemma visit_path_untouched (link : CombinedByzantine.Link)
  (total m r i : Z) (o : string)
  (st st' : CombinedByzantine.Net * list (list Z)) (path : list Z) :
  (forall k s v, link k s i v = None) -> 0 <= i ->
  CombinedByzantine.visit_path link total m r o st path = Some st' ->
  nth_error (CombinedByzantine.nodes (fst st')) (Z.to_nat i)
  = nth_error (CombinedByzantine.nodes (fst st)) (Z.to_nat i).
Proof.
  intros Hlink Hi. destruct st as [net path_history].
  unfold CombinedByzantine.visit_path.
  destruct (CombinedByzantine.last_of path) as [last|]; cbn [CombinedByzantine.bind];
    [|discriminate].
  destruct (if 1 <? Py.len path then _ else _) as [ots|];
    cbn [CombinedByzantine.bind]; [|discriminate].
  destruct (nth_error (CombinedByzantine.nodes net) (Z.to_nat last)) as [cn|];
    cbn [CombinedByzantine.bind]; [|discriminate].
  intros E. injection E as <-. cbn [fst].
  apply deliver_all_untouched; auto.
  unfold CombinedByzantine.execute_om. apply Forall_forall. intros call Hcall.
  apply in_map_iff in Hcall. destruct Hcall as (lt_id & <- & Hlt).
  apply filter_In in Hlt. destruct Hlt as [Hlt _]. apply range_In in Hlt. cbn. lia.
Qed.

(** [decide] on an empty store. *)
Lemma decide_on_nothing (n : CombinedByzantine.ByzantineNode) (m : Z) :
  CombinedByzantine.messages n = [] -> CombinedByzantine.id n <> 0 ->
  CombinedByzantine.decide n m 0
  = Some (CombinedByzantine.set_final_decision n (Some RETREAT)).
Proof.
  intros Hm Hid. unfold CombinedByzantine.decide.
  destruct (CombinedByzantine.id n =? 0) eqn:E0; [apply Z.eqb_eq in E0; contradiction|].
  assert (Hf : forall key, CombinedByzantine.first_stored n key = Some RETREAT).
  { intros key. unfold CombinedByzantine.first_stored. now rewrite Hm. }
  destruct (m =? 0).
  - now rewrite Hf.
  - unfold CombinedByzantine.all_values. rewrite Hf. cbn [CombinedByzantine.bind].
    rewrite (mapM_all _ (fun _ => RETREAT)) by (intros; apply Hf).
    cbn [CombinedByzantine.bind]. rewrite majority_unanimous; [reflexivity|].
    apply Forall_forall. intros v Hv. apply in_map_iff in Hv.
    now destruct Hv as (_ & <- & _).
Qed.

Lemma mapM_nth {A B : Type} (g : A -> option B) (l : list A) (bs : list B) (k : nat)
  (a : A) :
  CombinedByzantine.mapM g l = Some bs -> nth_error l k = Some a ->
  exists b, nth_error bs k = Some b /\ g a = Some b.
Proof.
  revert bs k. induction l as [|x l IH]; intros bs k; cbn [CombinedByzantine.mapM].
  - intros _ H. destruct k; discriminate.
  - destruct (g x) as [b|] eqn:Eg; cbn [CombinedByzantine.bind]; [|discriminate].
    destruct (CombinedByzantine.mapM g l) as [bs'|] eqn:Em; cbn [CombinedByzantine.bind];
      [|discriminate].
    intros E. injection E as <-. destruct k as [|k]; cbn [nth_error].
    + intros E. injection E as <-. now exists b.
    + now apply IH.
Qed.

Lemma find_nth_id (total m i : Z) (ds : list CombinedByzantine.ByzantineNode)
  (d : CombinedByzantine.ByzantineNode) :
  map CombinedByzantine.id ds = Py.range total -> 0 <= i ->
  nth_error ds (Z.to_nat i) = Some d ->
  find (fun n => CombinedByzantine.id n =? i) ds = Some d.
Proof.
  intros Hids Hi Hd.
  assert (Hnth : forall k x, nth_error ds k = Some x ->
                             CombinedByzantine.id x = Z.of_nat k).
  { intros k x Hx. pose proof (map_nth_error CombinedByzantine.id _ _ Hx) as E.
    rewrite Hids in E. unfold Py.range in E.
    assert (Hk : (k < Z.to_nat total)%nat).
    { apply (f_equal (@List.length _)) in Hids.
      rewrite length_map, range_length in Hids. rewrite <- Hids.
      apply nth_error_Some. congruence. }
    assert (Es : nth_error (seq 0 (Z.to_nat total)) k = Some k).
    { rewrite nth_error_nth' with (d := O) by (now rewrite length_seq).
      now rewrite seq_nth. }
    rewrite (map_nth_error _ _ _ Es) in E. congruence. }
  clear Hids. remember (Z.to_nat i) as k eqn:Ek.
  assert (Hi' : i = Z.of_nat k) by lia. clear Ek Hi. subst i.
  assert (Hshift : forall (l : list CombinedByzantine.ByzantineNode) (s : nat),
             (forall j x, nth_error l j = Some x ->
                          CombinedByzantine.id x = Z.of_nat (s + j)) ->
             forall j x, nth_error l j = Some x ->
                         find (fun n => CombinedByzantine.id n =? Z.of_nat (s + j)) l
                         = Some x).
  { induction l as [|y l IH]; intros s Hl j x Hx; [destruct j; discriminate|].
    cbn [find]. destruct j as [|j]; cbn [nth_error] in Hx.
    - injection Hx as ->. rewrite (Hl 0%nat x eq_refl), Z.eqb_refl. reflexivity.
    - pose proof (Hl 0%nat y eq_refl) as Hy.
      destruct (CombinedByzantine.id y =? Z.of_nat (s + S j)) eqn:E;
        [apply Z.eqb_eq in E; lia|].
      replace (s + S j)%nat with (S s + j)%nat by lia. apply IH; [|exact Hx].
      intros j' x' Hx'. replace (S s + j')%nat with (s + S j')%nat by lia.
      now apply Hl. }
  apply (Hshift ds 0%nat Hnth k d Hd).
Qed.

(** X20: a lieutenant that no call reaches decides [RETREAT], whatever
    the commander ordered and whatever becomes of the calls to the other
    nodes. *)
Theorem X20_cut_off_lieutenant_retreats
  (link : CombinedByzantine.Link) (total_nodes num_traitors i : Z)
  (commander_order : string) :
  3 * num_traitors < total_nodes -> 1 <= i < total_nodes ->
  (forall k s v, link k s i v = None) ->
  CombinedByzantine.decision_of
    (CombinedByzantine.run_byzantine_simulation link total_nodes num_traitors
       commander_order) i
  = Some RETREAT.
Proof.
  intros Hb Hi Hlink. unfold CombinedByzantine.run_byzantine_simulation.
  destruct (total_nodes <=? 3 * num_traitors) eqn:E; [apply Z.leb_le in E; lia|].
  set (ns := map _ (Py.range total_nodes)).
  destruct (foldM_inv
              (CombinedByzantine.round link total_nodes num_traitors commander_order)
              (fun st => sim_nodes_ok total_nodes num_traitors
                           (CombinedByzantine.nodes (fst st)) /\
                         (0 <= num_traitors -> Forall (sim_path_ok total_nodes) (snd st)) /\
                         nth_error (CombinedByzantine.nodes (fst st)) (Z.to_nat i)
                         = nth_error ns (Z.to_nat i))
              (fun _ => 0 <= num_traitors)
              (Py.range (num_traitors + 1))
              (CombinedByzantine.mkNet ns [], [[0]]))
    as (st & -> & Hn & _ & Hnth).
  { intros a r (Ha1 & Ha2 & Ha3) Hm. unfold CombinedByzantine.round.
    destruct (foldM_inv
                (CombinedByzantine.visit_path link total_nodes num_traitors r
                   commander_order)
                (fun st => sim_state_ok total_nodes num_traitors st /\
                           nth_error (CombinedByzantine.nodes (fst st)) (Z.to_nat i)
                           = nth_error ns (Z.to_nat i))
                (sim_path_ok total_nodes) (snd a) a) as (a' & Ea & [Ha' Hnth']).
    - intros b p [Hb1 Hb2] Hp.
      destruct (visit_path_ok link total_nodes num_traitors r commander_order b p Hb1 Hp)
        as (b' & Eb & Hb').
      exists b'. split; [exact Eb|]. split; [exact Hb'|].
      rewrite <- Hb2.
      apply (visit_path_untouched link total_nodes num_traitors r i commander_order b b' p);
        auto; lia.
    - now apply Ha2.
    - split; [split; auto | exact Ha3].
    - exists a'. split; [exact Ea|]. destruct Ha' as [H1 H2]. repeat split; auto; apply H1. }
  { apply Forall_forall. intros j Hj. apply range_In in Hj. lia. }
  { repeat split; cbn [fst snd CombinedByzantine.nodes].
    - apply initial_nodes_ok.
    - apply initial_nodes_ok.
    - intros Hm. constructor; [|constructor].
      split; [discriminate|]. intros x [<-|[]]. lia. }
  cbn [CombinedByzantine.bind].
  destruct (decide_all_ok total_nodes num_traitors num_traitors 0 _ (proj2 Hn))
    as (ds & Eds & Hs & _ & _).
  rewrite Eds. cbn [CombinedByzantine.bind CombinedByzantine.decision_of
                    CombinedByzantine.final CombinedByzantine.nodes].
  assert (Hids : map CombinedByzantine.id ds = Py.range total_nodes).
  { rewrite (proj1 Hn) in Hs.
    apply (f_equal (map (fun t : Z * Z * bool => fst (fst t)))) in Hs.
    rewrite !map_map in Hs. cbn [fst] in Hs. now rewrite map_id in Hs. }
  assert (Hn0 : nth_error ns (Z.to_nat i)
                = Some (CombinedByzantine.init i total_nodes
                          (Py.mem i (CombinedByzantine.traitor_ids total_nodes
                                       num_traitors)))).
  { subst ns. unfold Py.range.
    assert (Es : nth_error (seq 0 (Z.to_nat total_nodes)) (Z.to_nat i) = Some (Z.to_nat i)).
    { rewrite nth_error_nth' with (d := O) by (rewrite length_seq; lia).
      rewrite seq_nth by lia. reflexivity. }
    rewrite map_map, (map_nth_error _ _ _ Es), Z2Nat.id by lia. reflexivity. }
  rewrite Hn0 in Hnth.
  destruct (mapM_nth _ _ _ _ _ Eds Hnth) as (d & Hd & Edec).
  cbn [CombinedByzantine.init CombinedByzantine.id] in Edec.
  destruct (i =? 0) eqn:Ei; [apply Z.eqb_eq in Ei; lia|]. cbn [negb] in Edec.
  rewrite decide_on_nothing in Edec by (cbn; auto; lia).
  injection Edec as <-.
  rewrite (find_nth_id total_nodes num_traitors i ds _ Hids ltac:(lia) Hd). reflexivity.
Qed.

Lemma X20_witness :
  CombinedByzantine.decision_of
    (CombinedByzantine.run_byzantine_simulation
       (fun _ _ d v => if d =? 2 then None else Some v) 4 1 ATTACK) 2
  = Some RETREAT.
Proof.
  apply (X20_cut_off_lieutenant_retreats
           (fun _ _ d v => if d =? 2 then None else Some v) 4 1 2 ATTACK);
    [lia | lia | reflexivity].
Defined.

(** ** Which paths share a key of the store *)

Lemma insert_Z_sorted (x : Z) (l : list Z) :
  StronglySorted Z.le l -> StronglySorted Z.le (Py.insert Z.ltb x l).
Proof.
  induction 1 as [|y l Hl IH Hy]; cbn [Py.insert].
  - repeat constructor.
  - destruct (x <? y) eqn:E.
    + apply Z.ltb_lt in E. constructor; [now constructor|].
      constructor; [lia|]. eapply Forall_impl; [|exact Hy]. cbn. intros; lia.
    + apply Z.ltb_ge in E. constructor; [exact IH|].
      eapply Permutation_Forall; [symmetry; apply insert_perm|].
      constructor; [exact E | exact Hy].
Qed.

Lemma sort_Z_sorted (l : list Z) : StronglySorted Z.le (Py.sort Z.ltb l).
Proof.
  induction l as [|x l IH] using rev_ind; [constructor|].
  rewrite sort_snoc. now apply insert_Z_sorted.
Qed.

Lemma sorted_perm_eq (l l' : list Z) :
  StronglySorted Z.le l -> StronglySorted Z.le l' -> Permutation l l' -> l = l'.
Proof.
  intros Hl. revert l'. induction Hl as [|x l Hl IH Hx]; intros l' Hl' Hp.
  - apply Permutation_nil in Hp. now subst.
  - destruct Hl' as [|y l' Hl' Hy].
    + symmetry in Hp. apply Permutation_nil in Hp. discriminate.
    + assert (Exy : x = y).
      { assert (Hxin : In x (y :: l')) by (eapply Permutation_in; [exact Hp | now left]).
        assert (Hyin : In y (x :: l)).
        { eapply Permutation_in; [symmetry; exact Hp | now left]. }
        rewrite Forall_forall in Hx, Hy.
        destruct Hxin as [->|Hxin]; [reflexivity|].
        destruct Hyin as [->|Hyin]; [reflexivity|].
        specialize (Hx y Hyin). specialize (Hy x Hxin). lia. }
      subst y. f_equal. apply IH; [exact Hl'|]. now apply Permutation_cons_inv in Hp.
Qed.

Lemma sort_Z_same (p q : list Z) :
  Py.sort Z.ltb p = Py.sort Z.ltb q <-> Permutation p q.
Proof.
  split.
  - intros E. rewrite <- (sort_perm Z.ltb p), <- (sort_perm Z.ltb q), E. reflexivity.
  - intros Hp. apply sorted_perm_eq; try apply sort_Z_sorted.
    now rewrite !sort_perm.
Qed.

Lemma byzantine_node_receive_stored (n : ByzantineNodePy.Lieutenant) (c : Z)
  (order : string) (path : list Z) :
  ByzantineNodePy.messages (fst (fst (ByzantineNodePy.receive_order n c order path)))
  = let stored := if ByzantineNodePy.is_traitor n
                  then (if String.eqb order ATTACK then RETREAT else ATTACK)
                  else order in
    let path_key := Py.sort Z.ltb path in
    let ms1 := if negb (Py.contains Py.list_eqb (ByzantineNodePy.messages n) path_key)
               then Py.set Py.list_eqb (ByzantineNodePy.messages n) path_key []
               else ByzantineNodePy.messages n in
    Py.set Py.list_eqb ms1 path_key
           (Py.get_default Py.list_eqb ms1 path_key [] ++ [stored]).
Proof.
  unfold ByzantineNodePy.receive_order. cbv zeta.
  destruct (Py.len path <=? ByzantineNodePy.m); reflexivity.
Qed.

(** X21: which relay paths share a key of the store.  In
    [combined_assignments.py] no two paths do: [receive_message] for one
    path appends under the key of that path and leaves the list of every
    other path as it was.  In [byzantine_node.py] two paths share a key
    exactly when one is a reordering of the other: [receive_order] appends
    the stored order to the list of every reordering of its path, and
    leaves the lists of all other paths as they were. *)
Theorem X21_which_paths_share_a_key :
  (forall (n : CombinedByzantine.ByzantineNode) (p q : list Z) (v : string),
      Py.get String.eqb
             (CombinedByzantine.messages (fst (CombinedByzantine.receive_message n p v)))
             (CombinedByzantine.path_str p)
      = Some (Py.get_default String.eqb (CombinedByzantine.messages n)
                             (CombinedByzantine.path_str p) [] ++ [v]) /\
      (p <> q ->
       Py.get String.eqb
              (CombinedByzantine.messages (fst (CombinedByzantine.receive_message n p v)))
              (CombinedByzantine.path_str q)
       = Py.get String.eqb (CombinedByzantine.messages n) (CombinedByzantine.path_str q)))
  /\
  (forall (n : ByzantineNodePy.Lieutenant) (c : Z) (v : string) (p q : list Z),
      (Permutation p q ->
       Py.get Py.list_eqb
              (ByzantineNodePy.messages (fst (fst (ByzantineNodePy.receive_order n c v p))))
              (Py.sort Z.ltb q)
       = Some (Py.get_default Py.list_eqb (ByzantineNodePy.messages n) (Py.sort Z.ltb q) []
               ++ [if ByzantineNodePy.is_traitor n
                   then (if String.eqb v ATTACK then RETREAT else ATTACK)
                   else v])) /\
      (~ Permutation p q ->
       Py.get Py.list_eqb
              (ByzantineNodePy.messages (fst (fst (ByzantineNodePy.receive_order n c v p))))
              (Py.sort Z.ltb q)
       = Py.get Py.list_eqb (ByzantineNodePy.messages n) (Py.sort Z.ltb q))).
Proof.
  split.
  - intros n p q v.
    cbn [CombinedByzantine.receive_message fst CombinedByzantine.messages
         CombinedByzantine.set_messages].
    split; [apply get_set_same, String.eqb_refl|].
    intros Hpq. apply (get_set_other String.eqb String.eqb_eq).
    intros E. apply path_str_inj in E. congruence.
  - intros n c v p q. rewrite byzantine_node_receive_stored. cbv zeta. split.
    + intros Hp. apply sort_Z_same in Hp. rewrite <- Hp.
      rewrite get_set_same by apply list_eqb_refl. do 2 f_equal.
      unfold Py.contains, Py.get_default.
      destruct (Py.get Py.list_eqb (ByzantineNodePy.messages n) (Py.sort Z.ltb p)) eqn:G;
        cbn [negb].
      * now rewrite G.
      * now rewrite get_set_same by apply list_eqb_refl.
    + intros Hp.
      assert (Hne : Py.sort Z.ltb q <> Py.sort Z.ltb p).
      { intros E. apply Hp. symmetry. now apply sort_Z_same. }
      rewrite (get_set_other Py.list_eqb list_eqb_eq) by exact Hne.
      destruct (negb _); [|reflexivity].
      now rewrite (get_set_other Py.list_eqb list_eqb_eq) by exact Hne.
Qed.

Lemma X21_witness :
  Py.get String.eqb
         (CombinedByzantine.messages
            (fst (CombinedByzantine.receive_message
                    (CombinedByzantine.mkNode 2 4 false [("0->1", [ATTACK])] None)
                    [0; 12] RETREAT)))
         (CombinedByzantine.path_str [0; 1])
  = Some [ATTACK].
Proof.
  apply (proj2 (proj1 X21_which_paths_share_a_key
                  (CombinedByzantine.mkNode 2 4 false [("0->1", [ATTACK])] None)
                  [0; 12] [0; 1] RETREAT)).
  discriminate.
Defined.

(** ** The calls the simulation attempts *)

Lemma deliver_all_sent (link : CombinedByzantine.Link) (sender : Z)
  (calls : list (Z * (list Z * string))) (net : CombinedByzantine.Net) :
  CombinedByzantine.sent (fold_left (CombinedByzantine.deliver link sender) calls net)
  = CombinedByzantine.sent net
    ++ map (fun c => (sender, fst c, fst (snd c), snd (snd c))) calls.
Proof.
  revert net. induction calls as [|[lt_id [path order]] calls IH]; intros net;
    cbn [fold_left map]; [now rewrite app_nil_r|].
  rewrite IH. cbn [CombinedByzantine.deliver CombinedByzantine.sent fst snd].
  now rewrite <- app_assoc.
Qed.

Lemma visit_path_calls (link : CombinedByzantine.Link) (total m i : Z) (o : string)
  (st st' : CombinedByzantine.Net * list (list Z)) (path : list Z) :
  i <= m ->
  sim_nodes_ok total m (CombinedByzantine.nodes (fst st)) ->
  sim_path_fresh total (i + 1) path ->
  Forall (sim_path_fresh total (i + 2)) (snd st) ->
  Forall (call_ok total m) (CombinedByzantine.sent (fst st)) ->
  CombinedByzantine.visit_path link total m i o st path = Some st' ->
  Forall (sim_path_fresh total (i + 2)) (snd st') /\
  Forall (call_ok total m) (CombinedByzantine.sent (fst st')).
Proof.
  intros Him Hn (Hpath & Hhd & Hnd & Hlen) Hh Hs. destruct st as [net path_history].
  cbn [fst snd] in *. unfold CombinedByzantine.visit_path.
  destruct (last_of_some total path Hpath) as (last & El & Hlast). rewrite El.
  cbn [CombinedByzantine.bind].
  destruct (if 1 <? Py.len path then _ else _) as [ots|];
    cbn [CombinedByzantine.bind]; [|discriminate].
  destruct (nth_error (CombinedByzantine.nodes net) (Z.to_nat last)) as [cn|] eqn:N;
    cbn [CombinedByzantine.bind]; [|discriminate].
  intros E. injection E as <-. cbn [fst snd].
  destruct (sim_nodes_nth total m _ _ _ Hn N) as (Hid & Htot & _).
  rewrite Z2Nat.id in Hid by lia. split.
  - destruct (0 <? m - i); [|exact Hh].
    apply Forall_app. split; [exact Hh|].
    apply Forall_forall. intros p Hin. apply in_map_iff in Hin.
    destruct Hin as (lt_id & <- & Hlt). apply filter_In in Hlt.
    destruct Hlt as [Hlt Hnot]. apply range_In in Hlt. apply not_mem_In in Hnot.
    destruct Hpath as [Hne Hall]. split; [split | split; [|split]].
    + intros C. apply app_eq_nil in C. destruct C as [_ C]. discriminate.
    + intros x Hx. apply in_app_or in Hx. destruct Hx as [Hx|[<-|[]]]; auto.
    + destruct path; [discriminate | exact Hhd].
    + apply NoDup_app; [exact Hnd | repeat constructor; intros [] |].
      intros x Hx [<-|[]]. contradiction.
    + rewrite len_app_one. lia.
  - rewrite deliver_all_sent. apply Forall_app. split; [exact Hs|].
    apply Forall_forall. intros c Hc. apply in_map_iff in Hc.
    destruct Hc as (call & <- & Hcall). unfold CombinedByzantine.execute_om in Hcall.
    apply in_map_iff in Hcall. destruct Hcall as (lt_id & <- & Hlt).
    apply filter_In in Hlt. destruct Hlt as [Hlt Hnot]. rewrite Htot in Hlt.
    apply range_In in Hlt. apply not_mem_In in Hnot.
    cbn [fst snd call_ok]. rewrite Hid. repeat split; auto; lia.
Qed.

Lemma foldM_seq_inv {A : Type} (g : A -> Z -> option A) (I : nat -> A -> Prop)
  (n s : nat) (a : A) :
  I s a ->
  (forall k a, (s <= k < s + n)%nat -> I k a ->
               exists a', g a (Z.of_nat k) = Some a' /\ I (S k) a') ->
  exists a', CombinedByzantine.foldM g (map Z.of_nat (seq s n)) a = Some a' /\
             I (s + n)%nat a'.
Proof.
  revert s a. induction n as [|n IH]; intros s a Ha Hstep;
    cbn [seq map CombinedByzantine.foldM].
  - exists a. now rewrite Nat.add_0_r.
  - destruct (Hstep s a ltac:(lia) Ha) as (a1 & -> & Ha1). cbn [CombinedByzantine.bind].
    destruct (IH (S s) a1 Ha1) as (a' & E & Ha').
    + intros k b Hk. apply Hstep. lia.
    + exists a'. split; [exact E|]. now replace (s + S n)%nat with (S s + n)%nat by lia.
Qed.

(** X22: the calls the simulation attempts.  The path of every call leads
    from the commander to the sender of the call without a repeated node
    and has at most [num_traitors + 1] nodes; the call goes to a node that
    is not on the path, so never to the commander and never back to the
    sender. *)
Theorem X22_calls_follow_fresh_paths
  (link : CombinedByzantine.Link) (total_nodes num_traitors : Z)
  (commander_order : string) :
  3 * num_traitors < total_nodes ->
  exists out,
    CombinedByzantine.run_byzantine_simulation link total_nodes num_traitors commander_order
    = Some out /\
    forall sender lt_id path order,
      In (sender, lt_id, path, order)
         (CombinedByzantine.sent (CombinedByzantine.final out)) ->
      call_ok total_nodes num_traitors (sender, lt_id, path, order) /\
      lt_id <> 0 /\ lt_id <> sender.
Proof.
  intros Hb. unfold CombinedByzantine.run_byzantine_simulation.
  destruct (total_nodes <=? 3 * num_traitors) eqn:E; [apply Z.leb_le in E; lia|].
  set (ns := map _ (Py.range total_nodes)). unfold Py.range at 1.
  destruct (foldM_seq_inv
              (CombinedByzantine.round link total_nodes num_traitors commander_order)
              (fun k st =>
                 sim_nodes_ok total_nodes num_traitors (CombinedByzantine.nodes (fst st)) /\
                 (0 <= num_traitors ->
                  Forall (sim_path_fresh total_nodes (Z.of_nat k + 1)) (snd st)) /\
                 Forall (call_ok total_nodes num_traitors)
                        (CombinedByzantine.sent (fst st)))
              (Z.to_nat (num_traitors + 1)) 0%nat
              (CombinedByzantine.mkNet ns [], [[0]]))
    as (st & -> & Hn & _ & Hs).
  { cbn [fst snd CombinedByzantine.nodes CombinedByzantine.sent].
    split; [apply initial_nodes_ok|]. split; [|constructor].
    intros Hm. constructor; [|constructor]. split; [split | split; [|split]].
    - discriminate.
    - intros x [<-|[]]. lia.
    - reflexivity.
    - repeat constructor. intros [].
    - cbn. lia. }
  { intros k a Hk (Ha1 & Ha2 & Ha3). unfold CombinedByzantine.round.
    assert (Hm : 0 <= num_traitors) by lia. specialize (Ha2 Hm).
    destruct (foldM_inv
                (CombinedByzantine.visit_path link total_nodes num_traitors (Z.of_nat k)
                   commander_order)
                (fun st => sim_state_ok total_nodes num_traitors st /\
                           Forall (sim_path_fresh total_nodes (Z.of_nat k + 2)) (snd st) /\
                           Forall (call_ok total_nodes num_traitors)
                                  (CombinedByzantine.sent (fst st)))
                (sim_path_fresh total_nodes (Z.of_nat k + 1)) (snd a) a)
      as (a' & Ea & Ha' & Hp' & Hs').
    - intros b p (Hb1 & Hb2 & Hb3) Hp.
      destruct (visit_path_ok link total_nodes num_traitors (Z.of_nat k) commander_order
                  b p Hb1 (proj1 Hp)) as (b' & Eb & Hb').
      exists b'. split; [exact Eb|]. split; [exact Hb'|].
      apply (visit_path_calls link total_nodes num_traitors (Z.of_nat k) commander_order
               b b' p); auto; [lia | apply Hb1].
    - exact Ha2.
    - split; [split; [exact Ha1|] | split; [|exact Ha3]].
      + eapply Forall_impl; [|exact Ha2]. intros p Hp. apply Hp.
      + eapply Forall_impl; [|exact Ha2]. intros p (H1 & H2 & H3 & H4).
        split; [exact H1 | split; [exact H2 | split; [exact H3 | lia]]].
    - exists a'. split; [exact Ea|]. split; [apply Ha'|]. split; [|exact Hs'].
      intros _. replace (Z.of_nat (S k) + 1) with (Z.of_nat k + 2) by lia. exact Hp'. }
  cbn [CombinedByzantine.bind].
  destruct (decide_all_ok total_nodes num_traitors num_traitors 0 _ (proj2 Hn))
    as (ds & -> & _).
  cbn [CombinedByzantine.bind]. eexists. split; [reflexivity|].
  cbn [CombinedByzantine.final CombinedByzantine.sent].
  intros sender lt_id path order Hin. rewrite Forall_forall in Hs.
  pose proof (Hs _ Hin) as Hc. split; [exact Hc|].
  destruct Hc as (Hhd & _ & Hlast & _ & Hnot & _). split.
  - intros ->. apply Hnot. destruct path as [|x path]; [discriminate|].
    injection Hhd as ->. now left.
  - intros ->. apply Hnot. unfold CombinedByzantine.last_of in Hlast.
    apply in_rev. destruct (rev path); [discriminate|].
    injection Hlast as ->. now left.
Qed.

Lemma X22_witness :
  exists out,
    CombinedByzantine.run_byzantine_simulation relay_1_to_2_lost 4 1 ATTACK = Some out /\
    forall sender lt_id path order,
      In (sender, lt_id, path, order)
         (CombinedByzantine.sent (CombinedByzantine.final out)) ->
      call_ok 4 1 (sender, lt_id, path, order) /\ lt_id <> 0 /\ lt_id <> sender.
Proof.
  apply (X22_calls_follow_fresh_paths relay_1_to_2_lost 4 1 ATTACK). lia.
Defined.
